(** * ChartGen: schema inference, chart-intent resolution and data transformation

    A shallow embedding of the three pure cores of the ChartGen web tool, of
    the code generator's emitted pipeline, and of the handlers that hold
    the page together:

    - [inferType], [analyzeSchema], [processJson], [handlePaste],
      [handleReset]                         (src/components/JsonUploader.tsx)
    - [generateChartConfig], [handleSubmit], [formatMessage],
      the greeting                          (src/components/Chat.tsx)
    - [transformData]                       (src/components/ChartPreview.tsx)
    - [generateComponentCode], the component name
                                            (src/components/CodeGenerator.tsx)
    - [handleDataLoaded], [handleChartGenerated] and the props of [Chat]
                                            (src/App.tsx)

    Conventions of the embedding.

    - A JavaScript string is a Rocq [string]: a sequence of code units, of
      which the model covers the range 0..255 (Latin-1).
    - A JavaScript number is an IEEE 754 binary64 value: Rocq's primitive
      [float].  [parseFloat], [String(number)] and [Math.round] are computed
      exactly through [SpecFloat].
    - What ECMAScript leaves to the implementation (collation order, the
      fallback date parser, the local time zone, the text of a native
      function) is a field of the class [Host]; [JSON.parse] is a variable
      of the sections that use it.
    - A call that can raise returns a [Completion]. *)

From Stdlib Require Import ZArith List String Ascii Bool Lia Arith Permutation Sorted.
From Stdlib Require Import DecimalString DecimalZ.
From Stdlib Require OrderedTypeEx.
From Stdlib Require Import Floats.PrimFloat Floats.SpecFloat Floats.FloatOps.
From Stdlib Require Floats.FloatAxioms.
Import ListNotations.

Local Open Scope string_scope.
Local Open Scope Z_scope.

Set Warnings "-register-all".

(* ================================================================== *)
(** * Part I. Definitions *)
(* ================================================================== *)

(** ** Completions: normal return or a thrown error *)

Inductive JsError : Type :=
| ErrorMsg (msg : string)      (* [throw new Error(msg)] *)
| TypeError (what : string).   (* raised by the runtime *)

Inductive Completion (A : Type) : Type :=
| Normal (a : A)
| Throw (e : JsError).

Arguments Normal {A} a.
Arguments Throw {A} e.

(** Sequencing: an error ends the evaluation. *)
Definition bind {A B : Type} (c : Completion A) (f : A -> Completion B) : Completion B :=
  match c with
  | Normal a => f a
  | Throw e => Throw e
  end.

Notation "x <- c ;; k" := (bind c (fun x => k))
  (at level 61, c at next level, right associativity).

(** [l.map(f)] and [l.filter(p)] for callbacks that can raise: the elements
    are visited in order, and the first error ends the loop. *)
Fixpoint mapM {A B : Type} (f : A -> Completion B) (l : list A) : Completion (list B) :=
  match l with
  | [] => Normal []
  | a :: rest =>
      b <- f a;;
      bs <- mapM f rest;;
      Normal (b :: bs)
  end.

Fixpoint filterM {A : Type} (p : A -> Completion bool) (l : list A) : Completion (list A) :=
  match l with
  | [] => Normal []
  | a :: rest =>
      keep <- p a;;
      kept <- filterM p rest;;
      Normal (if keep then a :: kept else kept)
  end.

(** ** Strings *)

Module Str.

Definition isDigit (c : ascii) : bool :=
  let n := nat_of_ascii c in (48 <=? n)%nat && (n <=? 57)%nat.

Definition isUpper (c : ascii) : bool :=
  let n := nat_of_ascii c in (65 <=? n)%nat && (n <=? 90)%nat.

Definition isLower (c : ascii) : bool :=
  let n := nat_of_ascii c in (97 <=? n)%nat && (n <=? 122)%nat.

(** [\w] of a regular expression without the [u] flag: [A-Za-z0-9_]. *)
Definition isWord (c : ascii) : bool :=
  isDigit c || isUpper c || isLower c || (nat_of_ascii c =? 95)%nat.

(** WhiteSpace and LineTerminator code units below 256:
    TAB, LF, VT, FF, CR, SP, NBSP. *)
Definition isSpace (c : ascii) : bool :=
  let n := nat_of_ascii c in
  ((9 <=? n)%nat && (n <=? 13)%nat) || (n =? 32)%nat || (n =? 160)%nat.

(** [String.prototype.toLowerCase] on one Latin-1 code unit: A-Z, and
    0xC0-0xDE except the multiplication sign 0xD7, move up by 32. *)
Definition lowerChar (c : ascii) : ascii :=
  let n := nat_of_ascii c in
  if isUpper c then ascii_of_nat (n + 32)
  else if ((192 <=? n)%nat && (n <=? 222)%nat && negb (n =? 215)%nat)
       then ascii_of_nat (n + 32)
  else c.

Fixpoint toLowerCase (s : string) : string :=
  match s with
  | EmptyString => EmptyString
  | String c s' => String (lowerChar c) (toLowerCase s')
  end.

(** [s.startsWith(p)] *)
Fixpoint startsWith (s p : string) : bool :=
  match p, s with
  | EmptyString, _ => true
  | String _ _, EmptyString => false
  | String a p', String b s' => Ascii.eqb a b && startsWith s' p'
  end.

(** [s.includes(sub)] *)
Fixpoint includes (s sub : string) : bool :=
  startsWith s sub ||
  match s with
  | EmptyString => false
  | String _ s' => includes s' sub
  end.

Fixpoint dropWhile (p : ascii -> bool) (s : string) : string :=
  match s with
  | EmptyString => EmptyString
  | String c s' => if p c then dropWhile p s' else s
  end.

Fixpoint takeWhile (p : ascii -> bool) (s : string) : string :=
  match s with
  | EmptyString => EmptyString
  | String c s' => if p c then String c (takeWhile p s') else EmptyString
  end.

Fixpoint rev_append (s acc : string) : string :=
  match s with
  | EmptyString => acc
  | String c s' => rev_append s' (String c acc)
  end.

Definition rev (s : string) : string := rev_append s EmptyString.

Definition trimStart (s : string) : string := dropWhile isSpace s.

(** [s.trim()] *)
Definition trim (s : string) : string := rev (trimStart (rev (trimStart s))).

(** [s.slice(0, n)] for [n >= 0] *)
Fixpoint take (n : nat) (s : string) : string :=
  match n, s with
  | O, _ => EmptyString
  | _, EmptyString => EmptyString
  | S n', String c s' => String c (take n' s')
  end.

Fixpoint drop (n : nat) (s : string) : string :=
  match n, s with
  | O, _ => s
  | _, EmptyString => EmptyString
  | S n', String _ s' => drop n' s'
  end.

Fixpoint repeat (c : ascii) (n : nat) : string :=
  match n with
  | O => EmptyString
  | S n' => String c (repeat c n')
  end.

(** [s.padStart(n, '0')] *)
Definition padStart0 (n : nat) (s : string) : string :=
  repeat "0"%char (n - String.length s) ++ s.

Fixpoint forallb (p : ascii -> bool) (s : string) : bool :=
  match s with
  | EmptyString => true
  | String c s' => p c && forallb p s'
  end.

Definition isEmpty (s : string) : bool :=
  match s with EmptyString => true | _ => false end.

(** Decimal digits of an integer, as [String(n)] prints an integer Number. *)
Definition ofZ (z : Z) : string := NilZero.string_of_int (Z.to_int z).

Definition ofNat (n : nat) : string := ofZ (Z.of_nat n).

(** Value of a string of decimal digits (0 for the empty string). *)
Fixpoint digitsValue (acc : Z) (s : string) : Z :=
  match s with
  | EmptyString => acc
  | String c s' => digitsValue (10 * acc + (Z.of_nat (nat_of_ascii c) - 48)) s'
  end.

End Str.

(** ** Numbers: IEEE 754 binary64 *)

Module Num.

Definition ofZ (z : Z) : float := SF2Prim (binary_normalize prec emax z 0 false).

Definition ofNat (n : nat) : float := ofZ (Z.of_nat n).

Definition isNaN (x : float) : bool := PrimFloat.is_nan x.

(** The binary64 value nearest to [(-1)^neg * m * 10^e] (ties to even), for
    [m >= 0].  A negative power of ten is divided out with 66 spare bits and
    a sticky bit, so that the single rounding of [binary_normalize] is the
    rounding of the exact quotient.  (ECMAScript allows an implementation to
    cut a literal at its 20th significant digit first; the engines in use
    round the exact value, as is done here.) *)
Definition ofDecimal (neg : bool) (m e : Z) : float :=
  if m =? 0 then (if neg then neg_zero else zero)
  else if 0 <=? e then
    let v := m * 10 ^ e in
    SF2Prim (binary_normalize prec emax (if neg then - v else v) 0 false)
  else
    let d := 10 ^ (- e) in
    let s := Z.log2 d + 66 in
    let n := m * 2 ^ s in
    let mant := 2 * (n / d) + (if n mod d =? 0 then 0 else 1) in
    SF2Prim (binary_normalize prec emax (if neg then - mant else mant) (- s - 1) false).

(** *** [parseFloat] *)

(** A parsed StrUnsignedDecimalLiteral: [Infinity], or a digit string read as
    [mant * 10^exp10]. *)
Inductive Literal : Type :=
| LitInfinity
| LitDecimal (mant exp10 : Z).

Definition isExponentIndicator (c : ascii) : bool :=
  Ascii.eqb c "e"%char || Ascii.eqb c "E"%char.

(** ExponentPart, when one is well formed at the head of [s]; otherwise
    nothing is consumed. *)
Definition parseExponent (s : string) : Z * string :=
  match s with
  | String c s1 =>
      if isExponentIndicator c then
        let '(neg, s2) :=
          match s1 with
          | String "+"%char r => (false, r)
          | String "-"%char r => (true, r)
          | _ => (false, s1)
          end in
        let ds := Str.takeWhile Str.isDigit s2 in
        if Str.isEmpty ds then (0, s)
        else let v := Str.digitsValue 0 ds in
             ((if neg then - v else v), Str.dropWhile Str.isDigit s2)
      else (0, s)
  | EmptyString => (0, s)
  end.

(** The longest prefix of [s] that is a StrUnsignedDecimalLiteral, with the
    rest of [s]. *)
Definition parseUnsigned (s : string) : option (Literal * string) :=
  if Str.startsWith s "Infinity" then Some (LitInfinity, Str.drop 8 s)
  else
    let ip := Str.takeWhile Str.isDigit s in
    let r1 := Str.dropWhile Str.isDigit s in
    let '(fp, r2) :=
      match r1 with
      | String "."%char r => (Str.takeWhile Str.isDigit r, Str.dropWhile Str.isDigit r)
      | _ => (EmptyString, r1)
      end in
    if Str.isEmpty ip && Str.isEmpty fp then None
    else
      let '(e, r3) := parseExponent r2 in
      Some (LitDecimal (Str.digitsValue 0 (ip ++ fp)) (e - Z.of_nat (String.length fp)), r3).

(** The longest prefix that is a StrDecimalLiteral (optional sign). *)
Definition parseSigned (s : string) : option (bool * Literal * string) :=
  let '(neg, body) :=
    match s with
    | String "+"%char r => (false, r)
    | String "-"%char r => (true, r)
    | _ => (false, s)
    end in
  match parseUnsigned body with
  | Some (l, rest) => Some (neg, l, rest)
  | None => None
  end.

Definition literalValue (neg : bool) (l : Literal) : float :=
  match l with
  | LitInfinity => if neg then neg_infinity else infinity
  | LitDecimal m e => ofDecimal neg m e
  end.

Definition parseFloat (s : string) : float :=
  match parseSigned (Str.trimStart s) with
  | Some (neg, l, _) => literalValue neg l
  | None => nan
  end.

(** *** [isNaN(Number(s))] for a string [s] *)

Definition isHexDigit (c : ascii) : bool :=
  let n := nat_of_ascii c in
  Str.isDigit c || ((65 <=? n)%nat && (n <=? 70)%nat) || ((97 <=? n)%nat && (n <=? 102)%nat).

Definition isOctalDigit (c : ascii) : bool :=
  let n := nat_of_ascii c in (48 <=? n)%nat && (n <=? 55)%nat.

Definition isBinaryDigit (c : ascii) : bool :=
  let n := nat_of_ascii c in (48 <=? n)%nat && (n <=? 49)%nat.

Definition nonEmptyAll (p : ascii -> bool) (s : string) : bool :=
  negb (Str.isEmpty s) && Str.forallb p s.

(** NonDecimalIntegerLiteral: [0x], [0o], [0b] and at least one digit. *)
Definition isNonDecimalLiteral (s : string) : bool :=
  match s with
  | String "0"%char (String c r) =>
      if Ascii.eqb c "x"%char || Ascii.eqb c "X"%char then nonEmptyAll isHexDigit r
      else if Ascii.eqb c "o"%char || Ascii.eqb c "O"%char then nonEmptyAll isOctalDigit r
      else if Ascii.eqb c "b"%char || Ascii.eqb c "B"%char then nonEmptyAll isBinaryDigit r
      else false
  | _ => false
  end.

(** The string is a StringNumericLiteral: blank, a whole StrDecimalLiteral,
    or a non-decimal integer literal, between optional white space. *)
Definition isNumericLiteral (s : string) : bool :=
  let t := Str.trim s in
  Str.isEmpty t ||
  match parseSigned t with
  | Some (_, _, EmptyString) => true
  | _ => false
  end || isNonDecimalLiteral t.

Definition stringToNumberIsNaN (s : string) : bool := negb (isNumericLiteral s).

(** *** [Number::toString] (radix 10) *)

(** The exact value of a positive finite number is [num / den]. *)
Definition fraction (m : positive) (e : Z) : Z * Z :=
  if 0 <=? e then (Zpos m * 2 ^ e, 1) else (Zpos m, 2 ^ (- e)).

(** [num / den] scaled by [10^(-p)], again as a fraction. *)
Definition scale10 (nd : Z * Z) (p : Z) : Z * Z :=
  let '(n, d) := nd in
  if 0 <=? p then (n, d * 10 ^ p) else (n * 10 ^ (- p), d).

(** The integer [n] with [10^(n-1) <= num/den < 10^n], searched from an
    estimate by the binary logarithm. *)
Fixpoint adjustDigits (fuel : nat) (nd : Z * Z) (n : Z) : Z :=
  match fuel with
  | O => n
  | S fuel' =>
      let '(a, b) := scale10 nd n in            (* v / 10^n *)
      if b <=? a then adjustDigits fuel' nd (n + 1)
      else
        let '(a', b') := scale10 nd (n - 1) in  (* v / 10^(n-1) *)
        if a' <? b' then adjustDigits fuel' nd (n - 1)
        else n
  end.

Definition decimalDigitsCount (nd : Z * Z) : Z :=
  let '(a, b) := nd in
  adjustDigits 8 nd (((Z.log2 a - Z.log2 b) * 30103) / 100000).

(** The digit string [s] of [k] digits and the exponent [n] that
    Number::toString chooses for [x = num/den]: the least [k] for which some
    [s * 10^(n-k)] rounds to [x], the [s] nearest to [x], the even one on a
    tie. *)
Fixpoint shortest (fuel : nat) (x : float) (nd : Z * Z) (n0 k : Z) : Z * Z * Z :=
  let p := n0 - k in
  let '(a, b) := scale10 nd p in
  let lo := a / b in
  let hi := lo + 1 in
  let okLo := PrimFloat.Leibniz.eqb (ofDecimal false lo p) x in
  let okHi := PrimFloat.Leibniz.eqb (ofDecimal false hi p) x in
  let r2 := 2 * (a mod b) in
  let pickLo := if r2 <? b then true else if b <? r2 then false else Z.even lo in
  let norm (s : Z) := if s =? 10 ^ k then (n0 + 1, k, 10 ^ (k - 1)) else (n0, k, s) in
  match fuel with
  | O => norm (if pickLo then lo else hi)
  | S fuel' =>
      if okLo && okHi then norm (if pickLo then lo else hi)
      else if okLo then norm lo
      else if okHi then norm hi
      else shortest fuel' x nd n0 (k + 1)
  end.

Definition toStringPositive (x : float) (m : positive) (e : Z) : string :=
  let nd := fraction m e in
  let n0 := decimalDigitsCount nd in
  let '(n, k, s) := shortest 20 x nd n0 1 in
  let ds := Str.ofZ s in
  if (k <=? n) && (n <=? 21) then ds ++ Str.repeat "0"%char (Z.to_nat (n - k))
  else if (0 <? n) && (n <=? 21) then
    Str.take (Z.to_nat n) ds ++ "." ++ Str.drop (Z.to_nat n) ds
  else if (-6 <? n) && (n <=? 0) then
    "0." ++ Str.repeat "0"%char (Z.to_nat (- n)) ++ ds
  else
    let ex := (if 0 <=? n - 1 then "+" else "-") ++ Str.ofZ (Z.abs (n - 1)) in
    if k =? 1 then ds ++ "e" ++ ex
    else Str.take 1 ds ++ "." ++ Str.drop 1 ds ++ "e" ++ ex.

Definition toString (x : float) : string :=
  match Prim2SF x with
  | S754_nan => "NaN"
  | S754_zero _ => "0"
  | S754_infinity false => "Infinity"
  | S754_infinity true => "-Infinity"
  | S754_finite false m e => toStringPositive x m e
  | S754_finite true m e => "-" ++ toStringPositive (PrimFloat.opp x) m e
  end.

(** *** [Math.round], [Math.max], [Math.min] and truncation *)

(** [Math.round]: the nearest integer, a tie going towards plus infinity;
    a result of zero keeps the sign of a negative argument. *)
Definition mathRound (x : float) : float :=
  match Prim2SF x with
  | S754_finite s m e =>
      if 0 <=? e then x
      else
        let den := 2 ^ (- e) in
        let num := if s then - Zpos m else Zpos m in
        let n := (2 * num + den) / (2 * den) in
        if n =? 0 then (if s then neg_zero else zero) else ofZ n
  | _ => x
  end.

(** The integer part of a finite number (towards zero); [None] for NaN and
    the infinities. *)
Definition truncate (x : float) : option Z :=
  match Prim2SF x with
  | S754_zero _ => Some 0
  | S754_finite s m e =>
      let a := if 0 <=? e then Zpos m * 2 ^ e else Zpos m / 2 ^ (- e) in
      Some (if s then - a else a)
  | _ => None
  end.

(** One step of [Math.max]: NaN is contagious and [+0] is above [-0]. *)
Definition max2 (a b : float) : float :=
  if isNaN a || isNaN b then nan
  else match PrimFloat.compare a b with
       | FLt => b
       | FGt => a
       | _ => if PrimFloat.get_sign a then b else a
       end.

Definition min2 (a b : float) : float :=
  if isNaN a || isNaN b then nan
  else match PrimFloat.compare a b with
       | FLt => a
       | FGt => b
       | _ => if PrimFloat.get_sign a then a else b
       end.

(** [Math.max(...values)] *)
Definition mathMax (values : list float) : float := fold_left max2 values neg_infinity.

(** [Math.min(...values)] *)
Definition mathMin (values : list float) : float := fold_left min2 values infinity.

(** [values.reduce((a, b) => a + b, 0)] *)
Definition sum (values : list float) : float := fold_left PrimFloat.add values zero.

(** [x || 0] for a number [x]: NaN and both zeros are falsy. *)
Definition orZero (x : float) : float :=
  if isNaN x || PrimFloat.is_zero x then zero else x.

End Num.

(** ** What the host implementation decides *)

Class Host : Type := {
  (** [a.localeCompare(b)]: the sign of the result, in the host's locale. *)
  localeCompare : string -> string -> comparison;
  (** [Date.parse] on a string that is not one of the date-only forms fixed
      below: the time value, or [None] for NaN. *)
  dateParseFallback : string -> option Z;
  (** The local time zone adjustment, in milliseconds, at a UTC time value. *)
  localTZA : Z -> Z;
  (** [String(f)] for the built-in function that [Object.prototype] holds
      under a name. *)
  nativeFunctionText : string -> string
}.

(** ** JSON values and property access *)

(** What [JSON.parse] can return. *)
Inductive JVal : Type :=
| JNull
| JBool (b : bool)
| JNum (x : float)
| JStr (s : string)
| JArr (items : list JVal)
| JObj (props : list (string * JVal)).

(** [DataRow = Record<string, unknown>] (types/index.ts): the own properties
    of a parsed JSON object, in insertion order. *)
Definition DataRow : Type := list (string * JVal).

Fixpoint assoc {A : Type} (k : string) (l : list (string * A)) : option A :=
  match l with
  | [] => None
  | (k', a) :: l' => if String.eqb k k' then Some a else assoc k l'
  end.

Definition keys {A : Type} (l : list (string * A)) : list string := map fst l.

(** The function-valued properties of [Object.prototype]; [__proto__] is its
    accessor and is handled apart. *)
Definition objectPrototypeFunctions : list string :=
  [ "constructor"; "hasOwnProperty"; "isPrototypeOf"; "propertyIsEnumerable";
    "toLocaleString"; "toString"; "valueOf";
    "__defineGetter__"; "__defineSetter__"; "__lookupGetter__"; "__lookupSetter__" ].

(** The result of reading a property of an object whose prototype is
    [Object.prototype]. *)
Inductive Value : Type :=
| VUndefined
| VJson (v : JVal)
| VNativeFunction (name : string)
| VObjectPrototype.

(** What [o[k]] finds beyond the own properties of [o]. *)
Definition inherited (k : string) : Value :=
  if String.eqb k "__proto__" then VObjectPrototype
  else if existsb (String.eqb k) objectPrototypeFunctions then VNativeFunction k
  else VUndefined.

(** [row[k]] *)
Definition getProp (row : DataRow) (k : string) : Value :=
  match assoc k row with
  | Some v => VJson v
  | None => inherited k
  end.

(** What [String(v)] raises for an object that no method turns into a
    primitive value. *)
Definition cannotConvert : JsError :=
  TypeError "Cannot convert object to primitive value".

(** [String(v)] for a JSON value.  An array joins the strings of its
    elements with commas, [null] elements printing as nothing.  An object
    is converted by the first of its methods [toString] and [valueOf] that
    is callable and returns a primitive value: with an own property named
    [toString] (which, in a parsed document, is never a function) only
    [valueOf] is left, [Object.prototype.valueOf] returns the object
    itself, and the conversion raises; otherwise [Object.prototype.toString]
    answers. *)
Fixpoint jsonToString (v : JVal) : Completion string :=
  match v with
  | JNull => Normal "null"
  | JBool true => Normal "true"
  | JBool false => Normal "false"
  | JNum x => Normal (Num.toString x)
  | JStr s => Normal s
  | JArr items =>
      (fix join (l : list JVal) : Completion string :=
         match l with
         | [] => Normal ""
         | x :: rest =>
             sx <- match x with JNull => Normal "" | _ => jsonToString x end;;
             match rest with
             | [] => Normal sx
             | _ :: _ => sr <- join rest;; Normal (sx ++ "," ++ sr)
             end
         end) items
  | JObj props =>
      if existsb (String.eqb "toString") (keys props) then Throw cannotConvert
      else Normal "[object Object]"
  end.

(** [String(v)] *)
Definition toString `{Host} (v : Value) : Completion string :=
  match v with
  | VUndefined => Normal "undefined"
  | VJson j => jsonToString j
  | VNativeFunction name => Normal (nativeFunctionText name)
  | VObjectPrototype => Normal "[object Object]"
  end.

(** ToBoolean *)
Definition truthy (v : Value) : bool :=
  match v with
  | VUndefined => false
  | VJson JNull => false
  | VJson (JBool b) => b
  | VJson (JNum x) => negb (Num.isNaN x || PrimFloat.is_zero x)
  | VJson (JStr s) => negb (Str.isEmpty s)
  | VJson (JArr _) => true
  | VJson (JObj _) => true
  | VNativeFunction _ => true
  | VObjectPrototype => true
  end.

(** [String(v || '')] *)
Definition toStringOrEmpty `{Host} (v : Value) : Completion string :=
  if truthy v then toString v else Normal "".

(** [parseFloat(String(v)) || 0] *)
Definition toNumberOrZero `{Host} (v : Value) : Completion float :=
  text <- toString v;;
  Normal (Num.orZero (Num.parseFloat text)).

(** *** Property order of an ordinary object *)

(** The array index a key denotes: a canonical decimal numeral at most
    [2^32 - 2]. *)
Definition arrayIndex (k : string) : option Z :=
  if negb (Str.isEmpty k) && Str.forallb Str.isDigit k then
    let n := Str.digitsValue 0 k in
    if String.eqb (Str.ofZ n) k && (n <=? 4294967294) then Some n else None
  else None.

Definition isArrayIndex (k : string) : bool :=
  match arrayIndex k with Some _ => true | None => false end.

Definition indexOf (k : string) : Z :=
  match arrayIndex k with Some n => n | None => 0 end.

Fixpoint insertByIndex {A : Type} (e : string * A) (l : list (string * A)) : list (string * A) :=
  match l with
  | [] => [e]
  | e' :: l' =>
      if indexOf (fst e) <=? indexOf (fst e') then e :: l
      else e' :: insertByIndex e l'
  end.

Definition sortByIndex {A : Type} (l : list (string * A)) : list (string * A) :=
  fold_right insertByIndex [] l.

(** [Object.entries(o)] for the own properties [o] in insertion order:
    array-index keys first, ascending, then the other keys as inserted. *)
Definition entries {A : Type} (o : list (string * A)) : list (string * A) :=
  sortByIndex (filter (fun e => isArrayIndex (fst e)) o)
  ++ filter (fun e => negb (isArrayIndex (fst e))) o.

(** [o[k] = a] on own properties: an existing key keeps its place. *)
Fixpoint setProp {A : Type} (k : string) (a : A) (o : list (string * A)) : list (string * A) :=
  match o with
  | [] => [(k, a)]
  | (k', a') :: o' =>
      if String.eqb k k' then (k, a) :: o' else (k', a') :: setProp k a o'
  end.

(** ** Dates *)

Module Date.

Definition msPerDay : Z := 86400000.

(** Days since 1970-01-01 of a proleptic Gregorian date; [m] is 1..12. *)
Definition daysFromCivil (y m d : Z) : Z :=
  let y' := if m <=? 2 then y - 1 else y in
  let era := y' / 400 in
  let yoe := y' - era * 400 in
  let mp := if 2 <? m then m - 3 else m + 9 in
  let doy := (153 * mp + 2) / 5 + d - 1 in
  let doe := yoe * 365 + yoe / 4 - yoe / 100 + doy in
  era * 146097 + doe - 719468.

(** Year, month (1..12) and day of the month of a day number. *)
Definition civilFromDays (days : Z) : Z * Z * Z :=
  let z := days + 719468 in
  let era := z / 146097 in
  let doe := z - era * 146097 in
  let yoe := (doe - doe / 1460 + doe / 36524 - doe / 146096) / 365 in
  let doy := doe - (365 * yoe + yoe / 4 - yoe / 100) in
  let mp := (5 * doy + 2) / 153 in
  let d := doy - (153 * mp + 2) / 5 + 1 in
  let m := if mp <? 10 then mp + 3 else mp - 9 in
  let y := yoe + era * 400 + (if m <=? 2 then 1 else 0) in
  (y, m, d).

Definition isLeapYear (y : Z) : bool :=
  ((y mod 4 =? 0) && negb (y mod 100 =? 0)) || (y mod 400 =? 0).

Definition daysInMonth (y m : Z) : Z :=
  if m =? 2 then (if isLeapYear y then 29 else 28)
  else if (m =? 4) || (m =? 6) || (m =? 9) || (m =? 11) then 30
  else 31.

Definition allDigits (n : nat) (s : string) : bool :=
  (String.length s =? n)%nat && Str.forallb Str.isDigit s.

(** The date-only forms [YYYY], [YYYY-MM] and [YYYY-MM-DD] of the Date Time
    String Format, for a date that exists: UTC midnight of that day. *)
Definition parseDateOnly (s : string) : option Z :=
  let y := Str.take 4 s in
  let r := Str.drop 4 s in
  if negb (allDigits 4 y) then None
  else
    let yv := Str.digitsValue 0 y in
    match r with
    | EmptyString => Some (daysFromCivil yv 1 1 * msPerDay)
    | String "-"%char r1 =>
        let m := Str.take 2 r1 in
        let r2 := Str.drop 2 r1 in
        let mv := Str.digitsValue 0 m in
        if negb (allDigits 2 m && (1 <=? mv) && (mv <=? 12)) then None
        else
          match r2 with
          | EmptyString => Some (daysFromCivil yv mv 1 * msPerDay)
          | String "-"%char r3 =>
              let dv := Str.digitsValue 0 r3 in
              if allDigits 2 r3 && (1 <=? dv) && (dv <=? daysInMonth yv mv)
              then Some (daysFromCivil yv mv dv * msPerDay)
              else None
          | _ => None
          end
    | _ => None
    end.

(** TimeClip on an integral time value. *)
Definition timeClip (t : Z) : option Z :=
  if Z.abs t <=? 8640000000000000 then Some t else None.

(** [Date.parse(s)]: the time value of [new Date(s)] for a string [s];
    [None] is NaN, the invalid date. *)
Definition parse `{Host} (s : string) : option Z :=
  match parseDateOnly s with
  | Some t => Some t
  | None =>
      match dateParseFallback s with
      | Some t => timeClip t
      | None => None
      end
  end.

(** The time value of [new Date(v)] for a property value [v]: a string is
    parsed, anything else but an object is converted to a number and
    clipped, an object goes through its string, which raises when
    [String(v)] does. *)
Definition ofValue `{Host} (v : Value) : Completion (option Z) :=
  match v with
  | VUndefined => Normal None
  | VJson JNull => Normal (Some 0)
  | VJson (JBool b) => Normal (Some (if b then 1 else 0))
  | VJson (JNum x) =>
      Normal match Num.truncate x with
             | Some t => timeClip t
             | None => None
             end
  | VJson (JStr s) => Normal (parse s)
  | _ => text <- toString v;; Normal (parse text)
  end.

(** [getFullYear()], [getMonth()] (0..11) and [getDate()] of a valid date:
    the fields of the local time. *)
Definition localFields `{Host} (t : Z) : Z * Z * Z :=
  let '(y, m, d) := civilFromDays ((t + localTZA t) / msPerDay) in
  (y, m - 1, d).

Definition getFullYear `{Host} (t : Z) : Z := fst (fst (localFields t)).
Definition getMonth `{Host} (t : Z) : Z := snd (fst (localFields t)).
Definition getDate `{Host} (t : Z) : Z := snd (localFields t).

(** [Math.ceil(d / 7)] for a day of the month [d]. *)
Definition weekOfMonth (d : Z) : Z := (d + 6) / 7.

End Date.

(** ** The shared types (types/index.ts) *)

Inductive FieldType : Type :=
| TNumber | TNumberString | TString | TDate | TBoolean
| TObject | TArray | TNull | TMixed | TUnknown.

Definition FieldType_eqb (a b : FieldType) : bool :=
  match a, b with
  | TNumber, TNumber | TNumberString, TNumberString | TString, TString
  | TDate, TDate | TBoolean, TBoolean | TObject, TObject | TArray, TArray
  | TNull, TNull | TMixed, TMixed | TUnknown, TUnknown => true
  | _, _ => false
  end.

Record SchemaField : Type := {
  name : string;
  type : FieldType;
  types : list FieldType;
  coverage : float;
  samples : list string
}.

Inductive ChartType : Type := Line | Bar | Pie | Scatter.

Inductive GroupBy : Type := Day | Week | Month | Year.

Inductive Aggregate : Type := Sum | Average | Count | Max | Min.

Record Filter : Type := { field : string; value : string }.

Record ChartConfig : Type := {
  chartType : ChartType;
  xField : string;
  yField : string;
  labelField : option string;
  groupBy : option GroupBy;
  filter : option Filter;
  aggregate : Aggregate;
  color : string;
  title : string
}.

(** ** Chart-intent resolution (Chat.tsx) *)

(** [!v] for [v : string | null]: null and the empty string are falsy. *)
Definition falsy (v : option string) : bool :=
  match v with
  | None => true
  | Some s => Str.isEmpty s
  end.

(** [a || b] for [a : string | null | undefined] and a string [b]. *)
Definition orElse (a : option string) (b : string) : string :=
  if falsy a then b else match a with Some s => s | None => b end.

Definition isXType (t : FieldType) : bool :=
  match t with TDate | TString => true | _ => false end.

Definition isYType (t : FieldType) : bool :=
  match t with TNumber | TNumberString => true | _ => false end.

(** [msg.includes(f.name.toLowerCase())] *)
Definition mentioned (msg : string) (f : SchemaField) : bool :=
  Str.includes msg (Str.toLowerCase (name f)).

(** One turn of [schema.forEach(f => ...)] on the pair of variables
    [xField], [yField]. *)
Definition detectStep (msg : string) (xy : option string * option string) (f : SchemaField)
  : option string * option string :=
  let '(x, y) := xy in
  if mentioned msg f then
    let x := if isXType (type f) then (if falsy x then Some (name f) else x) else x in
    let y := if isYType (type f) then Some (name f) else y in
    (x, y)
  else (x, y).

Definition detectFields (msg : string) (schema : list SchemaField)
  : option string * option string :=
  fold_left (detectStep msg) schema (None, None).

(** *** The filter pattern
    [/(?:only|where|filter)\s+(\w+)\s*=\s*["']?(\w+)["']?/i] *)

Definition foldCase (c : ascii) : ascii :=
  if Str.isUpper c then ascii_of_nat (nat_of_ascii c + 32) else c.

(** A literal of lower-case letters under the [i] flag. *)
Fixpoint stripKeyword (kw s : string) : option string :=
  match kw, s with
  | EmptyString, _ => Some s
  | String _ _, EmptyString => None
  | String a kw', String b s' =>
      if Ascii.eqb a (foldCase b) then stripKeyword kw' s' else None
  end.

Definition isQuote (c : ascii) : bool :=
  Ascii.eqb c (ascii_of_nat 34) || Ascii.eqb c "'"%char.

(** A match of the pattern that starts at the head of [s].  Every
    quantifier is followed by a class disjoint from its own, so the greedy
    reading is the only one and no backtracking is lost. *)
Definition matchFilterAt (s : string) : option Filter :=
  let afterKeyword :=
    match stripKeyword "only" s with
    | Some r => Some r
    | None =>
        match stripKeyword "where" s with
        | Some r => Some r
        | None => stripKeyword "filter" s
        end
    end in
  match afterKeyword with
  | None => None
  | Some r =>
      match r with
      | String c _ =>
          if Str.isSpace c then
            let r1 := Str.dropWhile Str.isSpace r in
            let f := Str.takeWhile Str.isWord r1 in
            if Str.isEmpty f then None
            else
              match Str.dropWhile Str.isSpace (Str.dropWhile Str.isWord r1) with
              | String "="%char r4 =>
                  let r5 := Str.dropWhile Str.isSpace r4 in
                  let r6 := match r5 with
                            | String q r' => if isQuote q then r' else r5
                            | EmptyString => r5
                            end in
                  let v := Str.takeWhile Str.isWord r6 in
                  if Str.isEmpty v then None
                  else Some {| field := f; value := v |}
              | _ => None
              end
          else None
      | EmptyString => None
      end
  end.

(** [msg.match(pattern)]: the leftmost match. *)
Fixpoint matchFilter (s : string) : option Filter :=
  match matchFilterAt s with
  | Some m => Some m
  | None =>
      match s with
      | EmptyString => None
      | String _ s' => matchFilter s'
      end
  end.

(** *** [generateChartConfig] *)

Definition detectChartType (msg : string) : ChartType :=
  let chartType := Line in
  let chartType := if Str.includes msg "bar" then Bar else chartType in
  let chartType := if Str.includes msg "pie" || Str.includes msg "donut" then Pie else chartType in
  let chartType := if Str.includes msg "scatter" || Str.includes msg "point" then Scatter else chartType in
  chartType.

Definition detectGroupBy (msg : string) : option GroupBy :=
  let groupBy := None in
  let groupBy := if Str.includes msg "by month" then Some Month else groupBy in
  let groupBy := if Str.includes msg "by week" then Some Week else groupBy in
  let groupBy := if Str.includes msg "by day" then Some Day else groupBy in
  let groupBy := if Str.includes msg "by year" then Some Year else groupBy in
  groupBy.

Definition detectAggregate (msg : string) : Aggregate :=
  let aggregate := Sum in
  let aggregate :=
    if Str.includes msg "average" || Str.includes msg "avg" || Str.includes msg "mean"
    then Average else aggregate in
  let aggregate := if Str.includes msg "count" then Count else aggregate in
  let aggregate := if Str.includes msg "max" then Max else aggregate in
  let aggregate := if Str.includes msg "min" then Min else aggregate in
  aggregate.

Definition detectColor (msg : string) : string :=
  let color := "#3b82f6" in
  let color := if Str.includes msg "red" then "#ef4444" else color in
  let color := if Str.includes msg "green" then "#22c55e" else color in
  let color := if Str.includes msg "purple" then "#8b5cf6" else color in
  let color := if Str.includes msg "orange" then "#f97316" else color in
  let color := if Str.includes msg "pink" then "#ec4899" else color in
  color.

(** [schema.find(p)?.name] *)
Definition findName (p : SchemaField -> bool) (schema : list SchemaField) : option string :=
  option_map name (find p schema).

(** [schema[i]?.name] *)
Definition nthName (i : nat) (schema : list SchemaField) : option string :=
  option_map name (nth_error schema i).

Definition generateChartConfig (schema : option (list SchemaField)) (userMessage : string)
  : Completion ChartConfig :=
  match schema with
  | None => Throw (ErrorMsg "No schema available")
  | Some schema =>
      let msg := Str.toLowerCase userMessage in
      let chartType := detectChartType msg in
      let '(xField, yField) := detectFields msg schema in
      let xField :=
        if falsy xField then
          let dateField := findName (fun f => FieldType_eqb (type f) TDate) schema in
          let stringField := findName (fun f => FieldType_eqb (type f) TString) schema in
          Some (orElse dateField (orElse stringField (orElse (nthName 0 schema) "")))
        else xField in
      let yField :=
        if falsy yField then
          let numberField := findName (fun f => isYType (type f)) schema in
          Some (orElse numberField (orElse (nthName 1 schema) ""))
        else yField in
      let groupBy := detectGroupBy msg in
      let filter := matchFilter msg in
      let aggregate := detectAggregate msg in
      let color := detectColor msg in
      Normal {|
        chartType := chartType;
        xField := orElse xField "";
        yField := orElse yField "";
        labelField := match chartType with Pie => xField | _ => None end;
        groupBy := groupBy;
        filter := filter;
        aggregate := aggregate;
        color := color;
        title := orElse yField "Value" ++ " by " ++ orElse xField "Category"
      |}
  end.

(** *** [handleSubmit] *)

Inductive Role : Type := User | Assistant.

(** The text of a message.  The two assistant templates are kept symbolic:
    the summary of a configuration, and the request to rephrase. *)
Inductive Content : Type :=
| Plain (text : string)
| ChartSummary (config : ChartConfig)
| RephraseRequest.

Record Message : Type := { role : Role; content : Content }.

(** The props and the state that [handleSubmit] reads and writes. *)
Record ChatProps : Type := {
  schema : option (list SchemaField);
  disabled : bool
}.

Record ChatState : Type := {
  messages : list Message;
  input : string;
  isLoading : bool
}.

(** One run of [handleSubmit]: the state it leaves and the configuration it
    hands to [onChartGenerated], if it calls it.  The cosmetic delay is not
    modelled. *)
Definition handleSubmit (props : ChatProps) (st : ChatState) : ChatState * option ChartConfig :=
  if Str.isEmpty (Str.trim (input st)) || isLoading st || disabled props then (st, None)
  else
    let userMessage := Str.trim (input st) in
    let messages1 := (messages st ++ [ {| role := User; content := Plain userMessage |} ])%list in
    match generateChartConfig (schema props) userMessage with
    | Normal config =>
        ({| messages := (messages1 ++ [ {| role := Assistant; content := ChartSummary config |} ])%list;
            input := "";
            isLoading := false |},
         Some config)
    | Throw _ =>
        ({| messages := (messages1 ++ [ {| role := Assistant; content := RephraseRequest |} ])%list;
            input := "";
            isLoading := false |},
         None)
    end.

(** ** The data transformer (ChartPreview.tsx) *)

Record TransformedData : Type := { labels : list string; values : list float }.

(** A bucket under construction: [groups: Record<string, DataRow[]>]. *)
Definition Groups : Type := list (string * list DataRow).

(** An aggregated bucket: [{ label: key, value }]. *)
Record Point : Type := { label : string; pointValue : float }.

(** [Array.prototype.sort] with a comparator: a stable insertion sort. *)
Fixpoint insertSorted {A : Type} (cmp : A -> A -> comparison) (x : A) (l : list A) : list A :=
  match l with
  | [] => [x]
  | y :: l' =>
      match cmp x y with
      | Gt => y :: insertSorted cmp x l'
      | _ => x :: l
      end
  end.

Definition sortWith {A : Type} (cmp : A -> A -> comparison) (l : list A) : list A :=
  fold_right (insertSorted cmp) [] l.

(** The two statements of the grouping loop,
    [if (!groups[key]) groups[key] = []; groups[key].push(item)].
    A key that [Object.prototype] defines reads as a truthy value that is
    no array: nothing is stored, and [push] is not a function. *)
Definition pushToGroup (groups : Groups) (key : string) (item : DataRow) : Completion Groups :=
  match assoc key groups with
  | Some items => Normal (setProp key (items ++ [item])%list groups)
  | None =>
      match inherited key with
      | VUndefined => Normal (setProp key [item] groups)
      | _ => Throw (TypeError "groups[key].push is not a function")
      end
  end.

(** The grouping loop; [keyOf] is the computation of the key, which comes
    first in the body and can raise. *)
Fixpoint groupRows (keyOf : DataRow -> Completion string) (rows : list DataRow)
  (groups : Groups) : Completion Groups :=
  match rows with
  | [] => Normal groups
  | item :: rest =>
      key <- keyOf item;;
      groups' <- pushToGroup groups key item;;
      groupRows keyOf rest groups'
  end.

Section Transformer.

Context `{Host}.

(** The filter step. *)
Definition applyFilter (config : ChartConfig) (data : list DataRow)
  : Completion (list DataRow) :=
  match filter config with
  | Some f =>
      filterM
        (fun item =>
           text <- toString (getProp item (field f));;
           Normal (String.eqb (Str.toLowerCase text) (Str.toLowerCase (value f))))
        data
  | None => Normal data
  end.

Definition monthKey (t : Z) : string :=
  Str.ofZ (Date.getFullYear t) ++ "-" ++ Str.padStart0 2 (Str.ofZ (Date.getMonth t + 1)).

Definition yearKey (t : Z) : string := Str.ofZ (Date.getFullYear t).

Definition weekKey (t : Z) : string :=
  Str.ofZ (Date.getFullYear t) ++ "-W" ++ Str.ofZ (Date.weekOfMonth (Date.getDate t)).

(** The bucket key of a row. *)
Definition groupKey (config : ChartConfig) (item : DataRow) : Completion string :=
  key <- toStringOrEmpty (getProp item (xField config));;
  Normal
    match groupBy config with
    | Some Month =>
        if negb (Str.isEmpty key) then
          match Date.parse key with Some t => monthKey t | None => key end
        else key
    | Some Year =>
        if negb (Str.isEmpty key) then
          match Date.parse key with Some t => yearKey t | None => key end
        else key
    | Some Week =>
        if negb (Str.isEmpty key) then
          match Date.parse key with Some t => weekKey t | None => key end
        else key
    | _ => key
    end.

(** [items.map(i => parseFloat(String(i[config.yField])) || 0)] *)
Definition yValues (yField : string) (items : list DataRow) : Completion (list float) :=
  mapM (fun i => toNumberOrZero (getProp i yField)) items.

Definition aggregateBucket (config : ChartConfig) (entry : string * list DataRow)
  : Completion Point :=
  let '(key, items) := entry in
  values <- yValues (yField config) items;;
  let value :=
    match aggregate config with
    | Average => PrimFloat.div (Num.sum values) (Num.ofNat (List.length values))
    | Count => Num.ofNat (List.length items)
    | Max => Num.mathMax values
    | Min => Num.mathMin values
    | Sum => Num.sum values
    end in
  Normal {| label := key; pointValue := value |}.

Definition compareLabels (a b : Point) : comparison := localeCompare (label a) (label b).

(** [config.groupBy && config.xField] *)
Definition grouping (config : ChartConfig) : bool :=
  match groupBy config with
  | Some _ => negb (Str.isEmpty (xField config))
  | None => false
  end.

Definition transformData (data : option (list DataRow)) (config : option ChartConfig)
  : Completion (option TransformedData) :=
  match data, config with
  | Some data, Some config =>
      processed <- applyFilter config data;;
      if grouping config then
        groups <- groupRows (groupKey config) processed [];;
        aggregated <- mapM (aggregateBucket config) (entries groups);;
        let aggregated := sortWith compareLabels aggregated in
        Normal (Some {| labels := map label aggregated;
                        values := map pointValue aggregated |})
      else
        labels <- mapM (fun d => toStringOrEmpty (getProp d (xField config))) processed;;
        values <- mapM (fun d => toNumberOrZero (getProp d (yField config))) processed;;
        Normal (Some {| labels := labels; values := values |})
  | _, _ => Normal None
  end.

End Transformer.

(** ** The code generator (CodeGenerator.tsx)

    [generateComponentCode] returns the text of a component.  The embedding
    keeps the snippets the generator chooses between ([filterCode],
    [keyExtraction], [aggregation], [groupCode]) as constructors, each
    standing for the source text quoted beside it, and [runGenerated] gives
    that text its JavaScript meaning.  A field name is spliced in as a
    property access [d.FIELD]; the reading below is that of an
    identifier-shaped name. *)

Inductive FilterCode : Type :=
| FilterEquals (field valueLower : string)
    (* const filtered = data.filter(d =>
         String(d.FIELD).toLowerCase() === 'VALUELOWER'); *)
| FilterNone.
    (* const filtered = data; *)

Inductive KeyExtraction : Type :=
| KeyMonth (x : string)
    (* const date = new Date(d.X as string);
       return `${date.getFullYear()}-${String(date.getMonth() + 1).padStart(2, '0')}`; *)
| KeyYear (x : string)
    (* const date = new Date(d.X as string);
       return String(date.getFullYear()); *)
| KeyWeek (x : string)
    (* const date = new Date(d.X as string);
       const week = Math.ceil(date.getDate() / 7);
       return `${date.getFullYear()}-W${week}`; *)
| KeyString (x : string).
    (* return String(d.X); *)

Inductive Aggregation : Type :=
| ReduceSumOverLength   (* values.reduce((a, b) => a + b, 0) / values.length *)
| ItemsLength           (* items.length *)
| MathMaxSpread         (* Math.max(...values) *)
| MathMinSpread         (* Math.min(...values) *)
| ReduceSum.            (* values.reduce((a, b) => a + b, 0) *)

Inductive GroupCode : Type :=
| GroupAndAggregate (keyExtraction : KeyExtraction) (y : string) (aggregation : Aggregation)
| ExtractData (x y : string).

Record ComponentCode : Type := { filterCode : FilterCode; groupCode : GroupCode }.

Definition generateComponentCode (config : ChartConfig) : ComponentCode :=
  let filterCode :=
    match filter config with
    | Some f => FilterEquals (field f) (Str.toLowerCase (value f))
    | None => FilterNone
    end in
  let groupCode :=
    match groupBy config with
    | Some g =>
        let keyExtraction :=
          match g with
          | Month => KeyMonth (xField config)
          | Year => KeyYear (xField config)
          | Week => KeyWeek (xField config)
          | _ => KeyString (xField config)
          end in
        let aggregation :=
          match aggregate config with
          | Average => ReduceSumOverLength
          | Count => ItemsLength
          | Max => MathMaxSpread
          | Min => MathMinSpread
          | _ => ReduceSum
          end in
        GroupAndAggregate keyExtraction (yField config) aggregation
    | None => ExtractData (xField config) (yField config)
    end in
  {| filterCode := filterCode; groupCode := groupCode |}.

Section GeneratedComponent.

Context `{Host}.

Definition runFilter (c : FilterCode) (data : list DataRow) : Completion (list DataRow) :=
  match c with
  | FilterEquals f v =>
      filterM
        (fun d =>
           text <- toString (getProp d f);;
           Normal (String.eqb (Str.toLowerCase text) v))
        data
  | FilterNone => Normal data
  end.

(** The getters of an invalid date return NaN, which prints as ["NaN"]. *)
Definition runKeyExtraction (k : KeyExtraction) (d : DataRow) : Completion string :=
  match k with
  | KeyMonth x =>
      date <- Date.ofValue (getProp d x);;
      Normal match date with
             | Some t => monthKey t
             | None => "NaN-NaN"
             end
  | KeyYear x =>
      date <- Date.ofValue (getProp d x);;
      Normal match date with
             | Some t => yearKey t
             | None => "NaN"
             end
  | KeyWeek x =>
      date <- Date.ofValue (getProp d x);;
      Normal match date with
             | Some t => weekKey t
             | None => "NaN-WNaN"
             end
  | KeyString x => toString (getProp d x)
  end.

Definition runAggregation (a : Aggregation) (y : string) (entry : string * list DataRow)
  : Completion Point :=
  let '(key, items) := entry in
  values <- yValues y items;;
  let value :=
    match a with
    | ReduceSumOverLength => PrimFloat.div (Num.sum values) (Num.ofNat (List.length values))
    | ItemsLength => Num.ofNat (List.length items)
    | MathMaxSpread => Num.mathMax values
    | MathMinSpread => Num.mathMin values
    | ReduceSum => Num.sum values
    end in
  Normal {| label := key; pointValue := value |}.

(** The [labels] and [values] the emitted component computes from its
    [data] prop; [None] when it renders "No data available" instead. *)
Definition runGenerated (code : ComponentCode) (data : option (list DataRow))
  : Completion (option TransformedData) :=
  match data with
  | None | Some [] => Normal None
  | Some data =>
      filtered <- runFilter (filterCode code) data;;
      match groupCode code with
      | GroupAndAggregate k y a =>
          groups <- groupRows (runKeyExtraction k) filtered [];;
          aggregated <- mapM (runAggregation a y) (entries groups);;
          let aggregated := sortWith compareLabels aggregated in
          Normal (Some {| labels := map label aggregated;
                          values := map pointValue aggregated |})
      | ExtractData x y =>
          labels <- mapM (fun d => toString (getProp d x)) filtered;;
          values <- mapM (fun d => toNumberOrZero (getProp d y)) filtered;;
          Normal (Some {| labels := labels; values := values |})
      end
  end.

End GeneratedComponent.

(** ** The schema inferencer (JsonUploader.tsx) *)

(** [/^\d{4}-\d{2}-\d{2}/.test(s)] *)
Definition hasDatePrefix (s : string) : bool :=
  Date.allDigits 4 (Str.take 4 s)
  && Str.startsWith (Str.drop 4 s) "-"
  && Date.allDigits 2 (Str.take 2 (Str.drop 5 s))
  && Str.startsWith (Str.drop 7 s) "-"
  && Date.allDigits 2 (Str.take 2 (Str.drop 8 s)).

(** [inferType] on a parsed JSON value; the last branch of the source,
    ['unknown'], needs a value JSON cannot produce. *)
Definition inferType (value : JVal) : FieldType :=
  match value with
  | JNull => TNull
  | JArr _ => TArray
  | JNum _ => TNumber
  | JBool _ => TBoolean
  | JStr s =>
      if hasDatePrefix s then TDate
      else if negb (Num.stringToNumberIsNaN s) && negb (Str.isEmpty (Str.trim s))
           then TNumberString
      else TString
  | JObj _ => TObject
  end.

(** What [fields[key]] and [sampleValues[key]] hold for one key; the two
    sets keep insertion order. *)
Record FieldInfo : Type := {
  infoTypes : list FieldType;
  infoCount : nat;
  infoSamples : list string
}.

Definition setAdd {A : Type} (eqb : A -> A -> bool) (x : A) (s : list A) : list A :=
  if existsb (eqb x) s then s else (s ++ [x])%list.

Fixpoint indexed (i : nat) (items : list JVal) : list (string * JVal) :=
  match items with
  | [] => []
  | v :: rest => (Str.ofNat i, v) :: indexed (S i) rest
  end.

(** [Object.entries(item)] for a row that passes
    [typeof item === 'object' && item !== null]; [None] for a row that is
    skipped. *)
Definition itemEntries (item : JVal) : option (list (string * JVal)) :=
  match item with
  | JObj props => Some (entries props)
  | JArr items => Some (indexed 0 items)
  | _ => None
  end.

(** The body of the inner [forEach] for one entry.  The record of the key
    is looked up or created; its type set and count are updated, which
    raises for a key that [Object.prototype] defines; then, while fewer
    than five samples are held, a value that is not [null] is stringified,
    which raises when [String(value)] does. *)
Definition recordEntry (fields : list (string * FieldInfo)) (entry : string * JVal)
  : Completion (list (string * FieldInfo)) :=
  let '(key, value) := entry in
  let type := inferType value in
  let update (info : FieldInfo) : Completion FieldInfo :=
    samples <-
      (if (List.length (infoSamples info) <? 5)%nat
          && match value with JNull => false | _ => true end
       then text <- jsonToString value;;
            Normal (setAdd String.eqb (Str.take 50 text) (infoSamples info))
       else Normal (infoSamples info));;
    Normal {| infoTypes := setAdd FieldType_eqb type (infoTypes info);
              infoCount := S (infoCount info);
              infoSamples := samples |} in
  match assoc key fields with
  | Some info =>
      info' <- update info;;
      Normal (setProp key info' fields)
  | None =>
      match inherited key with
      | VUndefined =>
          info' <- update {| infoTypes := []; infoCount := 0; infoSamples := [] |};;
          Normal (setProp key info' fields)
      | _ => Throw (TypeError "Cannot read properties of undefined (reading 'add')")
      end
  end.

Fixpoint recordEntries (fields : list (string * FieldInfo)) (es : list (string * JVal))
  : Completion (list (string * FieldInfo)) :=
  match es with
  | [] => Normal fields
  | e :: rest =>
      match recordEntry fields e with
      | Normal fields' => recordEntries fields' rest
      | Throw err => Throw err
      end
  end.

(** The outer [data.forEach]. *)
Fixpoint recordItems (fields : list (string * FieldInfo)) (data : list JVal)
  : Completion (list (string * FieldInfo)) :=
  match data with
  | [] => Normal fields
  | item :: rest =>
      match itemEntries item with
      | None => recordItems fields rest
      | Some es =>
          match recordEntries fields es with
          | Normal fields' => recordItems fields' rest
          | Throw err => Throw err
          end
      end
  end.

(** [Math.round((count / total) * 100)] *)
Definition coverageOf (count total : nat) : float :=
  Num.mathRound
    (PrimFloat.mul (PrimFloat.div (Num.ofNat count) (Num.ofNat total)) (Num.ofNat 100)).

Definition toSchemaField (total : nat) (entry : string * FieldInfo) : SchemaField :=
  let '(name, info) := entry in
  {| name := name;
     type := match infoTypes info with [t] => t | _ => TMixed end;
     types := infoTypes info;
     coverage := coverageOf (infoCount info) total;
     samples := infoSamples info |}.

Inductive AnalysisResult : Type :=
| AnalysisError (error : string)
| Analysis (schema : list SchemaField) (rowCount : nat).

Definition analyzeSchema (data : list JVal) : Completion AnalysisResult :=
  match data with
  | [] => Normal (AnalysisError "Data must be a non-empty array of objects")
  | _ :: _ =>
      match recordItems [] data with
      | Throw err => Throw err
      | Normal fields =>
          Normal (Analysis (map (toSchemaField (List.length data)) (entries fields))
                           (List.length data))
      end
  end.

(** ** Notions the statements use *)

(** The row is one whose entries the inferencer reads, and [key] is among
    them. *)
Definition containsKey (key : string) (item : JVal) : bool :=
  match itemEntries item with
  | Some es => existsb (String.eqb key) (keys es)
  | None => false
  end.

(** The number of rows that contain [key]. *)
Definition rowsContaining (key : string) (data : list JVal) : nat :=
  List.length (List.filter (containsKey key) data).

(** A parsed object has each key once, at every depth that matters here:
    the rows themselves. *)
Definition wellFormedItem (item : JVal) : Prop :=
  match item with
  | JObj props => NoDup (keys props)
  | _ => True
  end.

(** The mentioned fields, as the resolver looks for them in schema order. *)
Definition firstMentionedX (msg : string) (schema : list SchemaField) : option SchemaField :=
  find (fun f => mentioned msg f && isXType (type f)) schema.

Definition lastMentionedY (msg : string) (schema : list SchemaField) : option SchemaField :=
  find (fun f => mentioned msg f && isYType (type f)) (List.rev schema).

(** The first mentioned date or string field whose name is not empty. *)
Definition firstNamedX (msg : string) (schema : list SchemaField) : option SchemaField :=
  find (fun f => mentioned msg f && isXType (type f) && negb (Str.isEmpty (name f))) schema.

(** The type-based fallback of the x-field: first date field, else first
    string field, else the first field. *)
Definition fallbackX (schema : list SchemaField) : string :=
  match find (fun f => FieldType_eqb (type f) TDate) schema with
  | Some f => name f
  | None =>
      match find (fun f => FieldType_eqb (type f) TString) schema with
      | Some f => name f
      | None => match schema with f :: _ => name f | [] => "" end
      end
  end.

(** The chain [dateField?.name || stringField?.name || schema[0]?.name || '']. *)
Definition fallbackChain (schema : list SchemaField) : string :=
  orElse (findName (fun f => FieldType_eqb (type f) TDate) schema)
    (orElse (findName (fun f => FieldType_eqb (type f) TString) schema)
       (orElse (nthName 0 schema) "")).

(** The count the inferencer holds for a key, 0 for a key it has not seen. *)
Definition countOf (key : string) (fields : list (string * FieldInfo)) : nat :=
  match assoc key fields with
  | Some info => infoCount info
  | None => 0%nat
  end.

(** The filter condition on one row, which the stringification of the
    row's value can keep from being decided. *)
Definition matchesFilter `{Host} (f : Filter) (item : DataRow) : Completion bool :=
  text <- toString (getProp item (field f));;
  Normal (String.eqb (Str.toLowerCase text) (Str.toLowerCase (value f))).

Definition withoutFilter (config : ChartConfig) : ChartConfig :=
  {| chartType := chartType config;
     xField := xField config;
     yField := yField config;
     labelField := labelField config;
     groupBy := groupBy config;
     filter := None;
     aggregate := aggregate config;
     color := color config;
     title := title config |}.

(** A value that [String] turns into a string: no object with an own
    property named [toString], and no array that holds one. *)
Fixpoint printable (v : JVal) : bool :=
  match v with
  | JArr items => forallb printable items
  | JObj props => negb (existsb (String.eqb "toString") (keys props))
  | _ => true
  end.

(** What reading a property of a row gives is such a value. *)
Definition printableValue (v : Value) : bool :=
  match v with
  | VJson j => printable j
  | _ => true
  end.

(** The answer of a test that returns; a test that raises has none. *)
Definition holds (c : Completion bool) : bool :=
  match c with
  | Normal b => b
  | Throw _ => false
  end.

(** The row passes the filter: [String] returns on the value of its filter
    field, and the lower-cased string is the lower-cased filter value. *)
Definition keptByFilter `{Host} (f : Filter) (item : DataRow) : bool :=
  holds (matchesFilter f item).


(** ** Hosts and data of the examples *)

Definition nativeCodeText (fname : string) : string :=
  "function " ++ fname ++ "() { [native code] }".

(** A host in the UTC time zone that collates by code unit and parses
    nothing beyond the date-only forms. *)
Definition utcHost : Host :=
  {| localeCompare := String.compare;
     dateParseFallback := fun _ => None;
     localTZA := fun _ => 0;
     nativeFunctionText := nativeCodeText |}.

(** The same host five hours west of UTC. *)
Definition westHost : Host :=
  {| localeCompare := String.compare;
     dateParseFallback := fun _ => None;
     localTZA := fun _ => -18000000;
     nativeFunctionText := nativeCodeText |}.

(** A field of one type that every row has. *)
Definition sampleField (n : string) (t : FieldType) (ss : list string) : SchemaField :=
  {| name := n; type := t; types := [t]; coverage := Num.ofZ 100; samples := ss |}.

(** The three rows of the month example. *)
Definition revenueRows : list DataRow :=
  [ [ ("date", JStr "2024-01-01"); ("revenue", JNum (Num.ofZ 10)) ];
    [ ("date", JStr "2024-01-15"); ("revenue", JNum (Num.ofZ 20)) ];
    [ ("date", JStr "2024-02-01"); ("revenue", JNum (Num.ofZ 5)) ] ].

(** Their schema, [date: date, revenue: number]. *)
Definition revenueSchema : list SchemaField :=
  [ sampleField "date" TDate [ "2024-01-01"; "2024-01-15"; "2024-02-01" ];
    sampleField "revenue" TNumber [ "10"; "20"; "5" ] ].

Definition monthConfig : ChartConfig :=
  {| chartType := Bar;
     xField := "date";
     yField := "revenue";
     labelField := None;
     groupBy := Some Month;
     filter := None;
     aggregate := Sum;
     color := "#3b82f6";
     title := "revenue by date" |}.

(** A line chart of [revenue] over [date], ungrouped and unfiltered. *)
Definition plainConfig : ChartConfig :=
  {| chartType := Line;
     xField := "date";
     yField := "revenue";
     labelField := None;
     groupBy := None;
     filter := None;
     aggregate := Sum;
     color := "#3b82f6";
     title := "revenue by date" |}.

(** Two rows, the second without a [date]. *)
Definition raggedRows : list DataRow :=
  [ [ ("date", JStr "2024-01-01"); ("revenue", JNum (Num.ofZ 5)) ];
    [ ("revenue", JNum (Num.ofZ 10)) ] ].

(** A row whose category is the word [constructor], charted by day. *)
Definition constructorRows : list DataRow :=
  [ [ ("name", JStr "constructor"); ("v", JNum (Num.ofZ 1)) ] ].

Definition constructorSchema : list SchemaField :=
  [ sampleField "name" TString [ "constructor" ]; sampleField "v" TNumber [ "1" ] ].

Definition byDayConfig : ChartConfig :=
  {| chartType := Line;
     xField := "name";
     yField := "v";
     labelField := None;
     groupBy := Some Day;
     filter := None;
     aggregate := Sum;
     color := "#3b82f6";
     title := "v by name" |}.

(** A filter on [status] whose expected value is the word [undefined]. *)
Definition undefinedFilterConfig : ChartConfig :=
  {| chartType := Line;
     xField := "date";
     yField := "revenue";
     labelField := None;
     groupBy := None;
     filter := Some {| field := "status"; value := "undefined" |};
     aggregate := Sum;
     color := "#3b82f6";
     title := "revenue by date" |}.

(** Uploads with the empty string as a key, and their schemas. *)
Definition emptyKeyFirstUpload : list JVal :=
  [ JObj [ ("", JStr "n/a"); ("city", JStr "Oslo") ] ].

Definition emptyNameFirst : list SchemaField :=
  [ sampleField "" TString [ "n/a" ]; sampleField "city" TString [ "Oslo" ] ].

Definition emptyKeyLastUpload : list JVal :=
  [ JObj [ ("rev", JNum (Num.ofZ 5)); ("", JNum (Num.ofZ 7)) ] ].

Definition emptyNameLast : list SchemaField :=
  [ sampleField "rev" TNumber [ "5" ]; sampleField "" TNumber [ "7" ] ].

Definition emptyKeyOnlyUpload : list JVal := [ JObj [ ("", JNum (Num.ofZ 7)) ] ].

Definition emptyNameOnly : list SchemaField := [ sampleField "" TNumber [ "7" ] ].

(** An upload of numbers: no row is an object. *)
Definition numbersUpload : list JVal :=
  [ JNum (Num.ofZ 1); JNum (Num.ofZ 2); JNum (Num.ofZ 3) ].

(** Five uploaded rows, two of which are no objects. *)
Definition mixedUpload : list JVal :=
  [ JObj [ ("a", JNum (Num.ofZ 1)) ];
    JNum (Num.ofZ 5);
    JObj [ ("a", JNum (Num.ofZ 2)); ("b", JStr "x") ];
    JNull;
    JObj [ ("a", JNum (Num.ofZ 3)) ] ].

(** ** Notions of the further properties *)

(** What one value does to the record its key has: the body of the inner
    loop of the inferencer, after the record is looked up or created. *)
Definition updateInfo (value : JVal) (info : FieldInfo) : Completion FieldInfo :=
  samples <-
    (if (List.length (infoSamples info) <? 5)%nat
        && match value with JNull => false | _ => true end
     then text <- jsonToString value;;
          Normal (setAdd String.eqb (Str.take 50 text) (infoSamples info))
     else Normal (infoSamples info));;
  Normal {| infoTypes := setAdd FieldType_eqb (inferType value) (infoTypes info);
            infoCount := S (infoCount info);
            infoSamples := samples |}.

Definition emptyInfo : FieldInfo :=
  {| infoTypes := []; infoCount := 0; infoSamples := [] |}.

(** The record of a key, the fresh one for a key not yet seen. *)
Definition infoOf (key : string) (fields : list (string * FieldInfo)) : FieldInfo :=
  match assoc key fields with
  | Some info => info
  | None => emptyInfo
  end.

(** The record after a run of values. *)
Fixpoint foldInfo (vs : list JVal) (info : FieldInfo) : Completion FieldInfo :=
  match vs with
  | [] => Normal info
  | v :: rest => info' <- updateInfo v info;; foldInfo rest info'
  end.

(** The values a list of entries holds under a key, in order. *)
Definition valuesIn (key : string) (es : list (string * JVal)) : list JVal :=
  map snd (List.filter (fun e => String.eqb (fst e) key) es).

(** The values the upload holds under a key, in the order the inferencer
    meets them. *)
Definition valuesOf (key : string) (data : list JVal) : list JVal :=
  flat_map (fun item => match itemEntries item with
                        | Some es => valuesIn key es
                        | None => []
                        end) data.

(** The keys of the upload, in the order the inferencer meets them. *)
Definition allKeys (data : list JVal) : list string :=
  flat_map (fun item => match itemEntries item with
                        | Some es => keys es
                        | None => []
                        end) data.

(** A list of keys without its repetitions, each key where it is first. *)
Definition addKey (seen : list string) (k : string) : list string :=
  if existsb (String.eqb k) seen then seen else (seen ++ [k])%list.

Definition firstSeen (ks : list string) : list string := fold_left addKey ks [].

(** [typeof item === 'object' && item !== null] *)
Definition isObjectLike (item : JVal) : bool :=
  match item with
  | JObj _ | JArr _ => true
  | _ => false
  end.

(** A schema field without its coverage. *)
Definition describe (f : SchemaField) : string * FieldType * list FieldType * list string :=
  (name f, type f, types f, samples f).


(** An upload in which [a] is a number in one row and a string in
    another, with long and repeated values, and its schema. *)
Definition mixedTypesUpload : list JVal :=
  [ JObj [ ("a", JNum (Num.ofZ 1)); ("b", JStr "x") ];
    JObj [ ("a", JStr "one"); ("b", JStr "x") ];
    JStr "not a row";
    JObj [ ("a", JNull) ] ].

Definition mixedTypesSchema : list SchemaField :=
  [ {| name := "a"; type := TMixed; types := [ TNumber; TString; TNull ];
       coverage := Num.ofZ 75; samples := [ "1"; "one" ] |};
    {| name := "b"; type := TString; types := [ TString ];
       coverage := Num.ofZ 50; samples := [ "x" ] |} ].


(** An upload whose first row has the keys [b] and [a] and whose second
    row has the keys [10] and [2], and its schema. *)
Definition indexKeysUpload : list JVal :=
  [ JObj [ ("b", JBool true); ("a", JBool false) ];
    JObj [ ("10", JNum (Num.ofZ 1)); ("2", JNum (Num.ofZ 2)) ] ].

Definition halfField (n : string) (t : FieldType) (ss : list string) : SchemaField :=
  {| name := n; type := t; types := [t]; coverage := Num.ofZ 50; samples := ss |}.

Definition indexKeysSchema : list SchemaField :=
  [ halfField "2" TNumber [ "2" ]; halfField "10" TNumber [ "1" ];
    halfField "b" TBoolean [ "true" ]; halfField "a" TBoolean [ "false" ] ].


(** A character of [\w] that is no upper-case letter: [a-z0-9_]. *)
Definition isLowerWordChar (c : ascii) : bool := Str.isWord c && negb (Str.isUpper c).

(** A non-empty string of such characters. *)
Definition isLowerWord (s : string) : bool :=
  negb (Str.isEmpty s) && Str.forallb isLowerWordChar s.

(** Rows whose keys are capitalised, and the schema of their upload. *)
Definition capitalisedRows : list DataRow :=
  [ [ ("Status", JStr "active"); ("Amount", JNum (Num.ofZ 3)) ];
    [ ("Status", JStr "closed"); ("Amount", JNum (Num.ofZ 4)) ] ].

Definition capitalisedSchema : list SchemaField :=
  [ sampleField "Status" TString [ "active"; "closed" ];
    sampleField "Amount" TNumber [ "3"; "4" ] ].

Definition statusFilterConfig : ChartConfig :=
  {| chartType := Line;
     xField := "Status";
     yField := "Amount";
     labelField := None;
     groupBy := None;
     filter := Some {| field := "status"; value := "active" |};
     aggregate := Sum;
     color := "#3b82f6";
     title := "Amount by Status" |}.

(** The rows of a bucket under construction; a key without a bucket has
    none. *)
Definition bucketOf (k : string) (groups : Groups) : list DataRow :=
  match assoc k groups with
  | Some items => items
  | None => []
  end.

(** The bucket key of the row is [l]. *)
Definition hasKey `{Host} (config : ChartConfig) (l : string) (item : DataRow) : bool :=
  match groupKey config item with
  | Normal k => String.eqb k l
  | Throw _ => false
  end.

(** The rows among [rows] whose bucket key is [l], in their order. *)
Definition bucketRows `{Host} (config : ChartConfig) (rows : list DataRow) (l : string)
  : list DataRow :=
  List.filter (hasKey config l) rows.

(** [a] is not after [b] in the host's collation. *)
Definition notAfter `{Host} (a b : string) : Prop := localeCompare a b <> Gt.

(** Rows numbered by day of the month, and a configuration that buckets
    them by that number. *)
Definition numberedDayRows : list DataRow :=
  [ [ ("day", JNum (Num.ofZ 9)); ("n", JNum (Num.ofZ 1)) ];
    [ ("day", JNum (Num.ofZ 10)); ("n", JNum (Num.ofZ 2)) ];
    [ ("day", JNum (Num.ofZ 9)); ("n", JNum (Num.ofZ 4)) ] ].

Definition numberedDayConfig : ChartConfig :=
  {| chartType := Bar; xField := "day"; yField := "n"; labelField := None;
     groupBy := Some Day; filter := None; aggregate := Sum;
     color := "#3b82f6"; title := "n by day" |}.

(** The year, month and day that a date-only string names: the numbers
    [parseDateOnly] reads before it computes the time value.  A missing
    month or day is the first. *)
Definition dateOnlyFields (s : string) : option (Z * Z * Z) :=
  let y := Str.take 4 s in
  let r := Str.drop 4 s in
  if negb (Date.allDigits 4 y) then None
  else
    let yv := Str.digitsValue 0 y in
    match r with
    | EmptyString => Some (yv, 1, 1)
    | String "-"%char r1 =>
        let m := Str.take 2 r1 in
        let r2 := Str.drop 2 r1 in
        let mv := Str.digitsValue 0 m in
        if negb (Date.allDigits 2 m && (1 <=? mv) && (mv <=? 12)) then None
        else
          match r2 with
          | EmptyString => Some (yv, mv, 1)
          | String "-"%char r3 =>
              let dv := Str.digitsValue 0 r3 in
              if Date.allDigits 2 r3 && (1 <=? dv) && (dv <=? Date.daysInMonth yv mv)
              then Some (yv, mv, dv)
              else None
          | _ => None
          end
    | _ => None
    end.

(** The month before month [m] of year [y]. *)
Definition previousMonth (y m : Z) : Z * Z :=
  if m =? 1 then (y - 1, 12) else (y, m - 1).

(** Length of the month that is [mp] months after March. *)
Definition monthLength (mp : Z) : Z :=
  if mp =? 11 then 29
  else if (mp =? 1) || (mp =? 3) || (mp =? 6) || (mp =? 8) then 30 else 31.

(** A request for monthly, yearly and weekly buckets of a [date] field. *)
Definition dateConfig (g : GroupBy) : ChartConfig :=
  {| chartType := Bar; xField := "date"; yField := "revenue"; labelField := None;
     groupBy := Some g; filter := None; aggregate := Sum;
     color := "#3b82f6"; title := "revenue by date" |}.

(** An ASCII identifier name: what may follow the dot of a property
    access [d.NAME]. *)
Definition isIdentifierStart (c : ascii) : bool :=
  (Str.isWord c && negb (Str.isDigit c)) || Ascii.eqb c "$"%char.

Definition isIdentifierPart (c : ascii) : bool :=
  Str.isWord c || Ascii.eqb c "$"%char.

Definition isIdentifier (s : string) : bool :=
  match s with
  | EmptyString => false
  | String c r => isIdentifierStart c && Str.forallb isIdentifierPart r
  end.




(** [title.replace(/[^a-zA-Z0-9]/g, '')] *)
Definition isAlphanumeric (c : ascii) : bool :=
  Str.isDigit c || Str.isUpper c || Str.isLower c.

Fixpoint keepChars (p : ascii -> bool) (s : string) : string :=
  match s with
  | EmptyString => EmptyString
  | String c s' => if p c then String c (keepChars p s') else keepChars p s'
  end.

(** The name of the emitted component, of its props interface and of the
    downloaded file (CodeGenerator.tsx):
    [config.title
       ? config.title.replace(/[^a-zA-Z0-9]/g, '').replace(/^\d+/, '') + 'Chart'
       : 'GeneratedChart'] *)
Definition componentName (config : ChartConfig) : string :=
  if Str.isEmpty (title config) then "GeneratedChart"
  else Str.dropWhile Str.isDigit (keepChars isAlphanumeric (title config)) ++ "Chart".

Definition isLetter (c : ascii) : bool := Str.isUpper c || Str.isLower c.

(** [s.endsWith(suffix)] *)
Definition endsWith (s suffix : string) : bool :=
  Str.startsWith (Str.rev s) (Str.rev suffix).

(** ** The uploader (JsonUploader.tsx) and the application (App.tsx)

    The state of the three components that hold state and the handlers that
    change it.  A handler is a function on the state it writes; what it
    passes to a callback is returned beside the state. *)

(** [e.message] *)
Definition errorMessage (e : JsError) : string :=
  match e with
  | ErrorMsg msg => msg
  | TypeError what => what
  end.

(** [error], [schema] and [rowCount] of [JsonUploader]. *)
Record UploaderState : Type := {
  uploadError : option string;
  uploadSchema : option (list SchemaField);
  uploadRowCount : nat
}.

Definition initialUploader : UploaderState :=
  {| uploadError := None; uploadSchema := None; uploadRowCount := 0 |}.

(** [setError(message)] alone. *)
Definition failed (st : UploaderState) (message : string) : UploaderState :=
  {| uploadError := Some message;
     uploadSchema := uploadSchema st;
     uploadRowCount := uploadRowCount st |}.

(** [Array.isArray(parsed) ? parsed : [parsed]] *)
Definition rowsOf (parsed : JVal) : list JVal :=
  match parsed with
  | JArr items => items
  | _ => [parsed]
  end.

Section Uploader.

(** [JSON.parse]: the value that a text denotes, or the error raised. *)
Variable jsonParse : string -> Completion JVal.

(** [processJson]: the state it leaves, and the arguments of
    [onDataLoaded] when it calls it. *)
Definition processJson (text : string) (st : UploaderState)
  : UploaderState * option (list JVal * list SchemaField) :=
  match jsonParse text with
  | Throw e => (failed st ("Invalid JSON: " ++ errorMessage e), None)
  | Normal parsed =>
      let data := rowsOf parsed in
      match analyzeSchema data with
      | Throw e => (failed st ("Invalid JSON: " ++ errorMessage e), None)
      | Normal (AnalysisError error) =>
          (failed st (if Str.isEmpty error then "Failed to analyze schema" else error), None)
      | Normal (Analysis schema rowCount) =>
          ({| uploadError := None;
              uploadSchema := Some schema;
              uploadRowCount := rowCount |},
           Some (data, schema))
      end
  end.

(** [handlePaste]: blank text is not processed. *)
Definition handlePaste (text : string) (st : UploaderState)
  : UploaderState * option (list JVal * list SchemaField) :=
  if Str.isEmpty (Str.trim text) then (st, None) else processJson text st.

End Uploader.

Definition handleReset (st : UploaderState) : UploaderState := initialUploader.

(** [data], [schema] and [chartConfig] of [App]. *)
Record AppState : Type := {
  appData : option (list JVal);
  appSchema : option (list SchemaField);
  chartConfig : option ChartConfig
}.

Definition initialApp : AppState :=
  {| appData := None; appSchema := None; chartConfig := None |}.

Definition handleDataLoaded (loadedData : list JVal) (loadedSchema : list SchemaField)
  (st : AppState) : AppState :=
  {| appData := Some loadedData; appSchema := Some loadedSchema; chartConfig := None |}.

Definition handleChartGenerated (config : ChartConfig) (st : AppState) : AppState :=
  {| appData := appData st; appSchema := appSchema st; chartConfig := Some config |}.

(** The props [App] gives to [Chat]: [schema={schema}], [disabled={!data}]. *)
Definition chatProps (st : AppState) : ChatProps :=
  {| schema := appSchema st;
     disabled := match appData st with Some _ => false | None => true end |}.

Definition initialChat : ChatState :=
  {| messages := []; input := ""; isLoading := false |}.

Fixpoint joinWith (sep : string) (l : list string) : string :=
  match l with
  | [] => ""
  | [s] => s
  | s :: rest => s ++ sep ++ joinWith sep rest
  end.

Definition lineFeed : string := String (ascii_of_nat 10) "".
Definition doubleQuote : string := String (ascii_of_nat 34) "".

(** The text of the first message of the assistant; the list of field
    names stands between two pairs of asterisks. *)
Definition greetingHead : string := "I can see your data has these fields: ".

Definition greetingTail : string :=
  "." ++ lineFeed ++ lineFeed
  ++ "Describe the chart you want to create. For example:" ++ lineFeed
  ++ "- " ++ doubleQuote ++ "Line chart showing value over time" ++ doubleQuote ++ lineFeed
  ++ "- " ++ doubleQuote ++ "Bar chart comparing categories" ++ doubleQuote ++ lineFeed
  ++ "- " ++ doubleQuote ++ "Pie chart of status distribution" ++ doubleQuote.

Definition greetingText (schema : list SchemaField) : string :=
  greetingHead ++ "**" ++ joinWith ", " (map name schema) ++ "**" ++ greetingTail.

(** The first message of the assistant. *)
Definition greeting (schema : list SchemaField) : Message :=
  {| role := Assistant; content := Plain (greetingText schema) |}.

(** The effect of [Chat] on [schema] and [messages.length]: a non-empty
    schema opens an empty conversation. *)
Definition greet (schema : option (list SchemaField)) (st : ChatState) : ChatState :=
  match schema, messages st with
  | Some (f :: fields), [] =>
      {| messages := [ greeting (f :: fields) ]; input := input st; isLoading := isLoading st |}
  | _, _ => st
  end.

(** [setInput(e.target.value)] *)
Definition setInput (text : string) (st : ChatState) : ChatState :=
  {| messages := messages st; input := text; isLoading := isLoading st |}.

(** The page: the three states together. *)
Record Page : Type := { app : AppState; uploader : UploaderState; chat : ChatState }.

Definition initialPage : Page :=
  {| app := initialApp; uploader := initialUploader; chat := initialChat |}.

(** What the user can do: drop or select a file whose text is read, paste
    a text, press "Change data", edit the chat input, send it. *)
Inductive Event : Type :=
| FileLoaded (text : string)
| Pasted (text : string)
| ChangeData
| InputChanged (text : string)
| Submitted.

Definition deliver (loaded : option (list JVal * list SchemaField)) (st : AppState)
  : AppState :=
  match loaded with
  | Some (data, schema) => handleDataLoaded data schema st
  | None => st
  end.

Section Page.

Variable jsonParse : string -> Completion JVal.

(** One event: its handler, then the effect of [Chat]. *)
Definition step (p : Page) (e : Event) : Page :=
  let p' :=
    match e with
    | FileLoaded text =>
        let '(u, loaded) := processJson jsonParse text (uploader p) in
        {| app := deliver loaded (app p); uploader := u; chat := chat p |}
    | Pasted text =>
        let '(u, loaded) := handlePaste jsonParse text (uploader p) in
        {| app := deliver loaded (app p); uploader := u; chat := chat p |}
    | ChangeData =>
        {| app := app p; uploader := handleReset (uploader p); chat := chat p |}
    | InputChanged text =>
        {| app := app p; uploader := uploader p; chat := setInput text (chat p) |}
    | Submitted =>
        let '(c, out) := handleSubmit (chatProps (app p)) (chat p) in
        {| app := match out with
                  | Some config => handleChartGenerated config (app p)
                  | None => app p
                  end;
           uploader := uploader p;
           chat := c |}
    end in
  {| app := app p'; uploader := uploader p';
     chat := greet (appSchema (app p')) (chat p') |}.

Definition run (events : list Event) : Page := fold_left step events initialPage.

End Page.

(** Some row has a key that [Object.prototype] defines. *)
Definition definedByObjectPrototype (k : string) : bool :=
  match inherited k with
  | VUndefined => false
  | _ => true
  end.

Definition hasInheritedKey (data : list JVal) : bool :=
  existsb (fun item =>
             match itemEntries item with
             | Some es => existsb definedByObjectPrototype (keys es)
             | None => false
             end) data.

(** Every value of every row that is an object or an array is one that
    [String] turns into a string. *)
Definition printableEntries (data : list JVal) : bool :=
  forallb (fun item =>
             match itemEntries item with
             | Some es => forallb (fun e => printable (snd e)) es
             | None => true
             end) data.

(** A document that parses, [[{"a": {"toString": 1}}]]. *)
Definition unprintableUpload : list JVal :=
  [ JObj [ ("a", JObj [ ("toString", JNum (Num.ofZ 1)) ]) ] ].

(** A parser that knows three texts. *)
Definition sampleParse (text : string) : Completion JVal :=
  if String.eqb text "[]" then Normal (JArr [])
  else if String.eqb text "7" then Normal (JNum (Num.ofZ 7))
  else if String.eqb text "[[1],[2]]"
       then Normal (JArr [ JArr [ JNum (Num.ofZ 1) ]; JArr [ JNum (Num.ofZ 2) ] ])
  else Throw (ErrorMsg "Unexpected token").

(** Every key on record is one that [Object.prototype] does not define. *)
Definition plainKeys (fields : list (string * FieldInfo)) : Prop :=
  forall k, In k (keys fields) -> inherited k = VUndefined.

(** What every reachable page satisfies. *)
Definition consistent (p : Page) : Prop :=
  match appData (app p), appSchema (app p) with
  | None, None => uploadSchema (uploader p) = None
  | Some d, Some s =>
      d <> []
      /\ analyzeSchema d = Normal (Analysis s (List.length d))
      /\ (forall s', uploadSchema (uploader p) = Some s' ->
                     s' = s /\ uploadRowCount (uploader p) = List.length d)
  | _, _ => False
  end
  /\ (forall m, In m (messages (chat p)) -> content m <> RephraseRequest).

(** The rows numbered by day, bucketed with the maximum as aggregate. *)
Definition numberedDayMax : ChartConfig :=
  {| chartType := Bar; xField := "day"; yField := "n"; labelField := None;
     groupBy := Some Day; filter := None; aggregate := Max;
     color := "#3b82f6"; title := "n by day" |}.

(** ** Rendering a message (Chat.tsx)

    [formatMessage] turns the text of a message into the HTML that the
    page inserts with [dangerouslySetInnerHTML]. *)

(** What [.] does not match: the line terminators (of the code units
    modelled, LF and CR). *)
Definition isLineTerminator (c : ascii) : bool :=
  Ascii.eqb c (ascii_of_nat 10) || Ascii.eqb c (ascii_of_nat 13).

Definition isStar (c : ascii) : bool := Ascii.eqb c "*"%char.

(** [(.+?)\*\*] at the head of [s]: the shortest non-empty run of
    characters, none a line terminator, that two asterisks follow; with it,
    what comes after the asterisks. *)
Fixpoint lazyUntilStars (s : string) : option (string * string) :=
  match s with
  | EmptyString => None
  | String c s' =>
      if isLineTerminator c then None
      else if Str.startsWith s' "**" then Some (String c "", Str.drop 2 s')
      else
        match lazyUntilStars s' with
        | Some (captured, rest) => Some (String c captured, rest)
        | None => None
        end
  end.

(** [s.replace(/\*\*(.+?)\*\*/g, '<strong>$1</strong>')], from left to
    right; [skip] counts the characters of the last match still to pass. *)
Fixpoint boldFrom (skip : nat) (s : string) : string :=
  match s with
  | EmptyString => EmptyString
  | String c s' =>
      match skip with
      | S k => boldFrom k s'
      | O =>
          if Str.startsWith s "**" then
            match lazyUntilStars (Str.drop 2 s) with
            | Some (captured, _) =>
                "<strong>" ++ captured ++ "</strong>"
                ++ boldFrom (String.length captured + 3) s'
            | None => String c (boldFrom 0 s')
            end
          else String c (boldFrom 0 s')
      end
  end.

(** [s.replace(/\n/g, '<br/>')] *)
Fixpoint breakLines (s : string) : string :=
  match s with
  | EmptyString => EmptyString
  | String c s' =>
      if Ascii.eqb c (ascii_of_nat 10) then "<br/>" ++ breakLines s'
      else String c (breakLines s')
  end.

Definition formatMessage (content : string) : string :=
  breakLines (boldFrom 0 content).

(** A character that neither pass touches, and one that may stand in a
    bold span. *)
Definition isOrdinary (c : ascii) : bool :=
  negb (isStar c) && negb (Ascii.eqb c (ascii_of_nat 10)).

Definition isSpanChar (c : ascii) : bool :=
  negb (isStar c) && negb (isLineTerminator c).

(** A schema with one field, whose name is markup. *)
Definition markupSchema : list SchemaField :=
  [ sampleField "<img src=x onerror=alert(1)>" TNumber [ "1" ] ].

(* ================================================================== *)
(** * Part II. Properties *)
(* ================================================================== *)

(** ** Chart-intent resolution *)

Section Resolution.

Variable msg : string.

Lemma falsy_Some_named (s : string) : Str.isEmpty s = false -> falsy (Some s) = false.
Proof. intro E. exact E. Qed.

Lemma orElse_truthy (a : option string) (b : string) (s : string) :
  a = Some s -> Str.isEmpty s = false -> orElse a b = s.
Proof. intros -> E. unfold orElse. simpl. rewrite E. reflexivity. Qed.

(** Once the x variable holds a non-empty name, no later field changes it. *)
Lemma detect_x_kept (l : list SchemaField) (x y : option string) :
  falsy x = false -> fst (fold_left (detectStep msg) l (x, y)) = x.
Proof.
  revert x y. induction l as [|a l IH]; intros x y Hx; simpl; [reflexivity|].
  destruct (mentioned msg a); [|apply IH; exact Hx].
  destruct (isXType (type a)); rewrite ?Hx; apply IH; exact Hx.
Qed.

(** While the x variable is falsy, the first mentioned date or string field
    with a non-empty name takes it. *)
Lemma detect_x_first (l : list SchemaField) (x y : option string) (f : SchemaField) :
  falsy x = true ->
  find (fun f => mentioned msg f && isXType (type f) && negb (Str.isEmpty (name f))) l = Some f ->
  fst (fold_left (detectStep msg) l (x, y)) = Some (name f).
Proof.
  revert x y. induction l as [|a l IH]; intros x y Hx Hf; simpl in *; [discriminate|].
  destruct (mentioned msg a) eqn:Hm; simpl in Hf; [|apply IH; assumption].
  destruct (isXType (type a)) eqn:Ht; simpl in Hf; [|apply IH; assumption].
  rewrite Hx.
  destruct (Str.isEmpty (name a)) eqn:He; simpl in Hf.
  - apply IH; [exact He | exact Hf].
  - injection Hf as <-. apply detect_x_kept. exact He.
Qed.

(** ... and when there is none, the x variable stays falsy. *)
Lemma detect_x_none (l : list SchemaField) (x y : option string) :
  falsy x = true ->
  find (fun f => mentioned msg f && isXType (type f) && negb (Str.isEmpty (name f))) l = None ->
  falsy (fst (fold_left (detectStep msg) l (x, y))) = true.
Proof.
  revert x y. induction l as [|a l IH]; intros x y Hx Hf; simpl in *; [exact Hx|].
  destruct (mentioned msg a) eqn:Hm; simpl in Hf; [|apply IH; assumption].
  destruct (isXType (type a)) eqn:Ht; simpl in Hf; [|apply IH; assumption].
  rewrite Hx.
  destruct (Str.isEmpty (name a)) eqn:He; simpl in Hf; [|discriminate].
  apply IH; [exact He | exact Hf].
Qed.

Lemma detect_snoc (l : list SchemaField) (a : SchemaField) (xy : option string * option string) :
  fold_left (detectStep msg) (l ++ [a]) xy = detectStep msg (fold_left (detectStep msg) l xy) a.
Proof. rewrite fold_left_app. reflexivity. Qed.

(** The y variable ends as the last mentioned numeric field. *)
Lemma detect_y_last (l : list SchemaField) (x y : option string) (f : SchemaField) :
  find (fun f => mentioned msg f && isYType (type f)) (List.rev l) = Some f ->
  snd (fold_left (detectStep msg) l (x, y)) = Some (name f).
Proof.
  induction l as [|a l IH] using rev_ind; intro Hf; simpl in Hf; [discriminate|].
  rewrite detect_snoc. rewrite rev_app_distr in Hf. simpl in Hf.
  destruct (fold_left (detectStep msg) l (x, y)) as [x' y'] eqn:E. simpl in IH.
  unfold detectStep.
  destruct (mentioned msg a); simpl in Hf.
  - destruct (isYType (type a)); simpl in Hf.
    + injection Hf as <-. destruct (isXType (type a)); reflexivity.
    + destruct (isXType (type a)); simpl; apply IH; exact Hf.
  - simpl. apply IH. exact Hf.
Qed.

End Resolution.

Lemma find_ext_in {A : Type} (p q : A -> bool) (l : list A) :
  (forall a, In a l -> p a = q a) -> find p l = find q l.
Proof.
  induction l as [|a l IH]; intro H; simpl; [reflexivity|].
  rewrite (H a (or_introl eq_refl)).
  destruct (q a); [reflexivity|]. apply IH. intros b Hb. apply H. right. exact Hb.
Qed.

Lemma orElse_Some_empty (s : string) : orElse (Some s) "" = s.
Proof. unfold orElse. simpl. destruct s; reflexivity. Qed.

Lemma findName_orElse (p : SchemaField -> bool) (schema : list SchemaField) (b : string) :
  (exists f, In f schema /\ name f = orElse (findName p schema) b)
  \/ orElse (findName p schema) b = b.
Proof.
  unfold findName. destruct (find p schema) as [f|] eqn:E; simpl.
  - unfold orElse. simpl. destruct (Str.isEmpty (name f)).
    + right. reflexivity.
    + left. exists f. split; [|reflexivity]. apply (find_some _ _ E).
  - right. reflexivity.
Qed.

Lemma fallbackChain_member (schema : list SchemaField) :
  schema <> [] -> exists f, In f schema /\ name f = fallbackChain schema.
Proof.
  intro Hne. unfold fallbackChain.
  destruct (findName_orElse (fun f => FieldType_eqb (type f) TDate) schema
              (orElse (findName (fun f => FieldType_eqb (type f) TString) schema)
                 (orElse (nthName 0 schema) ""))) as [H|H]; [exact H|].
  rewrite H.
  destruct (findName_orElse (fun f => FieldType_eqb (type f) TString) schema
              (orElse (nthName 0 schema) "")) as [H'|H']; [exact H'|].
  rewrite H'.
  destruct schema as [|f0 rest]; [contradiction|].
  exists f0. split; [left; reflexivity|].
  unfold nthName. simpl. symmetry. apply orElse_Some_empty.
Qed.

Lemma findName_named (p : SchemaField -> bool) (schema : list SchemaField) (b : string) :
  (forall f, In f schema -> Str.isEmpty (name f) = false) ->
  orElse (findName p schema) b =
  match find p schema with Some f => name f | None => b end.
Proof.
  intro Hn. unfold findName. destruct (find p schema) as [f|] eqn:E; simpl.
  - apply orElse_truthy with (s := name f); [reflexivity|].
    apply Hn. apply (find_some _ _ E).
  - reflexivity.
Qed.

Lemma fallbackChain_named (schema : list SchemaField) :
  (forall f, In f schema -> Str.isEmpty (name f) = false) ->
  fallbackChain schema = fallbackX schema.
Proof.
  intro Hn. unfold fallbackChain, fallbackX.
  rewrite (findName_named _ schema _ Hn).
  destruct (find (fun f => FieldType_eqb (type f) TDate) schema); [reflexivity|].
  rewrite (findName_named _ schema _ Hn).
  destruct (find (fun f => FieldType_eqb (type f) TString) schema); [reflexivity|].
  destruct schema as [|f0 rest]; [reflexivity|].
  unfold nthName. simpl. apply orElse_Some_empty.
Qed.

Lemma firstNamedX_named (msg : string) (schema : list SchemaField) :
  (forall f, In f schema -> Str.isEmpty (name f) = false) ->
  firstNamedX msg schema = firstMentionedX msg schema.
Proof.
  intro Hn. apply find_ext_in. intros f Hf. rewrite (Hn f Hf). simpl.
  apply andb_true_r.
Qed.

(** The x-field of the resolved configuration, by the outcome of the loop. *)
Lemma resolved_xField (schema : list SchemaField) (text : string) :
  exists config,
    generateChartConfig (Some schema) text = Normal config /\
    xField config =
      match firstNamedX (Str.toLowerCase text) schema with
      | Some f => name f
      | None => fallbackChain schema
      end.
Proof.
  unfold generateChartConfig, detectFields.
  pose proof (detect_x_first (Str.toLowerCase text) schema None None) as Hfirst.
  pose proof (detect_x_none (Str.toLowerCase text) schema None None eq_refl) as Hnone.
  destruct (fold_left (detectStep (Str.toLowerCase text)) schema (None, None)) as [x y].
  eexists. split; [reflexivity|]. simpl in *.
  unfold firstNamedX.
  destruct (find _ schema) as [f|] eqn:E.
  - rewrite (Hfirst f eq_refl eq_refl).
    apply find_some in E. destruct E as [_ E].
    apply andb_prop in E. destruct E as [_ E].
    apply negb_true_iff in E.
    rewrite (falsy_Some_named _ E).
    apply orElse_truthy with (s := name f); [reflexivity | exact E].
  - rewrite (Hnone eq_refl). apply orElse_Some_empty.
Qed.

(** ** C6 *)

(** C6. The grouping decision is four independent overwrites in the order
    month, week, day, year: the bucket of the resolved configuration is that
    of the last phrase in this order that the lower-cased text contains, so
    "by year" wins whenever present, and it is none when no phrase is. *)
Theorem groupBy_last_check_wins (schema : list SchemaField) (text : string) :
  exists config,
    generateChartConfig (Some schema) text = Normal config /\
    groupBy config =
      (if Str.includes (Str.toLowerCase text) "by year" then Some Year
       else if Str.includes (Str.toLowerCase text) "by day" then Some Day
       else if Str.includes (Str.toLowerCase text) "by week" then Some Week
       else if Str.includes (Str.toLowerCase text) "by month" then Some Month
       else None).
Proof.
  unfold generateChartConfig.
  destruct (detectFields (Str.toLowerCase text) schema) as [x y].
  eexists. split; [reflexivity|]. simpl. unfold detectGroupBy.
  destruct (Str.includes (Str.toLowerCase text) "by year");
    destruct (Str.includes (Str.toLowerCase text) "by day");
    destruct (Str.includes (Str.toLowerCase text) "by week");
    destruct (Str.includes (Str.toLowerCase text) "by month"); reflexivity.
Qed.

(** ** C2 *)

(** An upload of numbers has the empty schema, and the empty schema is
    resolved like any other: the guard [!schema] lets the empty array
    through. *)
Lemma empty_schema_is_resolved :
  analyzeSchema numbersUpload = Normal (Analysis [] 3)
  /\ generateChartConfig (Some []) "bar chart of revenue by month" =
  Normal {| chartType := Bar;
            xField := "";
            yField := "";
            labelField := None;
            groupBy := Some Month;
            filter := None;
            aggregate := Sum;
            color := "#3b82f6";
            title := "Value by Category" |}.
Proof. split; vm_compute; reflexivity. Qed.

(** C2, amended. Resolution fails, with "No schema available", exactly when
    the schema is absent; every schema that is present, the empty one
    included, resolves to a configuration, and for the empty schema to one
    whose x- and y-fields are empty, whatever the text.  In [handleSubmit]
    without a schema, a submission that is not ignored appends the user's
    message and the request to rephrase, and hands no configuration on. *)
Theorem resolution_fails_only_without_schema (text : string) :
  generateChartConfig None text = Throw (ErrorMsg "No schema available")
  /\ (forall schema, exists config, generateChartConfig (Some schema) text = Normal config)
  /\ (exists config,
        generateChartConfig (Some []) text = Normal config
        /\ xField config = "" /\ yField config = "")
  /\ (forall (d : bool) (st : ChatState),
        handleSubmit {| schema := None; disabled := d |} st =
        if Str.isEmpty (Str.trim (input st)) || isLoading st || d then (st, None)
        else ({| messages :=
                   ((messages st
                     ++ [ {| role := User; content := Plain (Str.trim (input st)) |} ])
                     ++ [ {| role := Assistant; content := RephraseRequest |} ])%list;
                 input := "";
                 isLoading := false |}, None)).
Proof.
  split; [reflexivity|]. split; [|split].
  - intro schema. unfold generateChartConfig.
    destruct (detectFields (Str.toLowerCase text) schema) as [x y].
    eexists. reflexivity.
  - eexists. split; [reflexivity|]. split; reflexivity.
  - intros d st. unfold handleSubmit. simpl.
    destruct (Str.isEmpty (Str.trim (input st)) || isLoading st || d); reflexivity.
Qed.

(** ** C5 *)

(** The empty string is a key JSON allows, and so a field name the
    inferencer produces.  Such a field is mentioned by every text, but as a
    falsy value it neither holds the x variable against a later match nor
    keeps the y-field from the fallback. *)
Lemma empty_name_is_overwritten :
  analyzeSchema emptyKeyFirstUpload = Normal (Analysis emptyNameFirst 1)
  /\ firstMentionedX "city" emptyNameFirst = Some (sampleField "" TString [ "n/a" ])
  /\ (exists config,
        generateChartConfig (Some emptyNameFirst) "city" = Normal config
        /\ xField config = "city")
  /\ analyzeSchema emptyKeyLastUpload = Normal (Analysis emptyNameLast 1)
  /\ lastMentionedY "rev" emptyNameLast = Some (sampleField "" TNumber [ "7" ])
  /\ (exists config,
        generateChartConfig (Some emptyNameLast) "rev" = Normal config
        /\ yField config = "rev").
Proof.
  split; [vm_compute; reflexivity|].
  split; [vm_compute; reflexivity|].
  split; [eexists; split; vm_compute; reflexivity|].
  split; [vm_compute; reflexivity|].
  split; [vm_compute; reflexivity|].
  eexists; split; vm_compute; reflexivity.
Qed.

(** C5, amended. Among the schema fields whose lower-cased names occur in
    the lower-cased text, the x-field is the first one, in schema order, of
    type date or string whose name is not empty, and the y-field is the last
    one of type number or number-string, provided its name is not empty;
    when that name is empty the y-field falls to the fallback by type: the
    name of the first field of type number or number-string, else that of
    the second field, else the empty string. *)
Theorem mentioned_fields_resolve (schema : list SchemaField) (text : string) :
  exists config,
    generateChartConfig (Some schema) text = Normal config
    /\ (forall f, firstNamedX (Str.toLowerCase text) schema = Some f ->
                  xField config = name f)
    /\ (forall f, lastMentionedY (Str.toLowerCase text) schema = Some f ->
                  yField config =
                    if Str.isEmpty (name f)
                    then orElse (findName (fun g => isYType (type g)) schema)
                           (orElse (nthName 1 schema) "")
                    else name f).
Proof.
  destruct (resolved_xField schema text) as [config [Hc Hx]].
  exists config. split; [exact Hc|]. split.
  - intros f Hf. rewrite Hx, Hf. reflexivity.
  - intros f Hf. revert Hc. unfold generateChartConfig, detectFields.
    pose proof (detect_y_last (Str.toLowerCase text) schema None None f Hf) as Hy.
    destruct (fold_left (detectStep (Str.toLowerCase text)) schema (None, None)) as [x y].
    simpl in Hy. subst y. intro Hc. injection Hc as <-.
    cbn [yField]. change (falsy (Some (name f))) with (Str.isEmpty (name f)).
    destruct (Str.isEmpty (name f)) eqn:Hn.
    + apply orElse_Some_empty.
    + apply orElse_truthy with (s := name f); [reflexivity | exact Hn].
Qed.

(** Both fields mentioned: the mentions decide, whatever their order in the
    text. *)
Lemma mentioned_fields_example :
  firstNamedX (Str.toLowerCase "Revenue per Date") revenueSchema
  = Some (sampleField "date" TDate [ "2024-01-01"; "2024-01-15"; "2024-02-01" ])
  /\ lastMentionedY (Str.toLowerCase "Revenue per Date") revenueSchema
     = Some (sampleField "revenue" TNumber [ "10"; "20"; "5" ])
  /\ generateChartConfig (Some revenueSchema) "Revenue per Date" = Normal plainConfig.
Proof. repeat split; vm_compute; reflexivity. Qed.

(** ** C10 *)

(** The schema of an upload whose only key is the empty string resolves to
    the empty x-field. *)
Lemma empty_name_gives_empty_xField :
  analyzeSchema emptyKeyOnlyUpload = Normal (Analysis emptyNameOnly 1)
  /\ emptyNameOnly <> []
  /\ exists config,
       generateChartConfig (Some emptyNameOnly) "sales" = Normal config
       /\ xField config = "".
Proof.
  split; [vm_compute; reflexivity|].
  split; [discriminate|]. eexists; split; vm_compute; reflexivity.
Qed.

(** C10, amended. For a non-empty schema the resolved x-field is the name
    of a field of the schema.  When no field name is empty, it is not empty
    either, and it is the first mentioned date or string field, else the
    first date field, else the first string field, else the first field. *)
Theorem xField_names_a_schema_field (schema : list SchemaField) (text : string) :
  schema <> [] ->
  exists config,
    generateChartConfig (Some schema) text = Normal config
    /\ (exists f, In f schema /\ name f = xField config)
    /\ ((forall f, In f schema -> Str.isEmpty (name f) = false) ->
        Str.isEmpty (xField config) = false
        /\ xField config =
             match firstMentionedX (Str.toLowerCase text) schema with
             | Some f => name f
             | None => fallbackX schema
             end).
Proof.
  intro Hne.
  destruct (resolved_xField schema text) as [config [Hc Hx]].
  exists config. split; [exact Hc|].
  assert (Hmem : exists f, In f schema /\ name f = xField config).
  { rewrite Hx. destruct (firstNamedX (Str.toLowerCase text) schema) as [f|] eqn:E.
    - exists f. split; [|reflexivity]. apply (find_some _ _ E).
    - apply fallbackChain_member. exact Hne. }
  split; [exact Hmem|].
  intro Hn. split.
  - destruct Hmem as [f [Hin <-]]. apply Hn. exact Hin.
  - rewrite Hx, (firstNamedX_named _ _ Hn), (fallbackChain_named _ Hn). reflexivity.
Qed.

(** The amended C10 at the schema [date, revenue] and the text of the month
    example. *)
Lemma xField_names_a_schema_field_witness :
  revenueSchema <> []
  /\ exists config,
       generateChartConfig (Some revenueSchema) "bar chart of revenue by month" = Normal config
       /\ (exists f, In f revenueSchema /\ name f = xField config)
       /\ ((forall f, In f revenueSchema -> Str.isEmpty (name f) = false) ->
           Str.isEmpty (xField config) = false
           /\ xField config =
                match firstMentionedX (Str.toLowerCase "bar chart of revenue by month")
                        revenueSchema with
                | Some f => name f
                | None => fallbackX revenueSchema
                end).
Proof.
  split; [discriminate|].
  apply (xField_names_a_schema_field revenueSchema "bar chart of revenue by month").
  discriminate.
Defined.

(** ** Own properties: lookup, update, enumeration *)

Section OwnProperties.

Context {A : Type}.

Lemma assoc_None_iff (k : string) (o : list (string * A)) :
  assoc k o = None <-> ~ In k (keys o).
Proof.
  induction o as [|[k' a] o IH]; simpl.
  - split; [intros _ []|reflexivity].
  - destruct (String.eqb_spec k k') as [->|Hne].
    + split; [discriminate|]. intro Hn. exfalso. apply Hn. left. reflexivity.
    + rewrite IH. split.
      * intros Hn [He|Hi]; [apply Hne; symmetry; exact He | exact (Hn Hi)].
      * intros Hn Hi. apply Hn. right. exact Hi.
Qed.

Lemma assoc_Some_In (k : string) (a : A) (o : list (string * A)) :
  assoc k o = Some a -> In (k, a) o.
Proof.
  induction o as [|[k' a'] o IH]; simpl; [discriminate|].
  destruct (String.eqb_spec k k') as [->|Hne].
  - intro E. injection E as ->. left. reflexivity.
  - intro E. right. apply IH. exact E.
Qed.

Lemma In_assoc (k : string) (a : A) (o : list (string * A)) :
  NoDup (keys o) -> In (k, a) o -> assoc k o = Some a.
Proof.
  induction o as [|[k' a'] o IH]; simpl; intros Hnd Hin; [contradiction|].
  inversion Hnd as [|? ? Hnotin Hnd']; subst.
  destruct Hin as [E|Hin].
  - injection E as -> ->. rewrite String.eqb_refl. reflexivity.
  - destruct (String.eqb_spec k k') as [->|Hne].
    + exfalso. apply Hnotin. apply (in_map fst) in Hin. exact Hin.
    + apply IH; assumption.
Qed.

Lemma keys_setProp_present (k : string) (a a0 : A) (o : list (string * A)) :
  assoc k o = Some a0 -> keys (setProp k a o) = keys o.
Proof.
  induction o as [|[k' a'] o IH]; simpl; [discriminate|].
  destruct (String.eqb_spec k k') as [->|Hne]; simpl.
  - reflexivity.
  - intro E. rewrite (IH E). reflexivity.
Qed.

Lemma keys_setProp_absent (k : string) (a : A) (o : list (string * A)) :
  assoc k o = None -> keys (setProp k a o) = (keys o ++ [k])%list.
Proof.
  induction o as [|[k' a'] o IH]; simpl; [reflexivity|].
  destruct (String.eqb_spec k k') as [->|Hne]; simpl.
  - discriminate.
  - intro E. rewrite (IH E). reflexivity.
Qed.

Lemma assoc_setProp_same (k : string) (a : A) (o : list (string * A)) :
  assoc k (setProp k a o) = Some a.
Proof.
  induction o as [|[k' a'] o IH]; simpl.
  - rewrite String.eqb_refl. reflexivity.
  - destruct (String.eqb_spec k k') as [->|Hne]; simpl.
    + rewrite String.eqb_refl. reflexivity.
    + destruct (String.eqb_spec k k') as [E|_]; [contradiction|]. exact IH.
Qed.

Lemma assoc_setProp_other (k k' : string) (a : A) (o : list (string * A)) :
  k' <> k -> assoc k' (setProp k a o) = assoc k' o.
Proof.
  intro Hne. induction o as [|[k0 a0] o IH]; simpl.
  - destruct (String.eqb_spec k' k) as [E|_]; [contradiction|]. reflexivity.
  - destruct (String.eqb_spec k k0) as [->|Hne0]; simpl.
    + destruct (String.eqb_spec k' k0) as [E|_]; [contradiction|]. reflexivity.
    + destruct (String.eqb k' k0); [reflexivity | exact IH].
Qed.

Lemma NoDup_keys_setProp (k : string) (a : A) (o : list (string * A)) :
  NoDup (keys o) -> NoDup (keys (setProp k a o)).
Proof.
  intro Hnd. destruct (assoc k o) as [a0|] eqn:E.
  - rewrite (keys_setProp_present k a a0 o E). exact Hnd.
  - rewrite (keys_setProp_absent k a o E).
    apply NoDup_app; [exact Hnd | constructor; [intros [] | constructor] |].
    intros x Hx [Ex|[]]. subst x. exact (proj1 (assoc_None_iff k o) E Hx).
Qed.

Lemma In_keys_setProp (k k' : string) (a : A) (o : list (string * A)) :
  In k' (keys (setProp k a o)) <-> In k' (keys o) \/ k' = k.
Proof.
  destruct (assoc k o) as [a0|] eqn:E.
  - rewrite (keys_setProp_present k a a0 o E). split; [left; assumption|].
    intros [Hi | ->]; [exact Hi|].
    apply assoc_Some_In in E. apply (in_map fst) in E. exact E.
  - rewrite (keys_setProp_absent k a o E), in_app_iff. simpl.
    split; (intros [Hi|Hi]; [left; exact Hi | right]).
    + destruct Hi as [<- | []]. reflexivity.
    + left. symmetry. exact Hi.
Qed.

Lemma Permutation_insertByIndex (e : string * A) (l : list (string * A)) :
  Permutation (insertByIndex e l) (e :: l).
Proof.
  induction l as [|e' l IH]; simpl; [reflexivity|].
  destruct (indexOf (fst e) <=? indexOf (fst e')); [reflexivity|].
  rewrite IH. apply perm_swap.
Qed.

Lemma Permutation_sortByIndex (l : list (string * A)) : Permutation (sortByIndex l) l.
Proof.
  induction l as [|e l IH]; simpl; [reflexivity|].
  rewrite Permutation_insertByIndex, IH. reflexivity.
Qed.

Lemma Permutation_partition (p : string * A -> bool) (l : list (string * A)) :
  Permutation (List.filter p l ++ List.filter (fun e => negb (p e)) l) l.
Proof.
  induction l as [|e l IH]; simpl; [reflexivity|].
  destruct (p e); simpl.
  - rewrite IH. reflexivity.
  - rewrite <- Permutation_middle, IH. reflexivity.
Qed.

(** Enumeration reorders the properties and loses none. *)
Lemma Permutation_entries (o : list (string * A)) : Permutation (entries o) o.
Proof.
  unfold entries. rewrite Permutation_sortByIndex. apply Permutation_partition.
Qed.

Lemma length_entries (o : list (string * A)) : List.length (entries o) = List.length o.
Proof. apply Permutation_length, Permutation_entries. Qed.

Lemma In_entries (x : string * A) (o : list (string * A)) :
  In x (entries o) -> In x o.
Proof. apply Permutation_in, Permutation_entries. Qed.

Lemma NoDup_keys_entries (o : list (string * A)) :
  NoDup (keys o) -> NoDup (keys (entries o)).
Proof.
  apply Permutation_NoDup, Permutation_map, Permutation_sym, Permutation_entries.
Qed.

End OwnProperties.

Lemma length_insertSorted {A : Type} (cmp : A -> A -> comparison) (x : A) (l : list A) :
  List.length (insertSorted cmp x l) = S (List.length l).
Proof.
  induction l as [|y l IH]; simpl; [reflexivity|].
  destruct (cmp x y); simpl; try reflexivity. rewrite IH. reflexivity.
Qed.

Lemma length_sortWith {A : Type} (cmp : A -> A -> comparison) (l : list A) :
  List.length (sortWith cmp l) = List.length l.
Proof.
  induction l as [|x l IH]; simpl; [reflexivity|].
  rewrite length_insertSorted, IH. reflexivity.
Qed.

(** ** Sequencing *)

Lemma bind_Normal {A B : Type} (c : Completion A) (f : A -> Completion B) (b : B) :
  bind c f = Normal b -> exists a, c = Normal a /\ f a = Normal b.
Proof.
  destruct c as [a|e]; simpl; [|discriminate].
  intro E. exists a. split; [reflexivity | exact E].
Qed.

Lemma mapM_Normal {A B : Type} (f : A -> Completion B) (l : list A) (l' : list B) :
  mapM f l = Normal l' -> Forall2 (fun a b => f a = Normal b) l l'.
Proof.
  revert l'. induction l as [|a rest IH]; simpl; intros l' E.
  - injection E as <-. constructor.
  - destruct (f a) as [b|] eqn:Ea; [|discriminate]. simpl in E.
    destruct (mapM f rest) as [bs|] eqn:Er; [|discriminate]. simpl in E.
    injection E as <-. constructor; [exact Ea | apply IH; reflexivity].
Qed.

Lemma mapM_length {A B : Type} (f : A -> Completion B) (l : list A) (l' : list B) :
  mapM f l = Normal l' -> List.length l' = List.length l.
Proof.
  intro E. apply mapM_Normal in E. induction E; simpl; [reflexivity|].
  f_equal. assumption.
Qed.

Lemma mapM_In {A B : Type} (f : A -> Completion B) (l : list A) (l' : list B) (b : B) :
  mapM f l = Normal l' ->
  In b l' <-> exists a, In a l /\ f a = Normal b.
Proof.
  intro E. apply mapM_Normal in E. induction E as [|a b' l l' Hab E IH]; simpl.
  - split; [intros [] | intros [a [[] _]]].
  - rewrite IH. split.
    + intros [<-|[a' [Hin Ha']]]; [exists a; split; [left; reflexivity | exact Hab]|].
      exists a'. split; [right; exact Hin | exact Ha'].
    + intros [a' [[<-|Hin] Ha']].
      * left. rewrite Hab in Ha'. injection Ha' as ->. reflexivity.
      * right. exists a'. split; assumption.
Qed.



Lemma filterM_ext_in {A : Type} (p q : A -> Completion bool) (l : list A) :
  (forall a, In a l -> p a = q a) -> filterM p l = filterM q l.
Proof.
  induction l as [|a rest IH]; simpl; intro Hpq; [reflexivity|].
  rewrite (Hpq a (or_introl eq_refl)), IH; [reflexivity|].
  intros a' Ha'. apply Hpq. right. exact Ha'.
Qed.


Lemma filterM_returns {A : Type} (p : A -> Completion bool) (l : list A) :
  (forall a, In a l -> exists b, p a = Normal b) ->
  filterM p l = Normal (List.filter (fun a => holds (p a)) l).
Proof.
  induction l as [|a rest IH]; simpl; intro Hp; [reflexivity|].
  destruct (Hp a (or_introl eq_refl)) as [b Eb]. rewrite Eb. simpl.
  rewrite IH by (intros a' Ha'; apply Hp; right; exact Ha'). simpl.
  destruct b; reflexivity.
Qed.

(** A filter whose test raises on an element raises, and with the error of
    the test when there is only one. *)
Lemma filterM_throws {A : Type} (p : A -> Completion bool) (l : list A) (e : JsError) :
  (forall a e', p a = Throw e' -> e' = e) ->
  (exists a, In a l /\ p a = Throw e) ->
  filterM p l = Throw e.
Proof.
  intros He. induction l as [|a rest IH]; intros [a0 [Hin Ea]]; [contradiction|].
  simpl. destruct (p a) as [b|e'] eqn:Epa.
  - simpl. destruct Hin as [<-|Hin]; [rewrite Ea in Epa; discriminate|].
    rewrite IH by (exists a0; split; assumption). reflexivity.
  - simpl. rewrite (He a e' Epa). reflexivity.
Qed.

(** ** Stringification *)

Lemma JVal_induction (P : JVal -> Prop) :
  P JNull -> (forall b, P (JBool b)) -> (forall x, P (JNum x)) -> (forall s, P (JStr s)) ->
  (forall items, Forall P items -> P (JArr items)) ->
  (forall props, P (JObj props)) ->
  forall v, P v.
Proof.
  intros Hnull Hbool Hnum Hstr Harr Hobj.
  fix IH 1. intro v. destruct v as [|b|x|s|items|props].
  - exact Hnull.
  - apply Hbool.
  - apply Hnum.
  - apply Hstr.
  - apply Harr. induction items as [|item rest IHl]; constructor; [apply IH | exact IHl].
  - apply Hobj.
Qed.

(** The string of an array, element by element. *)
Lemma jsonToString_cons (x : JVal) (rest : list JVal) :
  jsonToString (JArr (x :: rest))
  = (sx <- match x with JNull => Normal "" | _ => jsonToString x end;;
     match rest with
     | [] => Normal sx
     | _ :: _ => sr <- jsonToString (JArr rest);; Normal (sx ++ "," ++ sr)
     end).
Proof. reflexivity. Qed.

Lemma jsonToString_obj (props : list (string * JVal)) :
  jsonToString (JObj props)
  = if existsb (String.eqb "toString") (keys props) then Throw cannotConvert
    else Normal "[object Object]".
Proof. reflexivity. Qed.

(** [String] raises one error only. *)
Lemma jsonToString_throws (v : JVal) (e : JsError) :
  jsonToString v = Throw e -> e = cannotConvert.
Proof.
  revert e. induction v as [|b|x|s|items IH|props] using JVal_induction; intro e;
    try discriminate.
  - destruct b; discriminate.
  - induction IH as [|item rest Hitem _ IHrest]; [discriminate|].
    rewrite jsonToString_cons.
    assert (Hx : forall e', match item with JNull => Normal "" | _ => jsonToString item end
                            = Throw e' -> e' = cannotConvert).
    { intros e'. destruct item; try discriminate; apply Hitem. }
    destruct (match item with JNull => Normal "" | _ => jsonToString item end)
      as [sx|e'] eqn:Ex.
    + cbn [bind]. destruct rest as [|item' rest']; [discriminate|].
      destruct (jsonToString (JArr (item' :: rest'))) as [sr|e''] eqn:Er; cbn [bind];
        [discriminate|].
      intro E. injection E as <-. apply IHrest. reflexivity.
    + cbn [bind]. intro E. injection E as <-. apply Hx. reflexivity.
  - rewrite jsonToString_obj.
    destruct (existsb (String.eqb "toString") (keys props)); [|discriminate].
    intro E. injection E as <-. reflexivity.
Qed.

(** [String] returns exactly on the printable values. *)
Lemma jsonToString_returns (v : JVal) :
  printable v = true <-> exists s, jsonToString v = Normal s.
Proof.
  induction v as [|b|x|s|items IH|props] using JVal_induction;
    try (split; [intros _; eexists; reflexivity | reflexivity]).
  - split; [intros _; destruct b; eexists; reflexivity | reflexivity].
  - induction IH as [|item rest Hitem _ IHrest].
    + split; [intros _; eexists; reflexivity | reflexivity].
    + rewrite jsonToString_cons.
      change (printable (JArr (item :: rest)))
        with (printable item && printable (JArr rest)).
      assert (Hx : printable item = true
                   <-> exists sx, match item with JNull => Normal "" | _ => jsonToString item end
                                  = Normal sx).
      { destruct item; try exact Hitem. split; [intros _; eexists; reflexivity | reflexivity]. }
      split.
      * intro Hp. apply andb_prop in Hp. destruct Hp as [Hp1 Hp2].
        apply Hx in Hp1. destruct Hp1 as [sx ->]. cbn [bind].
        destruct rest as [|item' rest']; [eexists; reflexivity|].
        apply IHrest in Hp2. destruct Hp2 as [sr ->]. eexists. reflexivity.
      * intros [s E].
        destruct (match item with JNull => Normal "" | _ => jsonToString item end)
          as [sx|] eqn:Ex; [|discriminate].
        assert (Hp1 : printable item = true) by (apply Hx; exists sx; reflexivity).
        rewrite Hp1. cbn [andb]. cbn [bind] in E.
        destruct rest as [|item' rest']; [reflexivity|].
        destruct (jsonToString (JArr (item' :: rest'))) as [sr|] eqn:Er; [|discriminate].
        apply IHrest. exists sr. reflexivity.
  - rewrite jsonToString_obj.
    change (printable (JObj props))
      with (negb (existsb (String.eqb "toString") (keys props))).
    destruct (existsb (String.eqb "toString") (keys props)); cbn [negb].
    + split; [discriminate | intros [s E]; discriminate].
    + split; [intros _; eexists; reflexivity | reflexivity].
Qed.

Section Stringification.

Context `{Host}.

Lemma toString_throws (v : Value) (e : JsError) : toString v = Throw e -> e = cannotConvert.
Proof. destruct v; try discriminate. apply jsonToString_throws. Qed.

Lemma toString_returns (v : Value) :
  printableValue v = true <-> exists s, toString v = Normal s.
Proof.
  destruct v; try (split; [intros _; eexists; reflexivity | reflexivity]).
  apply jsonToString_returns.
Qed.

Lemma toString_raises (v : Value) :
  printableValue v = false -> toString v = Throw cannotConvert.
Proof.
  intro Hp. destruct (toString v) as [s|e] eqn:E.
  - assert (Ht : printableValue v = true) by (apply toString_returns; exists s; exact E).
    rewrite Ht in Hp. discriminate.
  - rewrite (toString_throws v e E). reflexivity.
Qed.



End Stringification.


(** ** Grouping *)

Lemma pushToGroup_keys (groups groups' : Groups) (key : string) (item : DataRow) :
  pushToGroup groups key item = Normal groups' ->
  NoDup (keys groups) ->
  NoDup (keys groups') /\ (forall k, In k (keys groups') <-> In k (keys groups) \/ k = key).
Proof.
  unfold pushToGroup. intros E Hnd.
  destruct (assoc key groups) as [items|].
  - injection E as <-. split; [apply NoDup_keys_setProp; exact Hnd|].
    intro k. apply In_keys_setProp.
  - destruct (inherited key); try discriminate.
    injection E as <-. split; [apply NoDup_keys_setProp; exact Hnd|].
    intro k. apply In_keys_setProp.
Qed.

(** A grouping loop that returns has computed the key of every row, and
    holds one bucket for each key. *)
Lemma groupRows_keys (keyOf : DataRow -> Completion string) (rows : list DataRow)
  (groups groups' : Groups) :
  groupRows keyOf rows groups = Normal groups' ->
  NoDup (keys groups) ->
  exists ks,
    mapM keyOf rows = Normal ks
    /\ NoDup (keys groups')
    /\ (forall k, In k (keys groups') <-> In k (keys groups) \/ In k ks).
Proof.
  revert groups. induction rows as [|item rest IH]; simpl; intros groups E Hnd.
  - injection E as <-. exists []. split; [reflexivity|]. split; [exact Hnd|].
    intro k. simpl. tauto.
  - destruct (keyOf item) as [key|] eqn:Ek; [|discriminate]. simpl in E.
    destruct (pushToGroup groups key item) as [g1|] eqn:E1; [|discriminate]. simpl in E.
    destruct (pushToGroup_keys _ _ _ _ E1 Hnd) as [Hnd1 Hk1].
    destruct (IH g1 E Hnd1) as [ks [-> [Hnd' Hk']]].
    exists (key :: ks). split; [reflexivity|]. split; [exact Hnd'|].
    intro k. rewrite Hk', Hk1. simpl. intuition.
Qed.

(** The buckets are as many as the distinct keys of the grouped rows. *)
Lemma groupRows_count (keyOf : DataRow -> Completion string) (rows : list DataRow)
  (groups : Groups) :
  groupRows keyOf rows [] = Normal groups ->
  exists ks,
    mapM keyOf rows = Normal ks
    /\ List.length groups = List.length (nodup string_dec ks).
Proof.
  intro E. destruct (groupRows_keys _ _ _ _ E (NoDup_nil _)) as [ks [Eks [Hnd Hk]]].
  exists ks. split; [exact Eks|].
  rewrite <- (length_map fst groups). fold (keys groups).
  apply Nat.le_antisymm; apply NoDup_incl_length.
  - exact Hnd.
  - intros k Hi. apply nodup_In. apply Hk in Hi. destruct Hi as [[]|Hi]. exact Hi.
  - apply NoDup_nodup.
  - intros k Hi. apply nodup_In in Hi. apply Hk. right. exact Hi.
Qed.




(** ** The data transformer *)

Section TransformerProperties.

Context `{Host}.

Lemma applyFilter_matches (config : ChartConfig) (f : Filter) (data : list DataRow) :
  filter config = Some f ->
  applyFilter config data = filterM (matchesFilter f) data.
Proof. intro E. unfold applyFilter. rewrite E. reflexivity. Qed.

(** An absent field reads as [undefined], and that prints as a word. *)
Lemma matchesFilter_absent (f : Filter) (item : DataRow) :
  assoc (field f) item = None ->
  inherited (field f) = VUndefined ->
  matchesFilter f item = Normal (String.eqb "undefined" (Str.toLowerCase (value f))).
Proof.
  intros Ha Hi. unfold matchesFilter, getProp. rewrite Ha, Hi. reflexivity.
Qed.



(** What a returned result was computed from. *)
Lemma transformData_Normal (data : list DataRow) (config : ChartConfig)
  (out : TransformedData) :
  transformData (Some data) (Some config) = Normal (Some out) ->
  exists processed,
    applyFilter config data = Normal processed
    /\ if grouping config
       then exists groups points,
              groupRows (groupKey config) processed [] = Normal groups
              /\ mapM (aggregateBucket config) (entries groups) = Normal points
              /\ labels out = map label (sortWith compareLabels points)
              /\ values out = map pointValue (sortWith compareLabels points)
       else mapM (fun d => toStringOrEmpty (getProp d (xField config))) processed
            = Normal (labels out)
            /\ mapM (fun d => toNumberOrZero (getProp d (yField config))) processed
               = Normal (values out).
Proof.
  unfold transformData. intro E.
  apply bind_Normal in E. destruct E as [processed [Ep E]].
  exists processed. split; [exact Ep|].
  destruct (grouping config).
  - apply bind_Normal in E. destruct E as [groups [Eg E]].
    apply bind_Normal in E. destruct E as [points [Ea E]].
    injection E as <-. exists groups, points. repeat split; assumption.
  - apply bind_Normal in E. destruct E as [ls [El E]].
    apply bind_Normal in E. destruct E as [vs [Ev E]].
    injection E as <-. split; assumption.
Qed.

(** X1. When the filter step returns and keeps no row, the transform
    yields no label and no value, whatever the rest of the configuration,
    and no error. *)
Theorem transformData_nothing_kept (data : list DataRow) (config : ChartConfig) :
  applyFilter config data = Normal [] ->
  transformData (Some data) (Some config) = Normal (Some {| labels := []; values := [] |}).
Proof.
  intro E. unfold transformData. rewrite E. simpl. destruct (grouping config); reflexivity.
Qed.


End TransformerProperties.

(** X1 at a filter on [status] that no row passes. *)
Lemma transformData_nothing_kept_witness :
  @applyFilter utcHost undefinedFilterConfig
     [ [ ("date", JStr "2024-01-03"); ("status", JStr "active") ] ] = Normal []
  /\ @transformData utcHost
       (Some [ [ ("date", JStr "2024-01-03"); ("status", JStr "active") ] ])
       (Some undefinedFilterConfig)
     = Normal (Some {| labels := []; values := [] |}).
Proof.
  split; [reflexivity|].
  exact (@transformData_nothing_kept utcHost
           [ [ ("date", JStr "2024-01-03"); ("status", JStr "active") ] ]
           undefinedFilterConfig eq_refl).
Defined.


(** ** C3 *)

(** A row without a [status] passes a filter that expects the word
    [undefined]: of three rows the transform keeps the one without a
    [status] and the one whose [status] is the string [Undefined]. *)
Lemma absent_field_matches_undefined :
  assoc "status" [ ("date", JStr "2024-01-01"); ("revenue", JNum (Num.ofZ 10)) ] = None
  /\ @transformData utcHost
       (Some [ [ ("date", JStr "2024-01-01"); ("revenue", JNum (Num.ofZ 10)) ];
               [ ("date", JStr "2024-01-02"); ("status", JStr "Undefined");
                 ("revenue", JNum (Num.ofZ 7)) ];
               [ ("date", JStr "2024-01-03"); ("status", JStr "active");
                 ("revenue", JNum (Num.ofZ 3)) ] ])
       (Some undefinedFilterConfig)
     = Normal (Some {| labels := [ "2024-01-01"; "2024-01-02" ];
                       values := [ Num.ofZ 10; Num.ofZ 7 ] |}).
Proof. split; vm_compute; reflexivity. Qed.

(** C3, amended.  With a filter, the transform first decides every row, in
    order, by stringifying the value of its filter field; it then is the
    unfiltered transform of the rows kept.  When the value of every row is
    one that [String] turns into a string, the rows kept are exactly those
    whose value, stringified and lower-cased, equals the lower-cased filter
    value; a row without the filter field, under a name that
    [Object.prototype] does not define, stringifies to "undefined" and is
    dropped unless the lower-cased filter value is itself "undefined".
    When the value of some row is an object with an own property named
    [toString] (or an array holding one), [String] raises and so does the
    transform. *)
Theorem filter_keeps_matching_rows `{Host}
  (data : list DataRow) (config : ChartConfig) (f : Filter) :
  filter config = Some f ->
  transformData (Some data) (Some config)
  = (processed <- filterM (matchesFilter f) data;;
     transformData (Some processed) (Some (withoutFilter config)))
  /\ (forall item, keptByFilter f item = true
                   <-> exists text,
                         toString (getProp item (field f)) = Normal text
                         /\ Str.toLowerCase text = Str.toLowerCase (value f))
  /\ (forall item, assoc (field f) item = None ->
                   inherited (field f) = VUndefined ->
                   (keptByFilter f item = true <-> Str.toLowerCase (value f) = "undefined"))
  /\ ((forall item, In item data -> printableValue (getProp item (field f)) = true) ->
      filterM (matchesFilter f) data = Normal (List.filter (keptByFilter f) data)
      /\ transformData (Some data) (Some config)
         = transformData (Some (List.filter (keptByFilter f) data))
             (Some (withoutFilter config)))
  /\ ((exists item, In item data /\ printableValue (getProp item (field f)) = false) ->
      transformData (Some data) (Some config) = Throw cannotConvert).
Proof.
  intro E.
  assert (H1 : transformData (Some data) (Some config)
               = (processed <- filterM (matchesFilter f) data;;
                  transformData (Some processed) (Some (withoutFilter config)))).
  { unfold transformData. rewrite (applyFilter_matches config f data E).
    destruct (filterM (matchesFilter f) data) as [processed|e]; reflexivity. }
  split; [exact H1|]. split; [|split; [|split]].
  - intro item. unfold keptByFilter, matchesFilter. split.
    + destruct (toString (getProp item (field f))) as [s|]; [|discriminate].
      cbn [bind holds]. intro Hh. exists s. split; [reflexivity|].
      apply String.eqb_eq. exact Hh.
    + intros [text [-> Et]]. cbn [bind holds]. apply String.eqb_eq. exact Et.
  - intros item Ha Hinh. unfold keptByFilter.
    rewrite (matchesFilter_absent f item Ha Hinh). cbn [holds]. rewrite String.eqb_eq.
    split; intro Hv; symmetry; exact Hv.
  - intro Hp.
    assert (Hd : forall item, In item data -> exists b, matchesFilter f item = Normal b).
    { intros item Hin. unfold matchesFilter.
      destruct (proj1 (toString_returns _) (Hp item Hin)) as [s ->]. eexists. reflexivity. }
    pose proof (filterM_returns (matchesFilter f) data Hd) as Ep.
    split; [exact Ep|]. rewrite H1, Ep. reflexivity.
  - intros [item [Hin Hp]]. rewrite H1.
    rewrite (filterM_throws (matchesFilter f) data cannotConvert); [reflexivity| |].
    + intros a e' Ea. unfold matchesFilter in Ea.
      destruct (toString (getProp a (field f))) as [s|e0] eqn:Es; [discriminate|].
      simpl in Ea. injection Ea as <-. apply (toString_throws _ _ Es).
    + exists item. split; [exact Hin|]. unfold matchesFilter.
      rewrite (toString_raises _ Hp). reflexivity.
Qed.

(** The amended C3 at the two ragged rows and the filter on [status]. *)
Lemma filter_keeps_matching_rows_witness :
  filter undefinedFilterConfig = Some {| field := "status"; value := "undefined" |}
  /\ @transformData utcHost (Some raggedRows) (Some undefinedFilterConfig)
     = (processed <- filterM (@matchesFilter utcHost {| field := "status"; value := "undefined" |})
                       raggedRows;;
        @transformData utcHost (Some processed) (Some (withoutFilter undefinedFilterConfig))).
Proof.
  split; [reflexivity|].
  exact (proj1 (@filter_keeps_matching_rows utcHost raggedRows undefinedFilterConfig
                  {| field := "status"; value := "undefined" |} eq_refl)).
Defined.

(** ** C8 *)

(** C8. When the transform returns its pair, the labels are as many as the
    values; with group-by and x-field set this number is that of the
    distinct bucket keys among the rows the filter keeps, and otherwise it
    is the number of those rows. *)
Theorem output_lengths `{Host}
  (data : list DataRow) (config : ChartConfig) (out : TransformedData) :
  transformData (Some data) (Some config) = Normal (Some out) ->
  List.length (labels out) = List.length (values out)
  /\ exists processed,
       applyFilter config data = Normal processed
       /\ if grouping config
          then exists keys,
                 mapM (groupKey config) processed = Normal keys
                 /\ List.length (values out) = List.length (nodup string_dec keys)
          else List.length (values out) = List.length processed.
Proof.
  intro E. destruct (transformData_Normal data config out E) as [processed [Ep Hout]].
  destruct (grouping config).
  - destruct Hout as [groups [points [Eg [Ea [El Ev]]]]].
    split; [rewrite El, Ev, !length_map; reflexivity|].
    exists processed. split; [exact Ep|].
    destruct (groupRows_count _ _ _ Eg) as [ks [Eks Hn]].
    exists ks. split; [exact Eks|].
    rewrite Ev, length_map, length_sortWith, (mapM_length _ _ _ Ea), length_entries.
    exact Hn.
  - destruct Hout as [El Ev].
    split; [rewrite (mapM_length _ _ _ El), (mapM_length _ _ _ Ev); reflexivity|].
    exists processed. split; [exact Ep|]. apply (mapM_length _ _ _ Ev).
Qed.

(** C8 at the month example in the UTC host: two labels, two values, two
    distinct bucket keys. *)
Lemma output_lengths_witness :
  @transformData utcHost (Some revenueRows) (Some monthConfig)
  = Normal (Some {| labels := [ "2024-01"; "2024-02" ];
                    values := [ Num.ofZ 30; Num.ofZ 5 ] |})
  /\ (2 = 2)%nat
  /\ exists processed,
       @applyFilter utcHost monthConfig revenueRows = Normal processed
       /\ exists keys,
            mapM (@groupKey utcHost monthConfig) processed = Normal keys
            /\ (2 = List.length (nodup string_dec keys))%nat.
Proof.
  assert (E : @transformData utcHost (Some revenueRows) (Some monthConfig)
              = Normal (Some {| labels := [ "2024-01"; "2024-02" ];
                                values := [ Num.ofZ 30; Num.ofZ 5 ] |})).
  { vm_compute. reflexivity. }
  split; [exact E|].
  exact (@output_lengths utcHost revenueRows monthConfig _ E).
Defined.

(** ** C7 *)

(** C7, at the failing input. The upload [{name: "constructor", v: 1}] is
    analysed, the request "v by name by day" resolves, and the transform of
    that row under that configuration raises: the key reads as the
    inherited [Object.prototype.constructor], no bucket is created, and
    [push] is called on a function. *)
Theorem transformData_raises_on_inherited_key :
  analyzeSchema (map JObj constructorRows) = Normal (Analysis constructorSchema 1)
  /\ generateChartConfig (Some constructorSchema) "v by name by day" = Normal byDayConfig
  /\ @transformData utcHost (Some constructorRows) (Some byDayConfig)
     = Throw (TypeError "groups[key].push is not a function").
Proof. repeat split; vm_compute; reflexivity. Qed.

(** ** C4 *)

(** The rows of the example have the schema [date: date, revenue: number],
    and the two texts of the specification resolve as it says. *)
Lemma revenue_schema_inferred :
  analyzeSchema (map JObj revenueRows) = Normal (Analysis revenueSchema 3).
Proof. vm_compute. reflexivity. Qed.

Lemma month_example_resolves :
  generateChartConfig (Some revenueSchema) "bar chart of revenue by month" = Normal monthConfig.
Proof. vm_compute. reflexivity. Qed.

Lemma line_example_resolves :
  generateChartConfig (Some revenueSchema) "line chart of revenue over time" = Normal plainConfig.
Proof. vm_compute. reflexivity. Qed.

(** Local midnight-based fields of a UTC midnight, in a zone at or east of
    UTC: the day does not change. *)
Lemma localFields_east_of_utc `{Host} (day : Z) :
  0 <= localTZA (day * Date.msPerDay) < Date.msPerDay ->
  Date.localFields (day * Date.msPerDay) =
  let '(y, m, d) := Date.civilFromDays day in (y, m - 1, d).
Proof.
  intro Htz. unfold Date.localFields.
  replace ((day * Date.msPerDay + localTZA (day * Date.msPerDay)) / Date.msPerDay)
    with day; [reflexivity|].
  rewrite Z.div_add_l by (unfold Date.msPerDay; lia).
  rewrite Z.div_small by exact Htz. lia.
Qed.

Lemma monthKey_east_of_utc `{Host} (day : Z) :
  0 <= localTZA (day * Date.msPerDay) < Date.msPerDay ->
  monthKey (day * Date.msPerDay) =
  let '(y, m, _) := Date.civilFromDays day in
  Str.ofZ y ++ "-" ++ Str.padStart0 2 (Str.ofZ (m - 1 + 1)).
Proof.
  intro Htz. unfold monthKey, Date.getFullYear, Date.getMonth.
  rewrite (localFields_east_of_utc day Htz).
  destruct (Date.civilFromDays day) as [[y m] d]. reflexivity.
Qed.

(** X3. In a host at or east of UTC that collates "2024-01" before
    "2024-02", the month example gives the buckets of the specification:
    labels "2024-01" and "2024-02", values 30 and 5. *)
Theorem month_buckets_east_of_utc `{Host} :
  (forall t, 0 <= localTZA t < Date.msPerDay) ->
  localeCompare "2024-01" "2024-02" = Lt ->
  transformData (Some revenueRows) (Some monthConfig)
  = Normal (Some {| labels := [ "2024-01"; "2024-02" ];
                    values := [ Num.ofZ 30; Num.ofZ 5 ] |}).
Proof.
  intros Htz Hcmp.
  assert (K1 : monthKey 1704067200000 = "2024-01").
  { change 1704067200000 with (19723 * Date.msPerDay).
    rewrite (monthKey_east_of_utc 19723 (Htz _)). vm_compute. reflexivity. }
  assert (K2 : monthKey 1705276800000 = "2024-01").
  { change 1705276800000 with (19737 * Date.msPerDay).
    rewrite (monthKey_east_of_utc 19737 (Htz _)). vm_compute. reflexivity. }
  assert (K3 : monthKey 1706745600000 = "2024-02").
  { change 1706745600000 with (19754 * Date.msPerDay).
    rewrite (monthKey_east_of_utc 19754 (Htz _)). vm_compute. reflexivity. }
  unfold transformData, revenueRows.
  change (grouping monthConfig) with true. cbv iota.
  change (applyFilter monthConfig ?d) with (Normal d).
  cbn [bind groupRows].
  change (groupKey monthConfig [("date", JStr "2024-01-01"); ("revenue", JNum (Num.ofZ 10))])
    with (Normal (monthKey 1704067200000)).
  change (groupKey monthConfig [("date", JStr "2024-01-15"); ("revenue", JNum (Num.ofZ 20))])
    with (Normal (monthKey 1705276800000)).
  change (groupKey monthConfig [("date", JStr "2024-02-01"); ("revenue", JNum (Num.ofZ 5))])
    with (Normal (monthKey 1706745600000)).
  rewrite K1, K2, K3.
  vm_compute. vm_compute in Hcmp. rewrite Hcmp. reflexivity.
Qed.

(** The UTC host is one of them. *)
Lemma month_buckets_in_utc :
  (forall t, 0 <= @localTZA utcHost t < Date.msPerDay)
  /\ @localeCompare utcHost "2024-01" "2024-02" = Lt
  /\ @transformData utcHost (Some revenueRows) (Some monthConfig)
     = Normal (Some {| labels := [ "2024-01"; "2024-02" ];
                       values := [ Num.ofZ 30; Num.ofZ 5 ] |}).
Proof.
  assert (Htz : forall t, 0 <= @localTZA utcHost t < Date.msPerDay).
  { intro t. simpl. unfold Date.msPerDay. lia. }
  split; [exact Htz|]. split; [reflexivity|].
  exact (@month_buckets_east_of_utc utcHost Htz eq_refl).
Defined.

(** C4, at the failing host. The text resolves as stated, but five hours
    west of UTC the first of a month, parsed as UTC midnight and read with
    the local getters, falls on the last day of the month before: the
    buckets are "2023-12" and "2024-01", with sums 10 and 25. *)
Theorem month_buckets_shift_west_of_utc :
  generateChartConfig (Some revenueSchema) "bar chart of revenue by month" = Normal monthConfig
  /\ @transformData westHost (Some revenueRows) (Some monthConfig)
     = Normal (Some {| labels := [ "2023-12"; "2024-01" ];
                       values := [ Num.ofZ 10; Num.ofZ 25 ] |}).
Proof. split; vm_compute; reflexivity. Qed.

(** ** C1 *)

(** An unparseable date under month grouping: the preview keeps the raw
    string as the key, the emitted code prints the getters of an invalid
    date. *)
Lemma generated_key_of_invalid_date :
  @transformData utcHost
     (Some [ [ ("date", JStr "soon"); ("revenue", JNum (Num.ofZ 1)) ] ]) (Some monthConfig)
  = Normal (Some {| labels := [ "soon" ]; values := [ Num.ofZ 1 ] |})
  /\ @runGenerated utcHost (generateComponentCode monthConfig)
       (Some [ [ ("date", JStr "soon"); ("revenue", JNum (Num.ofZ 1)) ] ])
     = Normal (Some {| labels := [ "NaN-NaN" ]; values := [ Num.ofZ 1 ] |}).
Proof. split; vm_compute; reflexivity. Qed.

(** C1, at the failing input. For a row without the x-field the preview's
    label is the empty string, [String(d[x] || '')], while the emitted
    component's is "undefined", [String(d.x)]: on the same rows and
    configuration the two label sequences differ, in every host. *)
Theorem generated_labels_differ_from_preview `{Host} :
  transformData (Some raggedRows) (Some plainConfig)
  = Normal (Some {| labels := [ "2024-01-01"; "" ];
                    values := [ Num.ofZ 5; Num.ofZ 10 ] |})
  /\ runGenerated (generateComponentCode plainConfig) (Some raggedRows)
     = Normal (Some {| labels := [ "2024-01-01"; "undefined" ];
                       values := [ Num.ofZ 5; Num.ofZ 10 ] |}).
Proof. split; vm_compute; reflexivity. Qed.

(** ** The schema inferencer *)

Lemma ofZ_inj (a b : Z) : Str.ofZ a = Str.ofZ b -> a = b.
Proof.
  assert (Hnz : forall z, Z.to_int z <> Decimal.Pos Decimal.Nil
                          /\ Z.to_int z <> Decimal.Neg Decimal.Nil).
  { intro z. split; intro E; pose proof (f_equal Z.of_int E) as E';
      rewrite DecimalZ.of_to in E'; simpl in E'; subst z; discriminate. }
  unfold Str.ofZ. intro E.
  apply (f_equal NilZero.int_of_string) in E.
  rewrite !NilZero.isi in E by apply Hnz.
  injection E as E. apply DecimalZ.to_int_inj. exact E.
Qed.

Lemma ofNat_inj (i j : nat) : Str.ofNat i = Str.ofNat j -> i = j.
Proof. intro E. apply ofZ_inj in E. lia. Qed.

Lemma indexed_keys_from (items : list JVal) (i : nat) (k : string) :
  In k (keys (indexed i items)) -> exists j, (i <= j)%nat /\ k = Str.ofNat j.
Proof.
  revert i. induction items as [|v rest IH]; simpl; intros i Hin; [contradiction|].
  destruct Hin as [<-|Hin].
  - exists i. split; [lia | reflexivity].
  - destruct (IH (S i) Hin) as [j [Hj ->]]. exists j. split; [lia | reflexivity].
Qed.

Lemma NoDup_keys_indexed (items : list JVal) (i : nat) : NoDup (keys (indexed i items)).
Proof.
  revert i. induction items as [|v rest IH]; simpl; intro i; constructor.
  - intro Hin. destruct (indexed_keys_from rest (S i) _ Hin) as [j [Hj E]].
    apply ofNat_inj in E. lia.
  - apply IH.
Qed.

(** The entries of a row name each key once. *)
Lemma NoDup_itemEntries (item : JVal) (es : list (string * JVal)) :
  wellFormedItem item -> itemEntries item = Some es -> NoDup (keys es).
Proof.
  destruct item; simpl; intros Hwf E; try discriminate; injection E as <-.
  - apply NoDup_keys_indexed.
  - apply NoDup_keys_entries. exact Hwf.
Qed.

Lemma existsb_eqb_In (k : string) (l : list string) :
  existsb (String.eqb k) l = true <-> In k l.
Proof.
  rewrite existsb_exists. split.
  - intros [x [Hin E]]. apply String.eqb_eq in E. subst x. exact Hin.
  - intro Hin. exists k. split; [exact Hin | apply String.eqb_refl].
Qed.

Lemma recordEntry_unfold (fields : list (string * FieldInfo)) (key : string) (value : JVal) :
  recordEntry fields (key, value) =
  match assoc key fields with
  | Some info => info' <- updateInfo value info;; Normal (setProp key info' fields)
  | None =>
      match inherited key with
      | VUndefined => info' <- updateInfo value emptyInfo;; Normal (setProp key info' fields)
      | _ => Throw (TypeError "Cannot read properties of undefined (reading 'add')")
      end
  end.
Proof. reflexivity. Qed.

(** What one value does to a record, when its sample is taken without an
    error. *)
Lemma updateInfo_Normal (v : JVal) (info info' : FieldInfo) :
  updateInfo v info = Normal info' ->
  infoTypes info' = setAdd FieldType_eqb (inferType v) (infoTypes info)
  /\ infoCount info' = S (infoCount info)
  /\ (infoSamples info' = infoSamples info
      \/ ((List.length (infoSamples info) < 5)%nat
          /\ v <> JNull
          /\ exists text,
               jsonToString v = Normal text
               /\ infoSamples info'
                  = setAdd String.eqb (Str.take 50 text) (infoSamples info))).
Proof.
  unfold updateInfo. intro E. apply bind_Normal in E. destruct E as [ss [Es E]].
  injection E as <-. cbn [infoTypes infoCount infoSamples].
  split; [reflexivity|]. split; [reflexivity|].
  destruct ((List.length (infoSamples info) <? 5)%nat
            && match v with JNull => false | _ => true end) eqn:Ec.
  - apply bind_Normal in Es. destruct Es as [text [Et Es]]. injection Es as <-.
    apply andb_prop in Ec. destruct Ec as [El En]. apply Nat.ltb_lt in El.
    right. split; [exact El|]. split; [intros ->; discriminate|].
    exists text. split; [exact Et | reflexivity].
  - injection Es as <-. left. reflexivity.
Qed.

Lemma updateInfo_returns (v : JVal) (info : FieldInfo) :
  printable v = true -> exists info', updateInfo v info = Normal info'.
Proof.
  intro Hp. apply jsonToString_returns in Hp. destruct Hp as [text Et].
  unfold updateInfo.
  destruct ((List.length (infoSamples info) <? 5)%nat
            && match v with JNull => false | _ => true end);
    [rewrite Et|]; eexists; reflexivity.
Qed.

(** An entry that is recorded has updated the record of its key. *)
Lemma recordEntry_Normal (fields fields' : list (string * FieldInfo))
  (key : string) (value : JVal) :
  recordEntry fields (key, value) = Normal fields' ->
  exists info',
    updateInfo value (infoOf key fields) = Normal info'
    /\ fields' = setProp key info' fields.
Proof.
  rewrite recordEntry_unfold. unfold infoOf. destruct (assoc key fields) as [info|].
  - intro E. apply bind_Normal in E. destruct E as [info' [Eu E]]. injection E as <-.
    exists info'. split; [exact Eu | reflexivity].
  - destruct (inherited key); try discriminate.
    intro E. apply bind_Normal in E. destruct E as [info' [Eu E]]. injection E as <-.
    exists info'. split; [exact Eu | reflexivity].
Qed.

(** One entry raises the count of its key by one and leaves the others. *)
Lemma recordEntry_count (fields fields' : list (string * FieldInfo)) (e : string * JVal) :
  recordEntry fields e = Normal fields' ->
  NoDup (keys fields) ->
  NoDup (keys fields')
  /\ forall k, countOf k fields' =
               (countOf k fields + if String.eqb k (fst e) then 1 else 0)%nat.
Proof.
  destruct e as [key v]. cbn [fst]. intros E Hnd.
  destruct (recordEntry_Normal _ _ _ _ E) as [info' [Eu ->]].
  destruct (updateInfo_Normal _ _ _ Eu) as [_ [Hc _]].
  split; [apply NoDup_keys_setProp; exact Hnd|].
  intro k. unfold countOf at 1. destruct (String.eqb_spec k key) as [->|Hne].
  - rewrite assoc_setProp_same, Hc. unfold countOf, infoOf.
    destruct (assoc key fields); simpl; lia.
  - rewrite (assoc_setProp_other key k _ fields Hne). unfold countOf. lia.
Qed.

Lemma recordEntries_count (es : list (string * JVal)) (fields fields' : list (string * FieldInfo)) :
  recordEntries fields es = Normal fields' ->
  NoDup (keys es) ->
  NoDup (keys fields) ->
  NoDup (keys fields')
  /\ forall k, countOf k fields' =
               (countOf k fields + if existsb (String.eqb k) (keys es) then 1 else 0)%nat.
Proof.
  revert fields. induction es as [|e rest IH]; simpl; intros fields E Hes Hnd.
  - injection E as <-. split; [exact Hnd|]. intro k. lia.
  - destruct (recordEntry fields e) as [f1|] eqn:E1; [|discriminate].
    inversion Hes as [|? ? Hfresh Hrest]; subst.
    destruct (recordEntry_count _ _ _ E1 Hnd) as [Hnd1 Hc1].
    destruct (IH f1 E Hrest Hnd1) as [Hnd' Hc'].
    split; [exact Hnd'|]. intro k. rewrite Hc', Hc1.
    destruct (String.eqb_spec k (fst e)) as [->|Hne]; simpl; [|lia].
    destruct (existsb (String.eqb (fst e)) (keys rest)) eqn:Ex; [|lia].
    exfalso. apply Hfresh. apply existsb_eqb_In. exact Ex.
Qed.

Lemma rowsContaining_cons (k : string) (item : JVal) (data : list JVal) :
  rowsContaining k (item :: data) =
  ((if containsKey k item then 1 else 0) + rowsContaining k data)%nat.
Proof. unfold rowsContaining. simpl. destruct (containsKey k item); reflexivity. Qed.

(** After the loop, the count of a key is the number of rows that contain
    it. *)
Lemma recordItems_count (data : list JVal) (fields fields' : list (string * FieldInfo)) :
  Forall wellFormedItem data ->
  recordItems fields data = Normal fields' ->
  NoDup (keys fields) ->
  NoDup (keys fields')
  /\ forall k, countOf k fields' = (countOf k fields + rowsContaining k data)%nat.
Proof.
  revert fields. induction data as [|item rest IH]; simpl; intros fields Hwf E Hnd.
  - injection E as <-. split; [exact Hnd|]. intro k. unfold rowsContaining. simpl. lia.
  - inversion Hwf as [|? ? Hitem Hrest]; subst.
    destruct (itemEntries item) as [es|] eqn:Ei.
    + destruct (recordEntries fields es) as [f1|] eqn:E1; [|discriminate].
      destruct (recordEntries_count _ _ _ E1 (NoDup_itemEntries _ _ Hitem Ei) Hnd)
        as [Hnd1 Hc1].
      destruct (IH f1 Hrest E Hnd1) as [Hnd' Hc'].
      split; [exact Hnd'|]. intro k.
      rewrite Hc', Hc1, rowsContaining_cons. unfold containsKey. rewrite Ei. lia.
    + destruct (IH fields Hrest E Hnd) as [Hnd' Hc'].
      split; [exact Hnd'|]. intro k.
      rewrite Hc', rowsContaining_cons. unfold containsKey. rewrite Ei. lia.
Qed.

(** Entries under keys that [Object.prototype] does not define, with
    values that [String] turns into strings, are all recorded. *)
Lemma recordEntries_returns (es : list (string * JVal)) (fields : list (string * FieldInfo)) :
  (forall k, In k (keys es) -> inherited k = VUndefined) ->
  (forall k v, In (k, v) es -> printable v = true) ->
  exists fields', recordEntries fields es = Normal fields'.
Proof.
  revert fields. induction es as [|[k v] rest IH]; cbn [recordEntries]; intros fields Hk Hp.
  - eexists. reflexivity.
  - rewrite recordEntry_unfold.
    assert (Hk' : forall k', In k' (keys rest) -> inherited k' = VUndefined).
    { intros k' Hin. apply Hk. right. exact Hin. }
    assert (Hp' : forall k' v', In (k', v') rest -> printable v' = true).
    { intros k' v' Hin. apply (Hp k' v'). right. exact Hin. }
    assert (Hv : printable v = true) by (apply (Hp k v); left; reflexivity).
    destruct (assoc k fields) as [info|].
    + destruct (updateInfo_returns v info Hv) as [info' ->]. cbn [bind].
      apply IH; assumption.
    + rewrite (Hk k (or_introl eq_refl)).
      destruct (updateInfo_returns v emptyInfo Hv) as [info' ->]. cbn [bind].
      apply IH; assumption.
Qed.

Lemma recordItems_returns (data : list JVal) (fields : list (string * FieldInfo)) :
  (forall item es k, In item data -> itemEntries item = Some es ->
                     In k (keys es) -> inherited k = VUndefined) ->
  (forall item es k v, In item data -> itemEntries item = Some es ->
                       In (k, v) es -> printable v = true) ->
  exists fields', recordItems fields data = Normal fields'.
Proof.
  revert fields. induction data as [|item rest IH]; simpl; intros fields Hk Hp.
  - eexists. reflexivity.
  - assert (Hrest : forall item' es k, In item' rest -> itemEntries item' = Some es ->
                                       In k (keys es) -> inherited k = VUndefined).
    { intros item' es k Hin. apply Hk. right. exact Hin. }
    assert (Hprest : forall item' es k v, In item' rest -> itemEntries item' = Some es ->
                                          In (k, v) es -> printable v = true).
    { intros item' es k v Hin. apply Hp. right. exact Hin. }
    destruct (itemEntries item) as [es|] eqn:Ei; [|apply IH; assumption].
    destruct (recordEntries_returns es fields) as [f1 E1].
    { intros k Hin. apply (Hk item es k (or_introl eq_refl) Ei Hin). }
    { intros k v Hin. apply (Hp item es k v (or_introl eq_refl) Ei Hin). }
    rewrite E1. apply IH; assumption.
Qed.

(** X4. The inferencer returns a schema, and the number of all rows, for
    every non-empty upload none of whose keys is a name that
    [Object.prototype] defines and all of whose values are ones that
    [String] turns into a string (no object with an own property named
    [toString], no array holding one). *)
Theorem analyzeSchema_returns (data : list JVal) :
  data <> [] ->
  (forall item es k, In item data -> itemEntries item = Some es ->
                     In k (keys es) -> inherited k = VUndefined) ->
  (forall item es k v, In item data -> itemEntries item = Some es ->
                       In (k, v) es -> printable v = true) ->
  exists sch, analyzeSchema data = Normal (Analysis sch (List.length data)).
Proof.
  intros Hne Hk Hp. unfold analyzeSchema.
  destruct data as [|item rest]; [contradiction|].
  destruct (recordItems_returns (item :: rest) [] Hk Hp) as [fields E].
  rewrite E. eexists. reflexivity.
Qed.

(** X4 at five uploaded rows of which three are objects. *)
Lemma analyzeSchema_returns_witness :
  mixedUpload <> []
  /\ (forall item es k, In item mixedUpload -> itemEntries item = Some es ->
                        In k (keys es) -> inherited k = VUndefined)
  /\ (forall item es k v, In item mixedUpload -> itemEntries item = Some es ->
                          In (k, v) es -> printable v = true)
  /\ exists sch, analyzeSchema mixedUpload = Normal (Analysis sch (List.length mixedUpload)).
Proof.
  assert (Hk : forall item es k, In item mixedUpload -> itemEntries item = Some es ->
                                 In k (keys es) -> inherited k = VUndefined).
  { intros item es k Hin Ei Hkin. simpl in Hin.
    destruct Hin as [<-|[<-|[<-|[<-|[<-|[]]]]]]; vm_compute in Ei;
      try discriminate; injection Ei as <-; simpl in Hkin;
      repeat (destruct Hkin as [<-|Hkin]; [reflexivity|]); contradiction. }
  assert (Hp : forall item es k v, In item mixedUpload -> itemEntries item = Some es ->
                                   In (k, v) es -> printable v = true).
  { intros item es k v Hin Ei Hkin. simpl in Hin.
    destruct Hin as [<-|[<-|[<-|[<-|[<-|[]]]]]]; vm_compute in Ei;
      try discriminate; injection Ei as <-; simpl in Hkin;
      repeat (destruct Hkin as [Hkin|Hkin]; [injection Hkin as <- <-; reflexivity|]);
      contradiction. }
  split; [discriminate|]. split; [exact Hk|]. split; [exact Hp|].
  exact (analyzeSchema_returns mixedUpload (fun E => nil_cons (eq_sym E)) Hk Hp).
Defined.

(** The quotient is rounded before it is scaled: 29 rows of 200 are
    14.499999999999998 per cent, and the coverage is 14. *)
Lemma coverage_of_29_in_200 :
  Num.toString (PrimFloat.mul (PrimFloat.div (Num.ofNat 29) (Num.ofNat 200)) (Num.ofNat 100))
  = "14.499999999999998"
  /\ coverageOf 29 200 = Num.ofZ 14.
Proof. split; vm_compute; reflexivity. Qed.

(** ** C9 *)

(** C9. For a non-empty upload that the inferencer turns into a schema,
    the coverage of each field is [Math.round] of the number of rows that
    contain its key, divided by the number of all uploaded rows, times 100;
    rows that are no objects add to no count and still count in the
    divisor, which is also the reported row count. *)
Theorem coverage_counts_all_rows
  (data : list JVal) (sch : list SchemaField) (rowCount : nat) (f : SchemaField) :
  Forall wellFormedItem data ->
  analyzeSchema data = Normal (Analysis sch rowCount) ->
  In f sch ->
  data <> []
  /\ rowCount = List.length data
  /\ coverage f =
       Num.mathRound
         (PrimFloat.mul
            (PrimFloat.div (Num.ofNat (rowsContaining (name f) data))
                           (Num.ofNat (List.length data)))
            (Num.ofNat 100)).
Proof.
  intros Hwf E Hin. unfold analyzeSchema in E.
  destruct data as [|item rest]; [discriminate|].
  destruct (recordItems [] (item :: rest)) as [fields|] eqn:Er; [|discriminate].
  injection E as <- <-.
  split; [discriminate|]. split; [reflexivity|].
  destruct (recordItems_count _ _ _ Hwf Er (NoDup_nil _)) as [Hnd Hc].
  apply in_map_iff in Hin. destruct Hin as [[k info] [<- Hin]].
  apply In_entries in Hin. apply (In_assoc _ _ _ Hnd) in Hin.
  simpl. unfold coverageOf.
  specialize (Hc k). unfold countOf in Hc. rewrite Hin in Hc. simpl in Hc.
  rewrite Hc. reflexivity.
Qed.

(** C9 at five uploaded rows of which three are objects: [a] is in three
    rows, coverage 60; [b] is in one, coverage 20. *)
Lemma coverage_counts_all_rows_witness :
  Forall wellFormedItem mixedUpload
  /\ analyzeSchema mixedUpload
     = Normal (Analysis
                 [ {| name := "a"; type := TNumber; types := [ TNumber ];
                      coverage := Num.ofZ 60; samples := [ "1"; "2"; "3" ] |};
                   {| name := "b"; type := TString; types := [ TString ];
                      coverage := Num.ofZ 20; samples := [ "x" ] |} ]
                 5)
  /\ coverage {| name := "b"; type := TString; types := [ TString ];
                 coverage := Num.ofZ 20; samples := [ "x" ] |}
     = Num.mathRound
         (PrimFloat.mul
            (PrimFloat.div (Num.ofNat (rowsContaining "b" mixedUpload))
                           (Num.ofNat (List.length mixedUpload)))
            (Num.ofNat 100)).
Proof.
  assert (Hwf : Forall wellFormedItem mixedUpload).
  { repeat constructor; simpl; intuition discriminate. }
  assert (E : analyzeSchema mixedUpload
              = Normal (Analysis
                 [ {| name := "a"; type := TNumber; types := [ TNumber ];
                      coverage := Num.ofZ 60; samples := [ "1"; "2"; "3" ] |};
                   {| name := "b"; type := TString; types := [ TString ];
                      coverage := Num.ofZ 20; samples := [ "x" ] |} ]
                 5)).
  { vm_compute. reflexivity. }
  split; [exact Hwf|]. split; [exact E|].
  exact (proj2 (proj2 (coverage_counts_all_rows mixedUpload _ 5 _ Hwf E
                         (or_intror (or_introl eq_refl))))).
Defined.

(* ================================================================== *)
(** * Part III. Further properties *)
(* ================================================================== *)

(** ** The schema inferencer, field by field *)

Lemma infoOf_setProp (k k' : string) (info : FieldInfo) (fields : list (string * FieldInfo)) :
  infoOf k' (setProp k info fields) = if String.eqb k' k then info else infoOf k' fields.
Proof.
  unfold infoOf. destruct (String.eqb_spec k' k) as [->|Hne].
  - rewrite assoc_setProp_same. reflexivity.
  - rewrite (assoc_setProp_other k k' info fields Hne). reflexivity.
Qed.

(** One entry updates the record of its key and keeps the others. *)
Lemma recordEntry_info (fields fields' : list (string * FieldInfo)) (e : string * JVal) :
  recordEntry fields e = Normal fields' ->
  (NoDup (keys fields) -> NoDup (keys fields'))
  /\ (forall k, In k (keys fields') <-> In k (keys fields) \/ k = fst e)
  /\ exists info',
       updateInfo (snd e) (infoOf (fst e) fields) = Normal info'
       /\ forall k, infoOf k fields' = if String.eqb k (fst e) then info' else infoOf k fields.
Proof.
  destruct e as [key v]. cbn [fst snd]. intro E.
  destruct (recordEntry_Normal _ _ _ _ E) as [info' [Eu ->]].
  split; [apply NoDup_keys_setProp|]. split; [intro k; apply In_keys_setProp|].
  exists info'. split; [exact Eu|]. intro k. apply infoOf_setProp.
Qed.

Lemma recordEntries_info (es : list (string * JVal)) (fields fields' : list (string * FieldInfo)) :
  recordEntries fields es = Normal fields' ->
  (NoDup (keys fields) -> NoDup (keys fields'))
  /\ (forall k, In k (keys fields') <-> In k (keys fields) \/ In k (keys es))
  /\ (forall k, foldInfo (valuesIn k es) (infoOf k fields) = Normal (infoOf k fields')).
Proof.
  revert fields. induction es as [|e rest IH]; cbn [recordEntries]; intros fields E.
  - injection E as <-. split; [tauto|]. split; [intro k; simpl; tauto | reflexivity].
  - destruct (recordEntry fields e) as [f1|] eqn:E1; [|discriminate].
    destruct (recordEntry_info _ _ _ E1) as [Hnd1 [Hk1 [info' [Eu Hi1]]]].
    destruct (IH f1 E) as [Hnd' [Hk' Hi']].
    split; [tauto|]. split.
    + intro k. rewrite Hk', Hk1. simpl. intuition.
    + intro k. specialize (Hi' k). rewrite Hi1 in Hi'. unfold valuesIn.
      cbn [List.filter]. rewrite (String.eqb_sym (fst e) k).
      destruct (String.eqb_spec k (fst e)) as [Ek|Hne].
      * subst k. cbn [map foldInfo]. rewrite Eu. exact Hi'.
      * exact Hi'.
Qed.

Lemma foldInfo_app (a b : list JVal) (info mid : FieldInfo) :
  foldInfo a info = Normal mid ->
  foldInfo (a ++ b) info = foldInfo b mid.
Proof.
  revert info. induction a as [|v a IH]; simpl; intros info E.
  - injection E as <-. reflexivity.
  - destruct (updateInfo v info) as [info1|]; [|discriminate]. simpl in E. simpl.
    apply IH. exact E.
Qed.

(** After the loop, the record of each key is the fold of [updateInfo]
    over the values the upload holds under it. *)
Lemma recordItems_info (data : list JVal) (fields fields' : list (string * FieldInfo)) :
  recordItems fields data = Normal fields' ->
  (NoDup (keys fields) -> NoDup (keys fields'))
  /\ (forall k, In k (keys fields') <-> In k (keys fields) \/ In k (allKeys data))
  /\ (forall k, foldInfo (valuesOf k data) (infoOf k fields) = Normal (infoOf k fields')).
Proof.
  revert fields. induction data as [|item rest IH]; simpl; intros fields E.
  - injection E as <-. split; [tauto|]. split; [intro k; tauto | reflexivity].
  - destruct (itemEntries item) as [es|] eqn:Ei.
    + destruct (recordEntries fields es) as [f1|] eqn:E1; [|discriminate].
      destruct (recordEntries_info _ _ _ E1) as [Hnd1 [Hk1 Hi1]].
      destruct (IH f1 E) as [Hnd' [Hk' Hi']].
      split; [tauto|]. split.
      * intro k. rewrite Hk', Hk1, in_app_iff. tauto.
      * intro k. rewrite (foldInfo_app _ _ _ _ (Hi1 k)). apply Hi'.
    + exact (IH fields E).
Qed.

(** A field of the returned schema is the record of its name. *)
Lemma schema_field_info (data : list JVal) (sch : list SchemaField) (n : nat) (f : SchemaField) :
  analyzeSchema data = Normal (Analysis sch n) ->
  In f sch ->
  In (name f) (allKeys data)
  /\ exists info,
       foldInfo (valuesOf (name f) data) emptyInfo = Normal info
       /\ types f = infoTypes info
       /\ samples f = infoSamples info
       /\ type f = match types f with [t] => t | _ => TMixed end.
Proof.
  unfold analyzeSchema. destruct data as [|item rest]; [discriminate|].
  destruct (recordItems [] (item :: rest)) as [fields|] eqn:Er; [|discriminate].
  intros E Hin. injection E as <- <-.
  destruct (recordItems_info _ _ _ Er) as [Hnd [Hk Hi]].
  apply in_map_iff in Hin. destruct Hin as [[k info] [<- Hin]].
  apply In_entries in Hin.
  pose proof (In_assoc _ _ _ (Hnd (NoDup_nil _)) Hin) as Ha.
  specialize (Hi k). unfold infoOf at 2 in Hi. rewrite Ha in Hi.
  change (infoOf k []) with emptyInfo in Hi.
  cbn [toSchemaField name types samples type].
  split.
  - apply (in_map fst) in Hin. apply Hk in Hin. destruct Hin as [[]|Hin]. exact Hin.
  - exists info. split; [exact Hi|]. repeat split.
Qed.

Lemma FieldType_eqb_eq (a b : FieldType) : FieldType_eqb a b = true <-> a = b.
Proof. destruct a, b; simpl; split; intro E; try reflexivity; discriminate. Qed.

Section SetAdd.

Context {A : Type} (eqb : A -> A -> bool).
Hypothesis eqb_eq : forall a b, eqb a b = true <-> a = b.

Lemma existsb_eqb_iff (x : A) (s : list A) : existsb (eqb x) s = true <-> In x s.
Proof.
  rewrite existsb_exists. split.
  - intros [y [Hin E]]. apply eqb_eq in E. subst y. exact Hin.
  - intro Hin. exists x. split; [exact Hin | apply eqb_eq; reflexivity].
Qed.

Lemma In_setAdd (x a : A) (s : list A) : In x (setAdd eqb a s) <-> In x s \/ x = a.
Proof.
  unfold setAdd. destruct (existsb (eqb a) s) eqn:E.
  - apply existsb_eqb_iff in E. split; [left; assumption|].
    intros [Hi | ->]; assumption.
  - rewrite in_app_iff. simpl. intuition.
Qed.

Lemma NoDup_setAdd (a : A) (s : list A) : NoDup s -> NoDup (setAdd eqb a s).
Proof.
  intro Hnd. unfold setAdd. destruct (existsb (eqb a) s) eqn:E; [exact Hnd|].
  apply NoDup_app; [exact Hnd | constructor; [intros [] | constructor] |].
  intros x Hx [Ex|[]]. subst x.
  apply existsb_eqb_iff in Hx. rewrite Hx in E. discriminate.
Qed.

Lemma length_setAdd (a : A) (s : list A) :
  (List.length (setAdd eqb a s) <= S (List.length s))%nat.
Proof.
  unfold setAdd. destruct (existsb (eqb a) s); [lia|].
  rewrite length_app. simpl. lia.
Qed.

End SetAdd.

Lemma length_take (n : nat) (s : string) : (String.length (Str.take n s) <= n)%nat.
Proof.
  revert s. induction n as [|n IH]; intro s; simpl; [lia|].
  destruct s as [|c s]; simpl; [lia|]. specialize (IH s). lia.
Qed.

(** The type set of a record after a run of values. *)
Lemma foldInfo_types (vs : list JVal) (info info' : FieldInfo) :
  foldInfo vs info = Normal info' ->
  (NoDup (infoTypes info) -> NoDup (infoTypes info'))
  /\ forall t, In t (infoTypes info')
               <-> In t (infoTypes info) \/ In t (map inferType vs).
Proof.
  revert info. induction vs as [|v vs IH]; intro info; simpl; intro E.
  - injection E as <-. split; [tauto | intro t; tauto].
  - destruct (updateInfo v info) as [info1|] eqn:Eu; [|discriminate]. simpl in E.
    destruct (updateInfo_Normal _ _ _ Eu) as [Ht _].
    destruct (IH info1 E) as [Hnd Hin]. split.
    + intro H0. apply Hnd. rewrite Ht. apply (NoDup_setAdd _ FieldType_eqb_eq). exact H0.
    + intro t. rewrite Hin, Ht.
      rewrite (In_setAdd _ FieldType_eqb_eq). intuition.
Qed.

(** The samples of a record after a run of values. *)
Lemma foldInfo_samples (vs : list JVal) (info info' : FieldInfo) :
  let good (ss : list string) :=
    (List.length ss <= 5)%nat /\ NoDup ss in
  foldInfo vs info = Normal info' ->
  good (infoSamples info) ->
  good (infoSamples info')
  /\ forall s, In s (infoSamples info') ->
               In s (infoSamples info)
               \/ exists v text, In v vs /\ v <> JNull
                                 /\ jsonToString v = Normal text
                                 /\ s = Str.take 50 text.
Proof.
  cbv zeta. revert info. induction vs as [|v vs IH]; intros info E [Hlen Hnd]; simpl in E.
  - injection E as <-. split; [split; assumption | intros s Hs; left; exact Hs].
  - destruct (updateInfo v info) as [info1|] eqn:Eu; [|discriminate]. simpl in E.
    destruct (updateInfo_Normal _ _ _ Eu) as [_ [_ Hs1]].
    assert (Hgood : (List.length (infoSamples info1) <= 5)%nat /\ NoDup (infoSamples info1)).
    { destruct Hs1 as [-> | [El [_ [text [_ ->]]]]]; [split; assumption|].
      split; [|apply (NoDup_setAdd _ String.eqb_eq); exact Hnd].
      pose proof (length_setAdd String.eqb (Str.take 50 text) (infoSamples info)).
      lia. }
    destruct (IH info1 E Hgood) as [Hg Hin]. split; [exact Hg|].
    intros s Hs. destruct (Hin s Hs) as [H0 | [v' [text' [Hv' [Hn' [Et' Es]]]]]].
    + destruct Hs1 as [Hs1 | [_ [Hn [text [Et Hs1]]]]]; rewrite Hs1 in H0;
        [left; exact H0|].
      apply (In_setAdd _ String.eqb_eq) in H0. destruct H0 as [H0 | ->]; [left; exact H0|].
      right. exists v, text. split; [left; reflexivity|]. repeat split; assumption.
    + right. exists v', text'. split; [right; exact Hv'|]. repeat split; assumption.
Qed.

Lemma valuesIn_nonempty (k : string) (es : list (string * JVal)) :
  In k (keys es) -> valuesIn k es <> [].
Proof.
  induction es as [|[k' v] es IH]; simpl; [intros []|].
  unfold valuesIn. simpl. intros [-> | Hin].
  - rewrite String.eqb_refl. discriminate.
  - destruct (String.eqb k' k); [discriminate | apply IH; exact Hin].
Qed.

Lemma valuesOf_nonempty (k : string) (data : list JVal) :
  In k (allKeys data) -> valuesOf k data <> [].
Proof.
  induction data as [|item rest IH]; simpl; [intros []|].
  rewrite in_app_iff. intros [Hin | Hin] E; apply app_eq_nil in E; destruct E as [E1 E2].
  - destruct (itemEntries item) as [es|]; [|contradiction].
    exact (valuesIn_nonempty k es Hin E1).
  - exact (IH Hin E2).
Qed.

Lemma In_allKeys (k : string) (data : list JVal) :
  In k (allKeys data) <-> exists item, In item data /\ containsKey k item = true.
Proof.
  unfold allKeys. rewrite in_flat_map. unfold containsKey.
  split; intros [item [Hin H]]; exists item; (split; [exact Hin|]);
    destruct (itemEntries item) as [es|]; try contradiction; try discriminate.
  - apply existsb_eqb_In. exact H.
  - apply existsb_eqb_In. exact H.
Qed.

(** ** X5 *)

(** X5. The schema the inferencer returns has exactly one field for each
    key that some row it reads contains: the field names are distinct, and
    a string is a field name exactly when a row contains it as a key. *)
Theorem schema_has_one_field_per_key (data : list JVal) (sch : list SchemaField) (n : nat) :
  analyzeSchema data = Normal (Analysis sch n) ->
  NoDup (map name sch)
  /\ forall k, In k (map name sch)
               <-> exists item, In item data /\ containsKey k item = true.
Proof.
  unfold analyzeSchema. destruct data as [|item rest]; [discriminate|].
  destruct (recordItems [] (item :: rest)) as [fields|] eqn:Er; [|discriminate].
  intro E. injection E as <- <-.
  destruct (recordItems_info _ _ _ Er) as [Hnd [Hk _]].
  assert (Hnames : forall total,
             map name (map (toSchemaField total) (entries fields)) = keys (entries fields)).
  { intro total. rewrite map_map. apply map_ext. intros [k info]. reflexivity. }
  rewrite Hnames. split.
  - apply NoDup_keys_entries. apply Hnd. constructor.
  - intro k. rewrite <- In_allKeys. split.
    + intro Hin. apply (Permutation_in k (Permutation_map fst (Permutation_entries fields))) in Hin.
      apply Hk in Hin. destruct Hin as [[]|Hin]. exact Hin.
    + intro Hin.
      apply (Permutation_in k (Permutation_sym (Permutation_map fst (Permutation_entries fields)))).
      apply Hk. right. exact Hin.
Qed.

(** X5 at four uploaded rows with the keys [a] and [b]. *)
Lemma schema_has_one_field_per_key_witness :
  analyzeSchema mixedTypesUpload = Normal (Analysis mixedTypesSchema 4)
  /\ NoDup (map name mixedTypesSchema)
  /\ forall k, In k (map name mixedTypesSchema)
               <-> exists item, In item mixedTypesUpload /\ containsKey k item = true.
Proof.
  assert (E : analyzeSchema mixedTypesUpload = Normal (Analysis mixedTypesSchema 4)).
  { vm_compute. reflexivity. }
  split; [exact E|].
  exact (schema_has_one_field_per_key mixedTypesUpload mixedTypesSchema 4 E).
Defined.

(** ** X6 *)

(** X6. In a returned schema, the observed types of a field are, without
    repetition, exactly the types [inferType] gives the values found under
    its name; there is at least one, and the field's type is that one when
    it is the only one and 'mixed' when there are several. *)
Theorem field_types_are_the_inferred_types
  (data : list JVal) (sch : list SchemaField) (n : nat) (f : SchemaField) :
  analyzeSchema data = Normal (Analysis sch n) ->
  In f sch ->
  NoDup (types f)
  /\ (forall t, In t (types f)
                <-> exists v, In v (valuesOf (name f) data) /\ inferType v = t)
  /\ (types f = [ type f ]
      \/ (type f = TMixed /\ (2 <= List.length (types f))%nat)).
Proof.
  intros E Hin.
  destruct (schema_field_info data sch n f E Hin) as [Hk [info [Ef [Ht [_ Hty]]]]].
  destruct (foldInfo_types (valuesOf (name f) data) emptyInfo info Ef) as [Hnd Hmem].
  rewrite <- Ht in Hnd, Hmem.
  assert (Hiff : forall t, In t (types f)
                           <-> exists v, In v (valuesOf (name f) data) /\ inferType v = t).
  { intro t. rewrite Hmem, in_map_iff. simpl. split.
    - intros [[]|[v [Ev Hv]]]. exists v. split; assumption.
    - intros [v [Hv Ev]]. right. exists v. split; assumption. }
  split; [apply Hnd; constructor|]. split; [exact Hiff|].
  destruct (types f) as [|t1 [|t2 rest]] eqn:Et.
  - exfalso. pose proof (valuesOf_nonempty _ _ Hk) as Hne.
    destruct (valuesOf (name f) data) as [|v vs]; [apply Hne; reflexivity|].
    apply (proj2 (Hiff (inferType v))). exists v. split; [left|]; reflexivity.
  - left. rewrite Hty. reflexivity.
  - right. split; [exact Hty | simpl; lia].
Qed.

(** X6 at the field [a], a number, a string and a null in three rows. *)
Lemma field_types_are_the_inferred_types_witness :
  analyzeSchema mixedTypesUpload = Normal (Analysis mixedTypesSchema 4)
  /\ In {| name := "a"; type := TMixed; types := [ TNumber; TString; TNull ];
           coverage := Num.ofZ 75; samples := [ "1"; "one" ] |} mixedTypesSchema
  /\ NoDup [ TNumber; TString; TNull ]
  /\ (forall t, In t [ TNumber; TString; TNull ]
                <-> exists v, In v (valuesOf "a" mixedTypesUpload) /\ inferType v = t)
  /\ ([ TNumber; TString; TNull ] = [ TMixed ]
      \/ (TMixed = TMixed /\ (2 <= 3)%nat)).
Proof.
  assert (E : analyzeSchema mixedTypesUpload = Normal (Analysis mixedTypesSchema 4)).
  { vm_compute. reflexivity. }
  split; [exact E|]. split; [left; reflexivity|].
  exact (field_types_are_the_inferred_types mixedTypesUpload mixedTypesSchema 4 _ E
           (or_introl eq_refl)).
Defined.

(** ** X7 *)

(** X7. In a returned schema, every field has at most five samples, no two
    of them equal and none longer than fifty characters, and each sample is
    the first fifty characters of the string of a value, other than null,
    found under the field's name. *)
Theorem samples_are_bounded
  (data : list JVal) (sch : list SchemaField) (n : nat) (f : SchemaField) :
  analyzeSchema data = Normal (Analysis sch n) ->
  In f sch ->
  (List.length (samples f) <= 5)%nat
  /\ NoDup (samples f)
  /\ forall s, In s (samples f) ->
               (String.length s <= 50)%nat
               /\ exists v text, In v (valuesOf (name f) data)
                                 /\ v <> JNull
                                 /\ jsonToString v = Normal text
                                 /\ s = Str.take 50 text.
Proof.
  intros E Hin.
  destruct (schema_field_info data sch n f E Hin) as [_ [info [Ef [_ [Hs _]]]]].
  destruct (foldInfo_samples (valuesOf (name f) data) emptyInfo info Ef)
    as [[Hlen Hnd] Hsrc].
  { simpl. split; [lia | constructor]. }
  rewrite <- Hs in Hlen, Hnd, Hsrc.
  split; [exact Hlen|]. split; [exact Hnd|].
  intros s Hsin. destruct (Hsrc s Hsin) as [[] | [v [text [Hv [Hn [Et Es]]]]]].
  split; [rewrite Es; apply length_take|].
  exists v, text. repeat split; assumption.
Qed.

(** X7 at the field [a]: the null of the fourth row is no sample. *)
Lemma samples_are_bounded_witness :
  analyzeSchema mixedTypesUpload = Normal (Analysis mixedTypesSchema 4)
  /\ In {| name := "a"; type := TMixed; types := [ TNumber; TString; TNull ];
           coverage := Num.ofZ 75; samples := [ "1"; "one" ] |} mixedTypesSchema
  /\ (2 <= 5)%nat
  /\ NoDup [ "1"; "one" ]
  /\ forall s, In s [ "1"; "one" ] ->
               (String.length s <= 50)%nat
               /\ exists v text, In v (valuesOf "a" mixedTypesUpload)
                                 /\ v <> JNull
                                 /\ jsonToString v = Normal text
                                 /\ s = Str.take 50 text.
Proof.
  assert (E : analyzeSchema mixedTypesUpload = Normal (Analysis mixedTypesSchema 4)).
  { vm_compute. reflexivity. }
  split; [exact E|]. split; [left; reflexivity|].
  exact (samples_are_bounded mixedTypesUpload mixedTypesSchema 4 _ E (or_introl eq_refl)).
Defined.

(** ** X8 *)

Lemma itemEntries_isObjectLike (item : JVal) :
  isObjectLike item = false <-> itemEntries item = None.
Proof. destruct item; simpl; split; intro E; try reflexivity; discriminate. Qed.

(** Rows that are no objects leave the records as they are. *)
Lemma recordItems_objects_only (data : list JVal) (fields : list (string * FieldInfo)) :
  recordItems fields (List.filter isObjectLike data) = recordItems fields data.
Proof.
  revert fields. induction data as [|item rest IH]; intro fields; simpl; [reflexivity|].
  destruct (isObjectLike item) eqn:Eo; simpl.
  - destruct (itemEntries item) as [es|]; [|apply IH].
    destruct (recordEntries fields es); [apply IH | reflexivity].
  - apply itemEntries_isObjectLike in Eo. rewrite Eo. apply IH.
Qed.

Lemma describe_toSchemaField (t t' : nat) (es : list (string * FieldInfo)) :
  map describe (map (toSchemaField t) es) = map describe (map (toSchemaField t') es).
Proof. rewrite !map_map. apply map_ext. intros [k info]. reflexivity. Qed.

(** X8. Rows that are neither objects nor arrays add nothing to a returned
    schema but their number: without them the upload has the same fields,
    in the same order, with the same types and samples, and only the
    coverages and the row count are taken over fewer rows; if there is no
    other row, the schema is empty. *)
Theorem non_object_rows_only_count (data : list JVal) (sch : list SchemaField) (n : nat) :
  analyzeSchema data = Normal (Analysis sch n) ->
  n = List.length data
  /\ match List.filter isObjectLike data with
     | [] => sch = []
     | _ :: _ =>
         exists sch',
           analyzeSchema (List.filter isObjectLike data)
           = Normal (Analysis sch' (List.length (List.filter isObjectLike data)))
           /\ map describe sch = map describe sch'
     end.
Proof.
  unfold analyzeSchema at 1. destruct data as [|item rest]; [discriminate|].
  destruct (recordItems [] (item :: rest)) as [fields|] eqn:Er; [|discriminate].
  intro E. injection E as <- <-. split; [reflexivity|].
  rewrite <- recordItems_objects_only in Er.
  destruct (List.filter isObjectLike (item :: rest)) as [|o os] eqn:Ef.
  - simpl in Er. injection Er as <-. reflexivity.
  - unfold analyzeSchema. rewrite Er. eexists. split; [reflexivity|].
    apply describe_toSchemaField.
Qed.

(** X8 at four uploaded rows of which one is a string. *)
Lemma non_object_rows_only_count_witness :
  analyzeSchema mixedTypesUpload = Normal (Analysis mixedTypesSchema 4)
  /\ 4%nat = List.length mixedTypesUpload
  /\ exists sch',
       analyzeSchema (List.filter isObjectLike mixedTypesUpload)
       = Normal (Analysis sch' (List.length (List.filter isObjectLike mixedTypesUpload)))
       /\ map describe mixedTypesSchema = map describe sch'.
Proof.
  assert (E : analyzeSchema mixedTypesUpload = Normal (Analysis mixedTypesSchema 4)).
  { vm_compute. reflexivity. }
  split; [exact E|].
  exact (non_object_rows_only_count mixedTypesUpload mixedTypesSchema 4 E).
Defined.

(** ** X9 *)

Lemma keys_setProp_addKey {A : Type} (k : string) (a : A) (o : list (string * A)) :
  keys (setProp k a o) = addKey (keys o) k.
Proof.
  unfold addKey. destruct (assoc k o) as [a0|] eqn:E.
  - rewrite (keys_setProp_present k a a0 o E).
    apply assoc_Some_In in E. apply (in_map fst) in E. simpl in E.
    apply existsb_eqb_In in E. unfold keys. rewrite E. reflexivity.
  - rewrite (keys_setProp_absent k a o E).
    destruct (existsb (String.eqb k) (keys o)) eqn:Ex; [|reflexivity].
    apply existsb_eqb_In in Ex. exfalso. exact (proj1 (assoc_None_iff k o) E Ex).
Qed.

Lemma recordEntries_order (es : list (string * JVal)) (fields fields' : list (string * FieldInfo)) :
  recordEntries fields es = Normal fields' ->
  keys fields' = fold_left addKey (keys es) (keys fields).
Proof.
  revert fields. induction es as [|e rest IH]; simpl; intros fields E.
  - injection E as <-. reflexivity.
  - destruct (recordEntry fields e) as [f1|] eqn:E1; [|discriminate].
    rewrite (IH f1 E). f_equal.
    destruct e as [k v]. cbn [fst].
    destruct (recordEntry_Normal _ _ _ _ E1) as [info' [_ ->]].
    apply keys_setProp_addKey.
Qed.

(** The records are stored in the order in which their keys are first
    met. *)
Lemma recordItems_order (data : list JVal) (fields fields' : list (string * FieldInfo)) :
  recordItems fields data = Normal fields' ->
  keys fields' = fold_left addKey (allKeys data) (keys fields).
Proof.
  revert fields. induction data as [|item rest IH]; simpl; intros fields E.
  - injection E as <-. reflexivity.
  - destruct (itemEntries item) as [es|].
    + destruct (recordEntries fields es) as [f1|] eqn:E1; [|discriminate].
      rewrite fold_left_app, <- (recordEntries_order es fields f1 E1). apply IH. exact E.
    + apply IH. exact E.
Qed.

Lemma keys_filter {A : Type} (p : string -> bool) (l : list (string * A)) :
  keys (List.filter (fun e => p (fst e)) l) = List.filter p (keys l).
Proof.
  induction l as [|[k a] l IH]; simpl; [reflexivity|].
  destruct (p k); simpl; rewrite IH; reflexivity.
Qed.

Lemma HdRel_insertByIndex {A : Type} (x e : string * A) (l : list (string * A)) :
  indexOf (fst x) <= indexOf (fst e) ->
  HdRel (fun a b => indexOf (fst a) <= indexOf (fst b)) x l ->
  HdRel (fun a b => indexOf (fst a) <= indexOf (fst b)) x (insertByIndex e l).
Proof.
  intros Hxe Hx. destruct l as [|y l]; simpl.
  - constructor. exact Hxe.
  - destruct (indexOf (fst e) <=? indexOf (fst y)); constructor; [exact Hxe|].
    inversion Hx. assumption.
Qed.

Lemma Sorted_insertByIndex {A : Type} (e : string * A) (l : list (string * A)) :
  Sorted (fun a b => indexOf (fst a) <= indexOf (fst b)) l ->
  Sorted (fun a b => indexOf (fst a) <= indexOf (fst b)) (insertByIndex e l).
Proof.
  induction l as [|y l IH]; simpl; intro Hs.
  - constructor; constructor.
  - destruct (indexOf (fst e) <=? indexOf (fst y)) eqn:Ec.
    + constructor; [exact Hs|]. constructor. apply Z.leb_le. exact Ec.
    + inversion Hs as [|? ? Hs' Hhd]; subst. constructor; [apply IH; exact Hs'|].
      apply HdRel_insertByIndex; [|exact Hhd]. apply Z.leb_gt in Ec. lia.
Qed.

Lemma Sorted_sortByIndex {A : Type} (l : list (string * A)) :
  Sorted (fun a b => indexOf (fst a) <= indexOf (fst b)) (sortByIndex l).
Proof.
  induction l as [|e l IH]; simpl; [constructor|].
  apply Sorted_insertByIndex. exact IH.
Qed.

Lemma Sorted_keys {A : Type} (l : list (string * A)) :
  Sorted (fun a b => indexOf (fst a) <= indexOf (fst b)) l ->
  Sorted (fun a b => indexOf a <= indexOf b) (keys l).
Proof.
  induction 1 as [|e l Hs IH Hhd]; simpl; constructor; [exact IH|].
  destruct Hhd; simpl; constructor. assumption.
Qed.

(** X9. The fields of a returned schema stand in the order of
    [Object.entries]: first the names that are array indices, ascending by
    value, then the other names in the order in which the inferencer first
    meets them. *)
Theorem schema_order (data : list JVal) (sch : list SchemaField) (n : nat) :
  analyzeSchema data = Normal (Analysis sch n) ->
  exists indices,
    map name sch
    = (indices ++ List.filter (fun k => negb (isArrayIndex k)) (firstSeen (allKeys data)))%list
    /\ Permutation indices (List.filter isArrayIndex (firstSeen (allKeys data)))
    /\ Sorted (fun a b => indexOf a <= indexOf b) indices.
Proof.
  unfold analyzeSchema. destruct data as [|item rest]; [discriminate|].
  destruct (recordItems [] (item :: rest)) as [fields|] eqn:Er; [|discriminate].
  intro E. injection E as <- <-.
  pose proof (recordItems_order _ _ _ Er) as Hord. change (keys []) with (@nil string) in Hord.
  fold (firstSeen (allKeys (item :: rest))) in Hord.
  exists (keys (sortByIndex (List.filter (fun e => isArrayIndex (fst e)) fields))).
  split; [|split].
  - rewrite map_map.
    transitivity (keys (entries fields)); [apply map_ext; intros [k info]; reflexivity|].
    unfold entries, keys. rewrite map_app. f_equal.
    fold (keys (List.filter (fun e => negb (isArrayIndex (fst e))) fields)).
    rewrite (keys_filter (fun k => negb (isArrayIndex k)) fields), Hord. reflexivity.
  - rewrite <- Hord, <- (keys_filter isArrayIndex fields).
    apply Permutation_map, Permutation_sortByIndex.
  - apply Sorted_keys, Sorted_sortByIndex.
Qed.

(** X9 at a row with the keys [b], [a] followed by a row with the keys
    [10], [2]: the schema lists [2], [10], [b], [a]. *)
Lemma schema_order_witness :
  analyzeSchema indexKeysUpload = Normal (Analysis indexKeysSchema 2)
  /\ map name indexKeysSchema = [ "2"; "10"; "b"; "a" ]
  /\ firstSeen (allKeys indexKeysUpload) = [ "b"; "a"; "2"; "10" ]
  /\ exists indices,
       map name indexKeysSchema
       = (indices ++ List.filter (fun k => negb (isArrayIndex k))
                       (firstSeen (allKeys indexKeysUpload)))%list
       /\ Permutation indices (List.filter isArrayIndex (firstSeen (allKeys indexKeysUpload)))
       /\ Sorted (fun a b => indexOf a <= indexOf b) indices.
Proof.
  assert (E : analyzeSchema indexKeysUpload = Normal (Analysis indexKeysSchema 2)).
  { vm_compute. reflexivity. }
  split; [exact E|]. split; [reflexivity|]. split; [vm_compute; reflexivity|].
  exact (schema_order indexKeysUpload indexKeysSchema 2 E).
Defined.

(** ** Chart-intent resolution, field by field *)

(** After the fallback, each axis variable holds a string. *)
Lemma fallback_is_string (v : option string) (c : string) :
  exists s, (if falsy v then Some c else v) = Some s
            /\ (s = c \/ (v = Some s /\ Str.isEmpty s = false)).
Proof.
  destruct v as [s|]; simpl.
  - destruct (Str.isEmpty s) eqn:E.
    + exists c. split; [reflexivity | left; reflexivity].
    + exists s. split; [reflexivity | right; split; reflexivity || exact E].
  - exists c. split; [reflexivity | left; reflexivity].
Qed.

Lemma orElse_Some (s b : string) :
  orElse (Some s) b = if Str.isEmpty s then b else s.
Proof. unfold orElse. simpl. destruct (Str.isEmpty s); reflexivity. Qed.

(** ** X10 *)

(** X10. In every resolved configuration the title is the y-field, or
    "Value" when that is empty, then " by ", then the x-field, or
    "Category" when that is empty; and the label field is the x-field for a
    pie chart and absent for every other chart type. *)
Theorem title_and_label_follow_the_axes (schema : list SchemaField) (text : string) :
  exists config,
    generateChartConfig (Some schema) text = Normal config
    /\ title config
       = (if Str.isEmpty (yField config) then "Value" else yField config)
         ++ " by "
         ++ (if Str.isEmpty (xField config) then "Category" else xField config)
    /\ labelField config
       = match chartType config with Pie => Some (xField config) | _ => None end.
Proof.
  unfold generateChartConfig.
  destruct (detectFields (Str.toLowerCase text) schema) as [x y].
  eexists. split; [reflexivity|]. cbn [title labelField chartType xField yField].
  destruct (fallback_is_string x
              (orElse (findName (fun f => FieldType_eqb (type f) TDate) schema)
                 (orElse (findName (fun f => FieldType_eqb (type f) TString) schema)
                    (orElse (nthName 0 schema) "")))) as [sx [Ex _]].
  destruct (fallback_is_string y
              (orElse (findName (fun f => isYType (type f)) schema)
                 (orElse (nthName 1 schema) ""))) as [sy [Ey _]].
  rewrite Ex, Ey, !orElse_Some_empty, !orElse_Some. split; [reflexivity|].
  destruct (detectChartType (Str.toLowerCase text)); reflexivity.
Qed.

(** ** X11 *)

Lemma detect_y_none (msg : string) (l : list SchemaField) (x y : option string) :
  find (fun f => mentioned msg f && isYType (type f)) (List.rev l) = None ->
  snd (fold_left (detectStep msg) l (x, y)) = y.
Proof.
  induction l as [|a l IH] using rev_ind; intro Hf; [reflexivity|].
  rewrite detect_snoc. rewrite rev_app_distr in Hf. simpl in Hf.
  destruct (fold_left (detectStep msg) l (x, y)) as [x' y'] eqn:E. simpl in IH.
  unfold detectStep.
  destruct (mentioned msg a); simpl in Hf.
  - destruct (isYType (type a)); simpl in Hf; [discriminate|].
    destruct (isXType (type a)); simpl; apply IH; exact Hf.
  - simpl. apply IH. exact Hf.
Qed.

(** The y-field of the resolved configuration, by the outcome of the
    loop. *)
Lemma resolved_yField (schema : list SchemaField) (text : string) :
  exists config,
    generateChartConfig (Some schema) text = Normal config
    /\ yField config =
         let fallback := orElse (findName (fun f => isYType (type f)) schema)
                           (orElse (nthName 1 schema) "") in
         match lastMentionedY (Str.toLowerCase text) schema with
         | Some f => if Str.isEmpty (name f) then fallback else name f
         | None => fallback
         end.
Proof.
  unfold generateChartConfig, detectFields, lastMentionedY.
  pose proof (detect_y_last (Str.toLowerCase text) schema None None) as Hlast.
  pose proof (detect_y_none (Str.toLowerCase text) schema None None) as Hnone.
  destruct (fold_left (detectStep (Str.toLowerCase text)) schema (None, None)) as [x y].
  eexists. split; [reflexivity|]. cbn [yField]. simpl in Hlast, Hnone.
  destruct (find _ (List.rev schema)) as [f|].
  - rewrite (Hlast f eq_refl). change (falsy (Some (name f))) with (Str.isEmpty (name f)).
    destruct (Str.isEmpty (name f)) eqn:En.
    + apply orElse_Some_empty.
    + rewrite orElse_Some, En. reflexivity.
  - rewrite (Hnone eq_refl). apply orElse_Some_empty.
Qed.

Lemma nthName_member (i : nat) (schema : list SchemaField) (b : string) :
  (exists f, In f schema /\ name f = orElse (nthName i schema) b)
  \/ orElse (nthName i schema) b = b.
Proof.
  unfold nthName. destruct (nth_error schema i) as [f|] eqn:E; simpl.
  - unfold orElse. simpl. destruct (Str.isEmpty (name f)).
    + right. reflexivity.
    + left. exists f. split; [|reflexivity]. apply (nth_error_In _ _ E).
  - right. reflexivity.
Qed.

(** X11. Each axis gets a field of the fitting kind whenever the schema can
    give one: if no field name is empty and the schema has a field of type
    number or number-string, the resolved y-field is the name of such a
    field; if it has a field of type date or string, the resolved x-field
    is the name of such a field.  In every case the y-field is a field name
    of the schema or the empty string. *)
Theorem axes_get_fitting_fields (schema : list SchemaField) (text : string) :
  exists config,
    generateChartConfig (Some schema) text = Normal config
    /\ (yField config = "" \/ exists f, In f schema /\ name f = yField config)
    /\ ((forall f, In f schema -> Str.isEmpty (name f) = false) ->
        ((exists g, In g schema /\ isYType (type g) = true) ->
         exists f, In f schema /\ name f = yField config /\ isYType (type f) = true)
        /\ ((exists g, In g schema /\ isXType (type g) = true) ->
            exists f, In f schema /\ name f = xField config /\ isXType (type f) = true)).
Proof.
  destruct (resolved_yField schema text) as [config [Hc Hy]].
  destruct (resolved_xField schema text) as [config' [Hc' Hx]].
  rewrite Hc in Hc'. injection Hc' as <-.
  exists config. split; [exact Hc|]. cbv zeta in Hy.
  assert (Hfb : orElse (findName (fun f => isYType (type f)) schema)
                  (orElse (nthName 1 schema) "") = ""
                \/ exists f, In f schema
                     /\ name f = orElse (findName (fun f => isYType (type f)) schema)
                                   (orElse (nthName 1 schema) "")).
  { destruct (findName_orElse (fun f => isYType (type f)) schema
                (orElse (nthName 1 schema) "")) as [H|H]; [right; exact H|].
    rewrite H. destruct (nthName_member 1 schema "") as [H'|H']; [right; exact H'|].
    left. exact H'. }
  split; [|intro Hn; split].
  - rewrite Hy. destruct (lastMentionedY (Str.toLowerCase text) schema) as [f|] eqn:El;
      [|exact Hfb].
    destruct (Str.isEmpty (name f)); [exact Hfb|].
    right. exists f. split; [|reflexivity].
    apply find_some in El. destruct El as [El _]. apply in_rev. exact El.
  - intros [g [Hg Tg]]. rewrite Hy.
    destruct (lastMentionedY (Str.toLowerCase text) schema) as [f|] eqn:El.
    + apply find_some in El. destruct El as [Hin Hp]. apply in_rev in Hin.
      rewrite (Hn f Hin). exists f. split; [exact Hin|]. split; [reflexivity|].
      apply andb_prop in Hp. tauto.
    + rewrite (findName_named _ schema _ Hn).
      destruct (find (fun f => isYType (type f)) schema) as [f|] eqn:Ef.
      * apply find_some in Ef. exists f. tauto.
      * exfalso. pose proof (find_none _ _ Ef g Hg) as Hc0. simpl in Hc0.
        rewrite Tg in Hc0. discriminate.
  - intros [g [Hg Tg]]. rewrite Hx, (firstNamedX_named _ _ Hn), (fallbackChain_named _ Hn).
    unfold firstMentionedX, fallbackX.
    destruct (find (fun f => mentioned (Str.toLowerCase text) f && isXType (type f)) schema)
      as [f|] eqn:Ef.
    + apply find_some in Ef. destruct Ef as [Hin Hp]. exists f.
      split; [exact Hin|]. split; [reflexivity|]. apply andb_prop in Hp. tauto.
    + destruct (find (fun f => FieldType_eqb (type f) TDate) schema) as [f|] eqn:Ed.
      * apply find_some in Ed. destruct Ed as [Hin Hp]. exists f.
        split; [exact Hin|]. split; [reflexivity|].
        apply FieldType_eqb_eq in Hp. rewrite Hp. reflexivity.
      * destruct (find (fun f => FieldType_eqb (type f) TString) schema) as [f|] eqn:Es.
        -- apply find_some in Es. destruct Es as [Hin Hp]. exists f.
           split; [exact Hin|]. split; [reflexivity|].
           apply FieldType_eqb_eq in Hp. rewrite Hp. reflexivity.
        -- exfalso. pose proof (find_none _ _ Ed g Hg) as Hd.
           pose proof (find_none _ _ Es g Hg) as Hs. simpl in Hd, Hs.
           destruct (type g); simpl in *; discriminate.
Qed.

(** ** X12 *)

(** X12. The chart type, the aggregate and the colour are keyword
    overwrites in a fixed order, so a later keyword beats an earlier one
    wherever both occur in the lower-cased text: "scatter" or "point" over
    "pie" or "donut" over "bar" over the default line; "min" over "max"
    over "count" over "average", "avg" or "mean" over the default sum;
    "pink" over "orange" over "purple" over "green" over "red" over the
    default blue. *)
Theorem later_keywords_win (schema : list SchemaField) (text : string) :
  exists config,
    generateChartConfig (Some schema) text = Normal config
    /\ chartType config =
         (if Str.includes (Str.toLowerCase text) "scatter"
             || Str.includes (Str.toLowerCase text) "point" then Scatter
          else if Str.includes (Str.toLowerCase text) "pie"
                  || Str.includes (Str.toLowerCase text) "donut" then Pie
          else if Str.includes (Str.toLowerCase text) "bar" then Bar
          else Line)
    /\ aggregate config =
         (if Str.includes (Str.toLowerCase text) "min" then Min
          else if Str.includes (Str.toLowerCase text) "max" then Max
          else if Str.includes (Str.toLowerCase text) "count" then Count
          else if Str.includes (Str.toLowerCase text) "average"
                  || Str.includes (Str.toLowerCase text) "avg"
                  || Str.includes (Str.toLowerCase text) "mean" then Average
          else Sum)
    /\ color config =
         (if Str.includes (Str.toLowerCase text) "pink" then "#ec4899"
          else if Str.includes (Str.toLowerCase text) "orange" then "#f97316"
          else if Str.includes (Str.toLowerCase text) "purple" then "#8b5cf6"
          else if Str.includes (Str.toLowerCase text) "green" then "#22c55e"
          else if Str.includes (Str.toLowerCase text) "red" then "#ef4444"
          else "#3b82f6").
Proof.
  unfold generateChartConfig.
  destruct (detectFields (Str.toLowerCase text) schema) as [x y].
  eexists. split; [reflexivity|]. cbn [chartType aggregate color].
  unfold detectChartType, detectAggregate, detectColor.
  split; [|split].
  - destruct (Str.includes (Str.toLowerCase text) "scatter"
              || Str.includes (Str.toLowerCase text) "point");
      destruct (Str.includes (Str.toLowerCase text) "pie"
                || Str.includes (Str.toLowerCase text) "donut");
      destruct (Str.includes (Str.toLowerCase text) "bar"); reflexivity.
  - destruct (Str.includes (Str.toLowerCase text) "min");
      destruct (Str.includes (Str.toLowerCase text) "max");
      destruct (Str.includes (Str.toLowerCase text) "count");
      destruct (Str.includes (Str.toLowerCase text) "average"
                || Str.includes (Str.toLowerCase text) "avg"
                || Str.includes (Str.toLowerCase text) "mean"); reflexivity.
  - destruct (Str.includes (Str.toLowerCase text) "pink");
      destruct (Str.includes (Str.toLowerCase text) "orange");
      destruct (Str.includes (Str.toLowerCase text) "purple");
      destruct (Str.includes (Str.toLowerCase text) "green");
      destruct (Str.includes (Str.toLowerCase text) "red"); reflexivity.
Qed.

(** ** The filter tokens *)

Lemma lowerChar_not_upper (c : ascii) : Str.isUpper (Str.lowerChar c) = false.
Proof.
  destruct c as [[] [] [] [] [] [] [] []]; vm_compute; reflexivity.
Qed.

Lemma toLowerCase_not_upper (s : string) :
  Str.forallb (fun c => negb (Str.isUpper c)) (Str.toLowerCase s) = true.
Proof.
  induction s as [|c s IH]; simpl; [reflexivity|].
  rewrite lowerChar_not_upper, IH. reflexivity.
Qed.

Section StringFactors.

Variable q : ascii -> bool.

Lemma forallb_tail (c : ascii) (s : string) :
  Str.forallb q (String c s) = true -> Str.forallb q s = true.
Proof. simpl. intro H. apply andb_prop in H. tauto. Qed.

Lemma forallb_dropWhile (p : ascii -> bool) (s : string) :
  Str.forallb q s = true -> Str.forallb q (Str.dropWhile p s) = true.
Proof.
  induction s as [|c s IH]; simpl; [reflexivity|]. intro H.
  destruct (p c); [|exact H]. apply IH. apply andb_prop in H. tauto.
Qed.

Lemma forallb_takeWhile (p : ascii -> bool) (s : string) :
  Str.forallb q s = true -> Str.forallb q (Str.takeWhile p s) = true.
Proof.
  induction s as [|c s IH]; simpl; [reflexivity|]. intro H.
  apply andb_prop in H. destruct H as [Hc Hs].
  destruct (p c); simpl; [|reflexivity]. rewrite Hc. apply IH. exact Hs.
Qed.

Lemma forallb_stripKeyword (kw s r : string) :
  Str.forallb q s = true -> stripKeyword kw s = Some r -> Str.forallb q r = true.
Proof.
  revert s. induction kw as [|a kw IH]; intros s H E; simpl in E.
  - injection E as <-. exact H.
  - destruct s as [|b s]; [discriminate|].
    destruct (Ascii.eqb a (foldCase b)); [|discriminate].
    apply (IH s); [apply (forallb_tail b s H) | exact E].
Qed.

End StringFactors.

Lemma forallb_takeWhile_self (p : ascii -> bool) (s : string) :
  Str.forallb p (Str.takeWhile p s) = true.
Proof.
  induction s as [|c s IH]; simpl; [reflexivity|].
  destruct (p c) eqn:E; simpl; [rewrite E; exact IH | reflexivity].
Qed.

Lemma forallb_and (p q : ascii -> bool) (s : string) :
  Str.forallb p s = true -> Str.forallb q s = true ->
  Str.forallb (fun c => p c && q c) s = true.
Proof.
  induction s as [|c s IH]; simpl; [reflexivity|]. intros Hp Hq.
  apply andb_prop in Hp. apply andb_prop in Hq.
  destruct Hp as [-> Hp], Hq as [-> Hq]. simpl. apply IH; assumption.
Qed.

(** The two captures of a match are words, and they keep a property that
    every character of the text has. *)
Lemma matchFilterAt_tokens (q : ascii -> bool) (s : string) (f : Filter) :
  Str.forallb q s = true ->
  matchFilterAt s = Some f ->
  (Str.isEmpty (field f) = false /\ Str.forallb Str.isWord (field f) = true
   /\ Str.forallb q (field f) = true)
  /\ (Str.isEmpty (value f) = false /\ Str.forallb Str.isWord (value f) = true
      /\ Str.forallb q (value f) = true).
Proof.
  intros Hq. unfold matchFilterAt.
  destruct (match stripKeyword "only" s with
            | Some r => Some r
            | None => match stripKeyword "where" s with
                      | Some r => Some r
                      | None => stripKeyword "filter" s
                      end
            end) as [r|] eqn:Ek; [|discriminate].
  assert (Hr : Str.forallb q r = true).
  { destruct (stripKeyword "only" s) as [r1|] eqn:E1.
    - injection Ek as <-. exact (forallb_stripKeyword q _ _ _ Hq E1).
    - destruct (stripKeyword "where" s) as [r2|] eqn:E2.
      + injection Ek as <-. exact (forallb_stripKeyword q _ _ _ Hq E2).
      + exact (forallb_stripKeyword q _ _ _ Hq Ek). }
  clear Ek. destruct r as [|c r0]; [discriminate|].
  destruct (Str.isSpace c); [|discriminate].
  set (r1 := Str.dropWhile Str.isSpace (String c r0)).
  assert (H1 : Str.forallb q r1 = true) by (apply forallb_dropWhile; exact Hr).
  destruct (Str.isEmpty (Str.takeWhile Str.isWord r1)) eqn:Ef; [discriminate|].
  destruct (Str.dropWhile Str.isSpace (Str.dropWhile Str.isWord r1)) as [|e r4] eqn:E3;
    [discriminate|].
  assert (H3 : Str.forallb q (String e r4) = true).
  { rewrite <- E3. apply forallb_dropWhile, forallb_dropWhile. exact H1. }
  destruct (Ascii.eqb_spec e "="%char) as [->|Hne].
  2:{ destruct e as [[] [] [] [] [] [] [] []]; try discriminate. contradiction. }
  set (r5 := Str.dropWhile Str.isSpace r4).
  assert (H5 : Str.forallb q r5 = true).
  { apply forallb_dropWhile. exact (forallb_tail q _ _ H3). }
  set (r6 := match r5 with
             | String q0 r' => if isQuote q0 then r' else r5
             | EmptyString => r5
             end).
  assert (H6 : Str.forallb q r6 = true).
  { unfold r6. destruct r5 as [|q0 r']; [exact H5|].
    destruct (isQuote q0); [exact (forallb_tail q _ _ H5) | exact H5]. }
  destruct (Str.isEmpty (Str.takeWhile Str.isWord r6)) eqn:Ev; [discriminate|].
  intro E. injection E as <-. cbn [field value].
  repeat split; try assumption; try apply forallb_takeWhile_self;
    apply forallb_takeWhile; assumption.
Qed.

Lemma matchFilter_tokens (q : ascii -> bool) (s : string) (f : Filter) :
  Str.forallb q s = true ->
  matchFilter s = Some f ->
  (Str.isEmpty (field f) = false /\ Str.forallb Str.isWord (field f) = true
   /\ Str.forallb q (field f) = true)
  /\ (Str.isEmpty (value f) = false /\ Str.forallb Str.isWord (value f) = true
      /\ Str.forallb q (value f) = true).
Proof.
  induction s as [|c s IH]; intros Hq E.
  - vm_compute in E. discriminate.
  - change (matchFilter (String c s))
      with (match matchFilterAt (String c s) with
            | Some m => Some m
            | None => matchFilter s
            end) in E.
    destruct (matchFilterAt (String c s)) as [m|] eqn:Em.
    + injection E as <-. exact (matchFilterAt_tokens q _ _ Hq Em).
    + apply IH; [exact (forallb_tail q c s Hq) | exact E].
Qed.

Lemma lowerChar_idem (c : ascii) :
  Ascii.eqb (Str.lowerChar (Str.lowerChar c)) (Str.lowerChar c) = true.
Proof.
  destruct c as [[] [] [] [] [] [] [] []]; vm_compute; reflexivity.
Qed.

Lemma toLowerCase_fixed_chars (s : string) :
  Str.forallb (fun c => Ascii.eqb (Str.lowerChar c) c) (Str.toLowerCase s) = true.
Proof.
  induction s as [|c s IH]; simpl; [reflexivity|].
  rewrite lowerChar_idem, IH. reflexivity.
Qed.

Lemma fixed_chars_toLowerCase (s : string) :
  Str.forallb (fun c => Ascii.eqb (Str.lowerChar c) c) s = true ->
  Str.toLowerCase s = s.
Proof.
  induction s as [|c s IH]; simpl; [reflexivity|]. intro H.
  apply andb_prop in H. destruct H as [Hc Hs].
  apply Ascii.eqb_eq in Hc. rewrite Hc, (IH Hs). reflexivity.
Qed.

(** Lower-casing changes neither token of a resolved filter. *)
Lemma resolved_filter_lower (schema : list SchemaField) (text : string)
  (config : ChartConfig) (f : Filter) :
  generateChartConfig (Some schema) text = Normal config ->
  filter config = Some f ->
  Str.toLowerCase (field f) = field f /\ Str.toLowerCase (value f) = value f.
Proof.
  unfold generateChartConfig.
  destruct (detectFields (Str.toLowerCase text) schema) as [x y].
  intro E. injection E as <-. cbn [filter]. intro Ef.
  destruct (matchFilter_tokens (fun c => Ascii.eqb (Str.lowerChar c) c) _ f
              (toLowerCase_fixed_chars text) Ef)
    as [[_ [_ Hf]] [_ [_ Hv]]].
  split; apply fixed_chars_toLowerCase; assumption.
Qed.

(** ** X13 *)

(** X13. When the resolved configuration carries a filter, its field and
    its value are non-empty words of the characters a-z, 0-9 and underscore:
    the pattern is matched against the lower-cased text, so neither token
    keeps an upper-case letter of the request. *)
Theorem filter_tokens_are_lower_case_words (schema : list SchemaField) (text : string)
  (config : ChartConfig) (f : Filter) :
  generateChartConfig (Some schema) text = Normal config ->
  filter config = Some f ->
  isLowerWord (field f) = true /\ isLowerWord (value f) = true.
Proof.
  unfold generateChartConfig.
  destruct (detectFields (Str.toLowerCase text) schema) as [x y].
  intro E. injection E as <-. cbn [filter]. intro Ef.
  destruct (matchFilter_tokens (fun c => negb (Str.isUpper c)) _ f
              (toLowerCase_not_upper text) Ef)
    as [[Hf1 [Hf2 Hf3]] [Hv1 [Hv2 Hv3]]].
  unfold isLowerWord, isLowerWordChar. rewrite Hf1, Hv1. simpl.
  split; apply forallb_and; assumption.
Qed.

(** X13 at a request that names the field [Status] and the value
    [Active]. *)
Lemma filter_tokens_are_lower_case_words_witness :
  generateChartConfig (Some capitalisedSchema) "Amount by Status where Status = 'Active'"
  = Normal {| chartType := Line;
              xField := "Status";
              yField := "Amount";
              labelField := None;
              groupBy := None;
              filter := Some {| field := "status"; value := "active" |};
              aggregate := Sum;
              color := "#3b82f6";
              title := "Amount by Status" |}
  /\ isLowerWord "status" = true /\ isLowerWord "active" = true.
Proof.
  assert (E : generateChartConfig (Some capitalisedSchema)
                "Amount by Status where Status = 'Active'"
              = Normal {| chartType := Line;
                          xField := "Status";
                          yField := "Amount";
                          labelField := None;
                          groupBy := None;
                          filter := Some {| field := "status"; value := "active" |};
                          aggregate := Sum;
                          color := "#3b82f6";
                          title := "Amount by Status" |}).
  { vm_compute. reflexivity. }
  split; [exact E|].
  exact (filter_tokens_are_lower_case_words capitalisedSchema
           "Amount by Status where Status = 'Active'" _
           {| field := "status"; value := "active" |} E eq_refl).
Defined.

(** ** X14 *)

Lemma assoc_case_mismatch (k : string) (row : DataRow) :
  Str.toLowerCase k = k ->
  (forall k', In k' (keys row) -> Str.toLowerCase k' <> k') ->
  assoc k row = None.
Proof.
  intros Hk Hrow. apply assoc_None_iff. intro Hin. exact (Hrow k Hin Hk).
Qed.

(** X14. The resolver lower-cases the filter field, and the transform looks
    it up as it is.  So on rows every key of which has an upper-case
    letter, a resolved filter finds its field in no row: unless the field
    is [constructor] or [__proto__] or the value is [undefined], no row is
    kept, and the transform returns no label and no value. *)
Theorem filter_on_capitalised_keys_keeps_nothing `{Host}
  (schema : list SchemaField) (text : string) (config : ChartConfig) (f : Filter)
  (data : list DataRow) :
  generateChartConfig (Some schema) text = Normal config ->
  filter config = Some f ->
  (forall row k, In row data -> In k (keys row) -> Str.toLowerCase k <> k) ->
  field f <> "constructor" ->
  field f <> "__proto__" ->
  value f <> "undefined" ->
  transformData (Some data) (Some config) = Normal (Some {| labels := []; values := [] |}).
Proof.
  intros Hc Hf Hkeys Hn1 Hn2 Hv.
  destruct (resolved_filter_lower schema text config f Hc Hf) as [Hlf Hlv].
  assert (Hinh : inherited (field f) = VUndefined).
  { unfold inherited. destruct (String.eqb_spec (field f) "__proto__"); [contradiction|].
    destruct (existsb (String.eqb (field f)) objectPrototypeFunctions) eqn:Ex; [|reflexivity].
    apply existsb_eqb_In in Ex. simpl in Ex.
    destruct Ex as [E|[E|[E|[E|[E|[E|[E|[E|[E|[E|[E|[]]]]]]]]]]]];
      try (symmetry in E; contradiction);
      rewrite <- E in Hlf; vm_compute in Hlf; discriminate. }
  assert (Hnone : applyFilter config data = Normal []).
  { rewrite (applyFilter_matches config f data Hf).
    induction data as [|row rest IH]; [reflexivity|]. cbn [filterM].
    rewrite (matchesFilter_absent f row); [|apply assoc_case_mismatch;
      [exact Hlf | intros k Hk; apply (Hkeys row k (or_introl eq_refl) Hk)] | exact Hinh].
    rewrite Hlv. cbn [bind].
    destruct (String.eqb_spec "undefined" (value f)) as [E|_];
      [symmetry in E; contradiction|].
    rewrite IH; [reflexivity|]. intros row' k Hr. apply Hkeys. right. exact Hr. }
  unfold transformData. rewrite Hnone. cbn [bind].
  destruct (grouping config); reflexivity.
Qed.

(** X14 at two rows with the keys [Status] and [Amount] and a request to
    keep the active ones. *)
Lemma filter_on_capitalised_keys_keeps_nothing_witness :
  generateChartConfig (Some capitalisedSchema) "Amount by Status where Status = 'Active'"
  = Normal statusFilterConfig
  /\ filter statusFilterConfig = Some {| field := "status"; value := "active" |}
  /\ (forall row k, In row capitalisedRows -> In k (keys row) -> Str.toLowerCase k <> k)
  /\ @transformData utcHost (Some capitalisedRows) (Some statusFilterConfig)
     = Normal (Some {| labels := []; values := [] |}).
Proof.
  assert (E : generateChartConfig (Some capitalisedSchema)
                "Amount by Status where Status = 'Active'" = Normal statusFilterConfig).
  { vm_compute. reflexivity. }
  assert (Hk : forall row k, In row capitalisedRows -> In k (keys row) ->
                             Str.toLowerCase k <> k).
  { intros row k Hr Hin. simpl in Hr.
    destruct Hr as [<-|[<-|[]]]; simpl in Hin;
      destruct Hin as [<-|[<-|[]]]; vm_compute; discriminate. }
  split; [exact E|]. split; [reflexivity|]. split; [exact Hk|].
  apply (@filter_on_capitalised_keys_keeps_nothing utcHost capitalisedSchema
           "Amount by Status where Status = 'Active'" statusFilterConfig
           {| field := "status"; value := "active" |} capitalisedRows E eq_refl Hk);
    discriminate.
Defined.

(** ** X15 *)

(** X15. A run of [handleSubmit] either changes nothing (blank input, a
    reply pending, or the chat disabled) or appends exactly two messages to
    the conversation, the trimmed input as the user's and one reply, clears
    the input and ends not loading.  With a schema present the reply is
    always the summary of the configuration resolved from the trimmed
    input, which is handed to [onChartGenerated]: the request to rephrase
    is given only when there is no schema. *)
Theorem handleSubmit_appends_two_messages (props : ChatProps) (st : ChatState) :
  if Str.isEmpty (Str.trim (input st)) || isLoading st || disabled props
  then handleSubmit props st = (st, None)
  else
    exists reply out,
      handleSubmit props st
      = ({| messages :=
              (messages st
               ++ [ {| role := User; content := Plain (Str.trim (input st)) |};
                    {| role := Assistant; content := reply |} ])%list;
            input := "";
            isLoading := false |}, out)
      /\ match schema props with
         | None => reply = RephraseRequest /\ out = None
         | Some s =>
             exists config,
               generateChartConfig (Some s) (Str.trim (input st)) = Normal config
               /\ reply = ChartSummary config /\ out = Some config
         end.
Proof.
  unfold handleSubmit.
  destruct (Str.isEmpty (Str.trim (input st)) || isLoading st || disabled props);
    [reflexivity|].
  destruct (schema props) as [s|] eqn:Es.
  - destruct (resolved_xField s (Str.trim (input st))) as [config [Hc _]].
    rewrite Hc. exists (ChartSummary config), (Some config).
    rewrite <- app_assoc. split; [reflexivity|].
    exists config. split; [reflexivity|]. split; reflexivity.
  - simpl. exists RephraseRequest, None. rewrite <- app_assoc. split; [reflexivity|].
    split; reflexivity.
Qed.

(** ** The buckets of the transform *)

Lemma pushToGroup_bucket (groups groups' : Groups) (key : string) (item : DataRow) :
  pushToGroup groups key item = Normal groups' ->
  forall k, bucketOf k groups'
            = (bucketOf k groups ++ if String.eqb key k then [item] else [])%list.
Proof.
  unfold pushToGroup, bucketOf. intros E k.
  destruct (assoc key groups) as [items|] eqn:Ea.
  - injection E as <-. destruct (String.eqb_spec key k) as [->|Hne].
    + rewrite assoc_setProp_same, Ea. reflexivity.
    + rewrite (assoc_setProp_other key k) by (intro Ek; apply Hne; symmetry; exact Ek).
      rewrite app_nil_r. reflexivity.
  - destruct (inherited key); try discriminate. injection E as <-.
    destruct (String.eqb_spec key k) as [->|Hne].
    + rewrite assoc_setProp_same, Ea. reflexivity.
    + rewrite (assoc_setProp_other key k) by (intro Ek; apply Hne; symmetry; exact Ek).
      rewrite app_nil_r. reflexivity.
Qed.

(** A bucket receives the rows of its key, in their order. *)
Lemma groupRows_bucket (keyOf : DataRow -> Completion string) (rows : list DataRow)
  (groups groups' : Groups) :
  groupRows keyOf rows groups = Normal groups' ->
  forall k, bucketOf k groups'
            = (bucketOf k groups
               ++ List.filter (fun item => match keyOf item with
                                           | Normal key => String.eqb key k
                                           | Throw _ => false
                                           end) rows)%list.
Proof.
  revert groups. induction rows as [|item rest IH]; simpl; intros groups E k.
  - injection E as <-. rewrite app_nil_r. reflexivity.
  - destruct (keyOf item) as [key|]; [|discriminate]. simpl in E.
    destruct (pushToGroup groups key item) as [g1|] eqn:E1; [|discriminate]. simpl in E.
    rewrite (IH g1 E k), (pushToGroup_bucket _ _ _ _ E1 k), <- app_assoc.
    destruct (String.eqb key k); reflexivity.
Qed.

Lemma Forall2_map_both {A B C : Type} (f : A -> B) (g : A -> C) (R : B -> C -> Prop)
  (l : list A) :
  (forall a, In a l -> R (f a) (g a)) -> Forall2 R (map f l) (map g l).
Proof.
  induction l as [|a l IH]; simpl; intro Hl; constructor.
  - apply Hl. left. reflexivity.
  - apply IH. intros a' Ha'. apply Hl. right. exact Ha'.
Qed.

Lemma Permutation_insertSorted {A : Type} (cmp : A -> A -> comparison) (x : A) (l : list A) :
  Permutation (insertSorted cmp x l) (x :: l).
Proof.
  induction l as [|y l IH]; simpl; [reflexivity|].
  destruct (cmp x y); try reflexivity.
  rewrite IH. apply perm_swap.
Qed.

Lemma Permutation_sortWith {A : Type} (cmp : A -> A -> comparison) (l : list A) :
  Permutation (sortWith cmp l) l.
Proof.
  induction l as [|x l IH]; simpl; [reflexivity|].
  rewrite Permutation_insertSorted, IH. reflexivity.
Qed.

Section Buckets.

Context `{Host}.

Lemma aggregateBucket_label (config : ChartConfig) (entry : string * list DataRow)
  (p : Point) :
  aggregateBucket config entry = Normal p -> label p = fst entry.
Proof.
  destruct entry as [k items]. unfold aggregateBucket. intro E.
  apply bind_Normal in E. destruct E as [vs [_ E]]. injection E as <-. reflexivity.
Qed.

(** The points of a grouped result, before they are split into labels and
    values. *)
Lemma transformData_points (data : list DataRow) (config : ChartConfig)
  (out : TransformedData) :
  grouping config = true ->
  transformData (Some data) (Some config) = Normal (Some out) ->
  exists processed groups points,
    applyFilter config data = Normal processed
    /\ groupRows (groupKey config) processed [] = Normal groups
    /\ mapM (aggregateBucket config) (entries groups) = Normal points
    /\ labels out = map label (sortWith compareLabels points)
    /\ values out = map pointValue (sortWith compareLabels points).
Proof.
  intros Hg E. destruct (transformData_Normal data config out E) as [processed [Ep Hout]].
  rewrite Hg in Hout. destruct Hout as [groups [points [Eg [Ea [Hl Hv]]]]].
  exists processed, groups, points. repeat split; assumption.
Qed.

Lemma labels_of_points (config : ChartConfig) (groups : Groups) (points : list Point) :
  mapM (aggregateBucket config) (entries groups) = Normal points ->
  map label points = keys (entries groups).
Proof.
  intro E. apply mapM_Normal in E. induction E as [|e p es ps Hep _ IH]; simpl;
    [reflexivity|].
  f_equal; [apply (aggregateBucket_label config e p Hep) | exact IH].
Qed.

Lemma Permutation_labels (config : ChartConfig) (groups : Groups) (points : list Point) :
  mapM (aggregateBucket config) (entries groups) = Normal points ->
  Permutation (map label (sortWith compareLabels points)) (keys groups).
Proof.
  intro E. rewrite Permutation_sortWith, (labels_of_points config groups points E).
  apply Permutation_map, Permutation_entries.
Qed.

End Buckets.

(** ** X16 *)

(** X16. What a grouped transform returns, bucket by bucket.  The labels
    are pairwise distinct, and they are exactly the bucket keys of the rows
    the filter keeps; the value beside a label is the aggregate (sum,
    average, count, maximum or minimum, as configured) of the y-values of
    exactly the retained rows with that key, taken in their order. *)
Theorem buckets_aggregate_their_rows `{Host}
  (data : list DataRow) (config : ChartConfig) (out : TransformedData) :
  grouping config = true ->
  transformData (Some data) (Some config) = Normal (Some out) ->
  exists processed,
    applyFilter config data = Normal processed
    /\ NoDup (labels out)
    /\ (forall l, In l (labels out)
                  <-> exists item, In item processed
                                   /\ groupKey config item = Normal l)
    /\ Forall2 (fun l v => aggregateBucket config (l, bucketRows config processed l)
                           = Normal {| label := l; pointValue := v |})
               (labels out) (values out).
Proof.
  intros Hg Hout.
  destruct (transformData_points data config out Hg Hout)
    as [processed [groups [points [Ep [Eg [Ea [Hl Hv]]]]]]].
  destruct (groupRows_keys _ _ _ _ Eg (NoDup_nil _)) as [ks [Eks [Hnd Hk]]].
  pose proof (Permutation_labels config groups points Ea) as Hp. rewrite <- Hl in Hp.
  exists processed. split; [exact Ep|]. split; [|split].
  - apply (Permutation_NoDup (Permutation_sym Hp)). exact Hnd.
  - intro l. rewrite <- (mapM_In _ _ _ l Eks). split.
    + intro Hin. apply (Permutation_in _ Hp) in Hin. apply Hk in Hin.
      destruct Hin as [[]|Hin]. exact Hin.
    + intro Hin. apply (Permutation_in _ (Permutation_sym Hp)).
      apply Hk. right. exact Hin.
  - rewrite Hl, Hv. apply Forall2_map_both. intros p Hp'.
    apply (Permutation_in _ (Permutation_sortWith _ _)) in Hp'.
    apply (mapM_In _ _ _ p Ea) in Hp'. destruct Hp' as [[k items] [Hin Eagg]].
    apply In_entries in Hin.
    pose proof (In_assoc k items groups Hnd Hin) as Ha.
    pose proof (groupRows_bucket _ _ _ _ Eg k) as Hb.
    unfold bucketOf in Hb. rewrite Ha in Hb. simpl in Hb.
    pose proof (aggregateBucket_label _ _ _ Eagg) as Elab. cbn [fst] in Elab.
    rewrite Hb in Eagg. rewrite Elab.
    transitivity (Normal p); [exact Eagg|].
    destruct p as [pl pv]. cbn [label pointValue] in *. rewrite Elab. reflexivity.
Qed.

(** X16 at the month example in the UTC host: January sums the first two
    rows, February has the third. *)
Lemma buckets_aggregate_their_rows_witness :
  grouping monthConfig = true
  /\ @transformData utcHost (Some revenueRows) (Some monthConfig)
     = Normal (Some {| labels := [ "2024-01"; "2024-02" ];
                       values := [ Num.ofZ 30; Num.ofZ 5 ] |})
  /\ exists processed,
       @applyFilter utcHost monthConfig revenueRows = Normal processed
       /\ NoDup [ "2024-01"; "2024-02" ]
       /\ (forall l, In l [ "2024-01"; "2024-02" ]
                     <-> exists item, In item processed
                                      /\ @groupKey utcHost monthConfig item = Normal l)
       /\ Forall2 (fun l v => @aggregateBucket utcHost monthConfig
                                (l, @bucketRows utcHost monthConfig processed l)
                              = Normal {| label := l; pointValue := v |})
                  [ "2024-01"; "2024-02" ] [ Num.ofZ 30; Num.ofZ 5 ].
Proof.
  assert (E : @transformData utcHost (Some revenueRows) (Some monthConfig)
              = Normal (Some {| labels := [ "2024-01"; "2024-02" ];
                                values := [ Num.ofZ 30; Num.ofZ 5 ] |})).
  { vm_compute. reflexivity. }
  split; [reflexivity|]. split; [exact E|].
  exact (@buckets_aggregate_their_rows utcHost revenueRows monthConfig _ eq_refl E).
Defined.

(** ** X17 *)

Section SortedLabels.

Context {A : Type}.
Variable cmp : A -> A -> comparison.
Hypothesis cmp_asym : forall a b, cmp a b = Gt -> cmp b a <> Gt.
Hypothesis cmp_trans : forall a b c, cmp a b <> Gt -> cmp b c <> Gt -> cmp a c <> Gt.

Lemma StronglySorted_insertSorted (x : A) (l : list A) :
  StronglySorted (fun a b => cmp a b <> Gt) l ->
  StronglySorted (fun a b => cmp a b <> Gt) (insertSorted cmp x l).
Proof.
  induction l as [|y l IH]; simpl; intro Hs.
  - constructor; [constructor | constructor].
  - inversion Hs as [|? ? Hs' Hall]; subst.
    destruct (cmp x y) eqn:E.
    + constructor; [exact Hs|]. constructor; [rewrite E; discriminate|].
      apply (Forall_impl (fun b => cmp x b <> Gt)) with (2 := Hall).
      intros b Hb. apply (cmp_trans x y b); [rewrite E; discriminate | exact Hb].
    + constructor; [exact Hs|]. constructor; [rewrite E; discriminate|].
      apply (Forall_impl (fun b => cmp x b <> Gt)) with (2 := Hall).
      intros b Hb. apply (cmp_trans x y b); [rewrite E; discriminate | exact Hb].
    + constructor; [apply IH; exact Hs'|].
      apply (Permutation_Forall (Permutation_sym (Permutation_insertSorted cmp x l))).
      constructor; [apply cmp_asym; exact E | exact Hall].
Qed.

Lemma StronglySorted_sortWith (l : list A) :
  StronglySorted (fun a b => cmp a b <> Gt) (sortWith cmp l).
Proof.
  induction l as [|x l IH]; simpl; [constructor|].
  apply StronglySorted_insertSorted. exact IH.
Qed.

End SortedLabels.

Lemma StronglySorted_map {A B : Type} (f : A -> B) (R : B -> B -> Prop) (l : list A) :
  StronglySorted (fun a b => R (f a) (f b)) l -> StronglySorted R (map f l).
Proof.
  induction 1 as [|a l Hs IH Hall]; simpl; constructor; [exact IH|].
  apply Forall_map. exact Hall.
Qed.

(** Collation by code unit is a total preorder. *)
Lemma compare_asym (a b : string) : String.compare a b = Gt -> String.compare b a <> Gt.
Proof. rewrite (String.compare_antisym b a). intros ->. discriminate. Qed.

Lemma compare_not_Gt (a b : string) :
  String.compare a b <> Gt <-> a = b \/ OrderedTypeEx.String_as_OT.lt a b.
Proof.
  split.
  - intro Hn. destruct (String.compare a b) eqn:E.
    + left. apply String.compare_eq_iff. exact E.
    + right. apply OrderedTypeEx.String_as_OT.cmp_lt. exact E.
    + contradiction.
  - intros [->|Hlt] E.
    + assert (Eq' : String.compare b b = Eq)
        by (apply OrderedTypeEx.String_as_OT.cmp_eq; reflexivity).
      rewrite Eq' in E. discriminate.
    + apply OrderedTypeEx.String_as_OT.cmp_lt in Hlt.
      unfold OrderedTypeEx.String_as_OT.cmp in Hlt. rewrite Hlt in E. discriminate.
Qed.

Lemma compare_trans (a b c : string) :
  String.compare a b <> Gt -> String.compare b c <> Gt -> String.compare a c <> Gt.
Proof.
  rewrite !compare_not_Gt. intros [->|H1] [->|H2]; auto.
  right. exact (OrderedTypeEx.String_as_OT.lt_trans a b c H1 H2).
Qed.

(** X17. The labels of a grouped result are in the host's collation order
    of the label strings (not in date or numeric order, and not in row
    order): when [localeCompare] is a consistent comparator, as ECMAScript
    requires of one passed to [sort], no label is after a later one. *)
Theorem labels_are_in_collation_order `{Host}
  (data : list DataRow) (config : ChartConfig) (out : TransformedData) :
  (forall a b, localeCompare a b = Gt -> localeCompare b a <> Gt) ->
  (forall a b c, notAfter a b -> notAfter b c -> notAfter a c) ->
  grouping config = true ->
  transformData (Some data) (Some config) = Normal (Some out) ->
  StronglySorted notAfter (labels out).
Proof.
  intros Hasym Htrans Hg Hout.
  destruct (transformData_points data config out Hg Hout)
    as [processed [groups [points [_ [_ [_ [Hl _]]]]]]].
  rewrite Hl. apply StronglySorted_map.
  apply (StronglySorted_sortWith compareLabels).
  - intros a b. apply Hasym.
  - intros a b c. apply Htrans.
Qed.

(** X17 in the UTC host, which collates by code unit, at three rows keyed
    by day: the label "10" comes before "9". *)
Lemma labels_are_in_collation_order_witness :
  (forall a b, @localeCompare utcHost a b = Gt -> @localeCompare utcHost b a <> Gt)
  /\ (forall a b c, @notAfter utcHost a b -> @notAfter utcHost b c -> @notAfter utcHost a c)
  /\ @transformData utcHost (Some numberedDayRows) (Some numberedDayConfig)
     = Normal (Some {| labels := [ "10"; "9" ]; values := [ Num.ofZ 2; Num.ofZ 5 ] |})
  /\ StronglySorted (@notAfter utcHost) [ "10"; "9" ].
Proof.
  assert (E : @transformData utcHost (Some numberedDayRows) (Some numberedDayConfig)
              = Normal (Some {| labels := [ "10"; "9" ];
                                values := [ Num.ofZ 2; Num.ofZ 5 ] |})).
  { vm_compute. reflexivity. }
  split; [exact compare_asym|]. split; [exact compare_trans|]. split; [exact E|].
  exact (@labels_are_in_collation_order utcHost numberedDayRows numberedDayConfig
           {| labels := [ "10"; "9" ]; values := [ Num.ofZ 2; Num.ofZ 5 ] |}
           compare_asym compare_trans eq_refl E).
Defined.

(** ** The calendar *)

Lemma leap_cases (y : Z) :
  (Date.isLeapYear y = true /\ (y mod 4 = 0 /\ y mod 100 <> 0 \/ y mod 400 = 0))
  \/ (Date.isLeapYear y = false /\ (y mod 4 <> 0 \/ y mod 100 = 0) /\ y mod 400 <> 0).
Proof.
  unfold Date.isLeapYear.
  destruct (Z.eqb_spec (y mod 4) 0); destruct (Z.eqb_spec (y mod 100) 0);
    destruct (Z.eqb_spec (y mod 400) 0); simpl; intuition lia.
Qed.

Lemma month_cases (m : Z) :
  1 <= m <= 12 ->
  m = 1 \/ m = 2 \/ m = 3 \/ m = 4 \/ m = 5 \/ m = 6 \/ m = 7 \/ m = 8 \/ m = 9
  \/ m = 10 \/ m = 11 \/ m = 12.
Proof. lia. Qed.

(** The year of the era is recovered from the day of the era. *)
Lemma yoe_of_doe (yoe doy : Z) :
  0 <= yoe < 400 -> 0 <= doy ->
  doy <= 364 + (if Date.isLeapYear (yoe + 1) then 1 else 0) ->
  let doe := yoe * 365 + yoe / 4 - yoe / 100 + doy in
  (doe - doe / 1460 + doe / 36524 - doe / 146096) / 365 = yoe /\ 0 <= doe < 146097.
Proof.
  intros Hy Hd Hl doe.
  assert (Hl' : doy <= 364
                \/ (doy = 365
                    /\ ((yoe + 1) mod 4 = 0 /\ (yoe + 1) mod 100 <> 0
                        \/ (yoe + 1) mod 400 = 0))).
  { destruct (leap_cases (yoe + 1)) as [[El Hc]|[El Hc]]; rewrite El in Hl; lia. }
  clear Hl. subst doe.
  split; Z.to_euclidean_division_equations; lia.
Qed.

(** The month and the day of the month are recovered from the day of the
    year that starts in March. *)
Lemma month_of_doy (mp d : Z) :
  0 <= mp <= 11 -> 1 <= d <= monthLength mp ->
  let doy := (153 * mp + 2) / 5 + d - 1 in
  (5 * doy + 2) / 153 = mp /\ doy - (153 * mp + 2) / 5 + 1 = d.
Proof.
  intros Hmp Hd doy. unfold monthLength in Hd.
  assert (Hc : mp = 0 \/ mp = 1 \/ mp = 2 \/ mp = 3 \/ mp = 4 \/ mp = 5 \/ mp = 6
               \/ mp = 7 \/ mp = 8 \/ mp = 9 \/ mp = 10 \/ mp = 11) by lia.
  split; [|subst doy; lia]. subst doy.
  destruct Hc as [E|[E|[E|[E|[E|[E|[E|[E|[E|[E|[E|E]]]]]]]]]]]; subst mp;
    cbn in Hd; Z.to_euclidean_division_equations; lia.
Qed.

Lemma civilFromDays_parts (era yoe mp d : Z) :
  0 <= yoe < 400 -> 0 <= mp <= 11 -> 1 <= d <= monthLength mp ->
  (mp = 11 -> d = 29 -> Date.isLeapYear (yoe + 1) = true) ->
  Date.civilFromDays
    (era * 146097
     + (yoe * 365 + yoe / 4 - yoe / 100 + ((153 * mp + 2) / 5 + d - 1))
     - 719468)
  = (yoe + era * 400 + (if (if mp <? 10 then mp + 3 else mp - 9) <=? 2 then 1 else 0),
     if mp <? 10 then mp + 3 else mp - 9,
     d).
Proof.
  intros Hyoe Hmp Hd Hleap.
  set (doy := (153 * mp + 2) / 5 + d - 1).
  set (doe := yoe * 365 + yoe / 4 - yoe / 100 + doy).
  destruct (month_of_doy mp d Hmp Hd) as [Emp Ed].
  fold doy in Emp, Ed.
  assert (Hdoy : 0 <= doy /\ doy <= 364 + (if Date.isLeapYear (yoe + 1) then 1 else 0)).
  { unfold monthLength in Hd. subst doy.
    assert (Hc : mp = 0 \/ mp = 1 \/ mp = 2 \/ mp = 3 \/ mp = 4 \/ mp = 5 \/ mp = 6
               \/ mp = 7 \/ mp = 8 \/ mp = 9 \/ mp = 10 \/ mp = 11) by lia.
    destruct Hc as [E|[E|[E|[E|[E|[E|[E|[E|[E|[E|[E|E]]]]]]]]]]]; subst mp;
      cbn in Hd;
      destruct (Date.isLeapYear (yoe + 1)); Z.to_euclidean_division_equations; lia. }
  destruct (yoe_of_doe yoe doy Hyoe (proj1 Hdoy) (proj2 Hdoy)) as [Eyoe Hdoe].
  fold doe in Eyoe, Hdoe.
  unfold Date.civilFromDays.
  replace (era * 146097 + doe - 719468 + 719468) with (doe + era * 146097) by lia.
  rewrite Z.div_add by lia. rewrite (Z.div_small doe 146097) by lia.
  cbv zeta.
  replace (doe + era * 146097 - (0 + era) * 146097) with doe by lia.
  rewrite Eyoe.
  replace (doe - (365 * yoe + yoe / 4 - yoe / 100)) with doy by (subst doe; lia).
  rewrite Emp, Ed. reflexivity.
Qed.

(** The day number of a date that exists gives the date back. *)
Lemma civil_round_trip (y m d : Z) :
  1 <= m <= 12 -> 1 <= d <= Date.daysInMonth y m ->
  Date.civilFromDays (Date.daysFromCivil y m d) = (y, m, d).
Proof.
  intros Hm Hd. unfold Date.daysFromCivil. cbv zeta.
  set (y' := if m <=? 2 then y - 1 else y).
  set (mp := if 2 <? m then m - 3 else m + 9).
  assert (Hy' : y' = if m <=? 2 then y - 1 else y) by reflexivity.
  assert (Hmp' : mp = if 2 <? m then m - 3 else m + 9) by reflexivity.
  clearbody y' mp.
  assert (Hyoe : 0 <= y' - y' / 400 * 400 < 400).
  { Z.to_euclidean_division_equations. lia. }
  assert (Hmp : 0 <= mp <= 11).
  { subst mp. destruct (2 <? m) eqn:E; lia. }
  assert (Hback : (if mp <? 10 then mp + 3 else mp - 9) = m).
  { subst mp. destruct (Z.ltb_spec 2 m).
    - destruct (Z.ltb_spec (m - 3) 10); lia.
    - destruct (Z.ltb_spec (m + 9) 10); lia. }
  assert (Hlen : 1 <= d <= monthLength mp).
  { unfold Date.daysInMonth in Hd. unfold monthLength. subst mp.
    destruct (month_cases m Hm) as [E|[E|[E|[E|[E|[E|[E|[E|[E|[E|[E|E]]]]]]]]]]]; subst m;
      cbn in Hd |- *; try lia. destruct (Date.isLeapYear y); lia. }
  assert (Hleap : mp = 11 -> d = 29 -> Date.isLeapYear (y' - y' / 400 * 400 + 1) = true).
  { intros E11 E29.
    assert (Em : m = 2) by (subst mp; destruct (2 <? m) eqn:E; lia).
    unfold Date.daysInMonth in Hd. rewrite Em in Hd, Hy'. cbn in Hd, Hy'.
    destruct (leap_cases y) as [[El Hl]|[El Hl]]; rewrite El in Hd; [|cbn in Hd; lia].
    destruct (leap_cases (y' - y' / 400 * 400 + 1)) as [[El' _]|[El' Hl']]; [exact El'|].
    exfalso. assert (Ey : y' = y - 1) by exact Hy'. clear Hy' Hd.
    set (q := y' / 400) in *.
    replace (y' - q * 400 + 1) with (y + (- (100 * q)) * 4) in Hl' at 1 by lia.
    replace (y' - q * 400 + 1) with (y + (- (4 * q)) * 100) in Hl' at 1 by lia.
    replace (y' - q * 400 + 1) with (y + (- q) * 400) in Hl' by lia.
    rewrite !Z.mod_add in Hl' by lia. tauto. }
  rewrite (civilFromDays_parts (y' / 400) (y' - y' / 400 * 400) mp d Hyoe Hmp Hlen Hleap).
  rewrite Hback. f_equal. f_equal.
  subst y'. destruct (Z.leb_spec m 2); lia.
Qed.


(** The first day of a month follows the last day of the month before. *)
Lemma daysFromCivil_first (y m : Z) :
  1 <= m <= 12 ->
  Date.daysFromCivil y m 1
  = Date.daysFromCivil (fst (previousMonth y m)) (snd (previousMonth y m))
      (Date.daysInMonth (fst (previousMonth y m)) (snd (previousMonth y m))) + 1.
Proof.
  intro Hm. unfold previousMonth, Date.daysInMonth.
  destruct (month_cases m Hm) as [E|[E|[E|[E|[E|[E|[E|[E|[E|[E|[E|E]]]]]]]]]]]; subst m;
    cbn [Z.eqb Pos.eqb fst snd orb Z.sub Z.pos_sub Pos.pred_double Z.add Z.opp].
  3:{ unfold Date.daysFromCivil.
      cbn [Z.leb Z.ltb Z.compare Pos.compare Pos.compare_cont Z.sub Z.add Z.pos_sub
           Pos.pred_double Z.opp Pos.add Pos.succ].
      destruct (leap_cases y) as [[El Hl]|[El Hl]]; rewrite El;
        Z.to_euclidean_division_equations; lia. }
  all: unfold Date.daysFromCivil;
    cbn [Z.leb Z.ltb Z.compare Pos.compare Pos.compare_cont Z.sub Z.add Z.pos_sub
         Pos.pred_double Z.opp Pos.add Pos.succ];
    Z.to_euclidean_division_equations; lia.
Qed.


(** ** Date-only strings *)

Lemma not_hyphen (c : ascii) (A : Type) (a b : A) :
  c <> "-"%char ->
  match c with "-"%char => a | _ => b end = b.
Proof.
  intro Hc. destruct c as [[] [] [] [] [] [] [] []]; try reflexivity.
  exfalso. apply Hc. reflexivity.
Qed.

(** The time value of a date-only string is UTC midnight of the day it
    names. *)
Lemma parseDateOnly_fields (s : string) :
  Date.parseDateOnly s
  = match dateOnlyFields s with
    | Some (y, m, d) => Some (Date.daysFromCivil y m d * Date.msPerDay)
    | None => None
    end.
Proof.
  unfold Date.parseDateOnly, dateOnlyFields.
  destruct (negb (Date.allDigits 4 (Str.take 4 s))); [reflexivity|].
  destruct (Str.drop 4 s) as [|c r1]; [reflexivity|].
  destruct (Ascii.eqb_spec c "-"%char) as [->|Hc];
    [|rewrite !(not_hyphen c _ _ _ Hc); reflexivity].
  cbv zeta.
  destruct (negb (Date.allDigits 2 (Str.take 2 r1)
                  && (1 <=? Str.digitsValue 0 (Str.take 2 r1))
                  && (Str.digitsValue 0 (Str.take 2 r1) <=? 12))); [reflexivity|].
  destruct (Str.drop 2 r1) as [|c2 r3]; [reflexivity|].
  destruct (Ascii.eqb_spec c2 "-"%char) as [->|Hc2];
    [|rewrite !(not_hyphen c2 _ _ _ Hc2); reflexivity].
  destruct (Date.allDigits 2 r3 && (1 <=? Str.digitsValue 0 r3)
            && (Str.digitsValue 0 r3
                <=? Date.daysInMonth (Str.digitsValue 0 (Str.take 4 s))
                      (Str.digitsValue 0 (Str.take 2 r1)))); reflexivity.
Qed.

Lemma daysInMonth_bounds (y m : Z) : 28 <= Date.daysInMonth y m <= 31.
Proof.
  unfold Date.daysInMonth.
  destruct (m =? 2); [destruct (Date.isLeapYear y); lia|].
  destruct ((m =? 4) || (m =? 6) || (m =? 9) || (m =? 11)); lia.
Qed.

(** A date-only string names a day that exists, and is not empty. *)
Lemma dateOnlyFields_valid (s : string) (y m d : Z) :
  dateOnlyFields s = Some (y, m, d) ->
  1 <= m <= 12 /\ 1 <= d <= Date.daysInMonth y m /\ Str.isEmpty s = false.
Proof.
  pose proof (daysInMonth_bounds y m) as Hb.
  unfold dateOnlyFields.
  destruct (Date.allDigits 4 (Str.take 4 s)) eqn:E4; cbn [negb]; [|discriminate].
  assert (Hs : Str.isEmpty s = false).
  { destruct s; [discriminate E4 | reflexivity]. }
  destruct (Str.drop 4 s) as [|c r1].
  - intro E. injection E as Ey Em Ed.
    split; [lia|]. split; [lia | exact Hs].
  - destruct (Ascii.eqb_spec c "-"%char) as [->|Hc];
      [|rewrite (not_hyphen c _ _ _ Hc); discriminate].
    cbv zeta.
    destruct (Date.allDigits 2 (Str.take 2 r1)
              && (1 <=? Str.digitsValue 0 (Str.take 2 r1))
              && (Str.digitsValue 0 (Str.take 2 r1) <=? 12)) eqn:Em;
      cbn [negb]; [|discriminate].
    apply andb_prop in Em. destruct Em as [Em Hm2]. apply andb_prop in Em.
    destruct Em as [_ Hm1]. apply Z.leb_le in Hm1, Hm2.
    destruct (Str.drop 2 r1) as [|c2 r3].
    + intro E. injection E as Ey Em Ed.
      assert (Hm : 1 <= m <= 12) by (subst m; split; [exact Hm1 | exact Hm2]).
      split; [exact Hm|]. split; [lia | exact Hs].
    + destruct (Ascii.eqb_spec c2 "-"%char) as [->|Hc2];
        [|rewrite (not_hyphen c2 _ _ _ Hc2); discriminate].
      destruct (Date.allDigits 2 r3 && (1 <=? Str.digitsValue 0 r3)
                && (Str.digitsValue 0 r3
                    <=? Date.daysInMonth (Str.digitsValue 0 (Str.take 4 s))
                          (Str.digitsValue 0 (Str.take 2 r1)))) eqn:Ed; [|discriminate].
      apply andb_prop in Ed. destruct Ed as [Ed Hd2]. apply andb_prop in Ed.
      destruct Ed as [_ Hd1]. apply Z.leb_le in Hd1, Hd2.
      intro E. injection E as Ey Em Ed'.
      assert (Hm : 1 <= m <= 12) by (subst m; split; [exact Hm1 | exact Hm2]).
      assert (Hd : 1 <= d <= Date.daysInMonth y m)
        by (subst y m d; split; [exact Hd1 | exact Hd2]).
      split; [exact Hm|]. split; [exact Hd | exact Hs].
Qed.

Section DateBuckets.

Context `{Host}.

(** The local calendar fields of UTC midnight of a day, in a host whose
    clock is ahead of UTC or on it: those of that day. *)
Lemma localFields_east (y m d : Z) :
  (forall t, 0 <= localTZA t < Date.msPerDay) ->
  1 <= m <= 12 -> 1 <= d <= Date.daysInMonth y m ->
  Date.localFields (Date.daysFromCivil y m d * Date.msPerDay) = (y, m - 1, d).
Proof.
  intros Htz Hm Hd.
  rewrite (localFields_east_of_utc (Date.daysFromCivil y m d) (Htz _)).
  rewrite (civil_round_trip y m d Hm Hd). reflexivity.
Qed.

(** In a host whose clock is behind UTC, UTC midnight of the first of a
    month is still the last day of the month before. *)
Lemma localFields_west_first (y m : Z) :
  (forall t, - Date.msPerDay <= localTZA t < 0) ->
  1 <= m <= 12 ->
  Date.localFields (Date.daysFromCivil y m 1 * Date.msPerDay)
  = (fst (previousMonth y m), snd (previousMonth y m) - 1,
     Date.daysInMonth (fst (previousMonth y m)) (snd (previousMonth y m))).
Proof.
  intros Htz Hm. unfold Date.localFields.
  set (day := Date.daysFromCivil y m 1).
  assert (Ed : (day * Date.msPerDay + localTZA (day * Date.msPerDay)) / Date.msPerDay
               = day - 1).
  { pose proof (Htz (day * Date.msPerDay)) as Ht. unfold Date.msPerDay in *.
    symmetry. apply (Z.div_unique _ _ _ (localTZA (day * 86400000) + 86400000)); lia. }
  rewrite Ed. unfold day. rewrite (daysFromCivil_first y m Hm).
  replace (Date.daysFromCivil (fst (previousMonth y m)) (snd (previousMonth y m))
             (Date.daysInMonth (fst (previousMonth y m)) (snd (previousMonth y m))) + 1 - 1)
    with (Date.daysFromCivil (fst (previousMonth y m)) (snd (previousMonth y m))
            (Date.daysInMonth (fst (previousMonth y m)) (snd (previousMonth y m))))
    by lia.
  rewrite civil_round_trip; [reflexivity | |].
  - unfold previousMonth. destruct (Z.eqb_spec m 1); simpl; lia.
  - pose proof (daysInMonth_bounds (fst (previousMonth y m)) (snd (previousMonth y m))). lia.
Qed.

(** The bucket key of a row whose x-value is a date-only string, from the
    local calendar fields of its time value. *)
Lemma groupKey_of_date (config : ChartConfig) (item : DataRow) (s : string)
  (y m d ly lm ld : Z) :
  getProp item (xField config) = VJson (JStr s) ->
  dateOnlyFields s = Some (y, m, d) ->
  Date.localFields (Date.daysFromCivil y m d * Date.msPerDay) = (ly, lm, ld) ->
  groupKey config item
  = Normal match groupBy config with
           | Some Month => Str.ofZ ly ++ "-" ++ Str.padStart0 2 (Str.ofZ (lm + 1))
           | Some Year => Str.ofZ ly
           | Some Week => Str.ofZ ly ++ "-W" ++ Str.ofZ (Date.weekOfMonth ld)
           | _ => s
           end.
Proof.
  intros Hx Hf Hl.
  destruct (dateOnlyFields_valid s y m d Hf) as [_ [_ Hs]].
  assert (Hp : Date.parse s = Some (Date.daysFromCivil y m d * Date.msPerDay)).
  { unfold Date.parse. rewrite parseDateOnly_fields, Hf. reflexivity. }
  unfold groupKey. rewrite Hx.
  assert (Ek : toStringOrEmpty (VJson (JStr s)) = Normal s).
  { unfold toStringOrEmpty. simpl. rewrite Hs. reflexivity. }
  rewrite Ek. cbn [bind]. rewrite Hs. cbn [negb]. rewrite Hp.
  unfold monthKey, yearKey, weekKey, Date.getFullYear, Date.getMonth, Date.getDate.
  rewrite Hl. cbn [fst snd].
  destruct (groupBy config) as [[]|]; reflexivity.
Qed.

End DateBuckets.

(** ** X18 *)

(** X18. In a host whose local time is UTC or ahead of it (by less than a
    day), a row whose x-value is a date-only string (YYYY, YYYY-MM or
    YYYY-MM-DD, of a day that exists) is bucketed by the date the string
    names: by month under its year and zero-padded month, by year under
    its year, by week under its year and the week of the month, which is
    the day of the month divided by 7 and rounded up (so the same week of
    different months of a year shares a bucket).  The year is printed as a
    number, without leading zeros. *)
Theorem date_buckets_east_of_utc `{Host}
  (config : ChartConfig) (item : DataRow) (s : string) (y m d : Z) :
  (forall t, 0 <= localTZA t < Date.msPerDay) ->
  getProp item (xField config) = VJson (JStr s) ->
  dateOnlyFields s = Some (y, m, d) ->
  groupKey config item
  = Normal match groupBy config with
           | Some Month => Str.ofZ y ++ "-" ++ Str.padStart0 2 (Str.ofZ m)
           | Some Year => Str.ofZ y
           | Some Week => Str.ofZ y ++ "-W" ++ Str.ofZ ((d + 6) / 7)
           | _ => s
           end.
Proof.
  intros Htz Hx Hf.
  destruct (dateOnlyFields_valid s y m d Hf) as [Hm [Hd _]].
  rewrite (groupKey_of_date config item s y m d y (m - 1) d Hx Hf
             (localFields_east y m d Htz Hm Hd)).
  replace (m - 1 + 1) with m by lia. reflexivity.
Qed.

(** X18 in the UTC host at a row dated 2024-03-15: the month bucket is
    2024-03, the year bucket 2024 and the week bucket 2024-W3. *)
Lemma date_buckets_east_of_utc_witness :
  (forall t, 0 <= @localTZA utcHost t < Date.msPerDay)
  /\ dateOnlyFields "2024-03-15" = Some (2024, 3, 15)
  /\ @groupKey utcHost (dateConfig Month)
       [ ("date", JStr "2024-03-15"); ("revenue", JNum (Num.ofZ 10)) ] = Normal "2024-03"
  /\ @groupKey utcHost (dateConfig Year)
       [ ("date", JStr "2024-03-15"); ("revenue", JNum (Num.ofZ 10)) ] = Normal "2024"
  /\ @groupKey utcHost (dateConfig Week)
       [ ("date", JStr "2024-03-15"); ("revenue", JNum (Num.ofZ 10)) ] = Normal "2024-W3".
Proof.
  assert (Htz : forall t, 0 <= @localTZA utcHost t < Date.msPerDay).
  { intro t. simpl. unfold Date.msPerDay. lia. }
  assert (Hf : dateOnlyFields "2024-03-15" = Some (2024, 3, 15)).
  { vm_compute. reflexivity. }
  split; [exact Htz|]. split; [exact Hf|].
  split; [|split].
  - exact (@date_buckets_east_of_utc utcHost (dateConfig Month)
             [ ("date", JStr "2024-03-15"); ("revenue", JNum (Num.ofZ 10)) ]
             "2024-03-15" 2024 3 15 Htz eq_refl Hf).
  - exact (@date_buckets_east_of_utc utcHost (dateConfig Year)
             [ ("date", JStr "2024-03-15"); ("revenue", JNum (Num.ofZ 10)) ]
             "2024-03-15" 2024 3 15 Htz eq_refl Hf).
  - exact (@date_buckets_east_of_utc utcHost (dateConfig Week)
             [ ("date", JStr "2024-03-15"); ("revenue", JNum (Num.ofZ 10)) ]
             "2024-03-15" 2024 3 15 Htz eq_refl Hf).
Defined.

(** ** X19 *)

(** X19. In a host whose local time is behind UTC (by at most a day), a
    row dated the first day of a month by a date-only string is bucketed
    under the month before: the string is read as UTC midnight, and the
    local calendar fields of that instant are those of the last day of the
    previous month.  By month the key is the previous month (December of
    the year before for 1 January), by year a row of 1 January is counted
    in the year before, and by week the row falls in the last week of the
    previous month. *)
Theorem first_of_month_moves_west_of_utc `{Host}
  (config : ChartConfig) (item : DataRow) (s : string) (y m : Z) :
  (forall t, - Date.msPerDay <= localTZA t < 0) ->
  getProp item (xField config) = VJson (JStr s) ->
  dateOnlyFields s = Some (y, m, 1) ->
  groupKey config item
  = Normal match groupBy config with
           | Some Month =>
               Str.ofZ (fst (previousMonth y m)) ++ "-"
               ++ Str.padStart0 2 (Str.ofZ (snd (previousMonth y m)))
           | Some Year => Str.ofZ (fst (previousMonth y m))
           | Some Week =>
               Str.ofZ (fst (previousMonth y m)) ++ "-W"
               ++ Str.ofZ ((Date.daysInMonth (fst (previousMonth y m))
                              (snd (previousMonth y m)) + 6) / 7)
           | _ => s
           end.
Proof.
  intros Htz Hx Hf.
  destruct (dateOnlyFields_valid s y m 1 Hf) as [Hm _].
  rewrite (groupKey_of_date config item s y m 1 _ _ _ Hx Hf
             (localFields_west_first y m Htz Hm)).
  replace (snd (previousMonth y m) - 1 + 1) with (snd (previousMonth y m)) by lia.
  reflexivity.
Qed.

(** X19 in the host five hours west of UTC: a row of 1 January 2024 is
    bucketed under December 2023, under the year 2023 and under the fifth
    week; a row dated 2024-03 under February. *)
Lemma first_of_month_moves_west_of_utc_witness :
  (forall t, - Date.msPerDay <= @localTZA westHost t < 0)
  /\ dateOnlyFields "2024-01-01" = Some (2024, 1, 1)
  /\ dateOnlyFields "2024-03" = Some (2024, 3, 1)
  /\ @groupKey westHost (dateConfig Month)
       [ ("date", JStr "2024-01-01"); ("revenue", JNum (Num.ofZ 10)) ] = Normal "2023-12"
  /\ @groupKey westHost (dateConfig Year)
       [ ("date", JStr "2024-01-01"); ("revenue", JNum (Num.ofZ 10)) ] = Normal "2023"
  /\ @groupKey westHost (dateConfig Week)
       [ ("date", JStr "2024-01-01"); ("revenue", JNum (Num.ofZ 10)) ] = Normal "2023-W5"
  /\ @groupKey westHost (dateConfig Month)
       [ ("date", JStr "2024-03"); ("revenue", JNum (Num.ofZ 10)) ] = Normal "2024-02".
Proof.
  assert (Htz : forall t, - Date.msPerDay <= @localTZA westHost t < 0).
  { intro t. simpl. unfold Date.msPerDay. lia. }
  assert (Hf : dateOnlyFields "2024-01-01" = Some (2024, 1, 1)).
  { vm_compute. reflexivity. }
  assert (Hg : dateOnlyFields "2024-03" = Some (2024, 3, 1)).
  { vm_compute. reflexivity. }
  split; [exact Htz|]. split; [exact Hf|]. split; [exact Hg|].
  split; [|split; [|split]].
  - exact (@first_of_month_moves_west_of_utc westHost (dateConfig Month)
             [ ("date", JStr "2024-01-01"); ("revenue", JNum (Num.ofZ 10)) ]
             "2024-01-01" 2024 1 Htz eq_refl Hf).
  - exact (@first_of_month_moves_west_of_utc westHost (dateConfig Year)
             [ ("date", JStr "2024-01-01"); ("revenue", JNum (Num.ofZ 10)) ]
             "2024-01-01" 2024 1 Htz eq_refl Hf).
  - exact (@first_of_month_moves_west_of_utc westHost (dateConfig Week)
             [ ("date", JStr "2024-01-01"); ("revenue", JNum (Num.ofZ 10)) ]
             "2024-01-01" 2024 1 Htz eq_refl Hf).
  - exact (@first_of_month_moves_west_of_utc westHost (dateConfig Month)
             [ ("date", JStr "2024-03"); ("revenue", JNum (Num.ofZ 10)) ]
             "2024-03" 2024 3 Htz eq_refl Hg).
Defined.

(** ** The emitted component against the preview *)



Section Agreement.

Context `{Host}.




End Agreement.

(** ** X20 *)



(** ** X21 *)

Lemma forallb_app (p : ascii -> bool) (s t : string) :
  Str.forallb p (s ++ t) = Str.forallb p s && Str.forallb p t.
Proof.
  induction s as [|c s IH]; simpl; [reflexivity|].
  rewrite IH, andb_assoc. reflexivity.
Qed.

Lemma forallb_keepChars (p : ascii -> bool) (s : string) :
  Str.forallb p (keepChars p s) = true.
Proof.
  induction s as [|c s IH]; simpl; [reflexivity|].
  destruct (p c) eqn:E; simpl; [rewrite E; exact IH | exact IH].
Qed.

Lemma dropWhile_head (p : ascii -> bool) (s : string) (c : ascii) (r : string) :
  Str.dropWhile p s = String c r -> p c = false.
Proof.
  induction s as [|a s IH]; simpl; [discriminate|].
  destruct (p a) eqn:E; [exact IH|]. intro Es. injection Es as <- _. exact E.
Qed.

Lemma rev_append_app (s t acc : string) :
  Str.rev_append (s ++ t) acc = Str.rev_append t (Str.rev_append s acc).
Proof.
  revert acc. induction s as [|c s IH]; intro acc; simpl; [reflexivity|]. apply IH.
Qed.

Lemma string_app_assoc (s t u : string) : (s ++ t) ++ u = s ++ (t ++ u).
Proof. induction s as [|c s IH]; simpl; [reflexivity|]. rewrite IH. reflexivity. Qed.

Lemma rev_append_acc (s acc : string) :
  Str.rev_append s acc = Str.rev_append s "" ++ acc.
Proof.
  revert acc. induction s as [|c s IH]; intro acc; simpl; [reflexivity|].
  rewrite IH, (IH (String c "")), string_app_assoc. reflexivity.
Qed.

Lemma startsWith_app (p s : string) : Str.startsWith (p ++ s) p = true.
Proof.
  induction p as [|c p IH]; simpl; [destruct s; reflexivity|].
  rewrite Ascii.eqb_refl. exact IH.
Qed.

Lemma endsWith_app (s suffix : string) : endsWith (s ++ suffix) suffix = true.
Proof.
  unfold endsWith, Str.rev. rewrite rev_append_app.
  rewrite (rev_append_acc suffix (Str.rev_append s "")). apply startsWith_app.
Qed.

(** X21. The name given to the emitted component, to its props interface
    and to the downloaded file is always an identifier that is safe as a
    file name: it consists of ASCII letters and digits only, begins with a
    letter and ends with [Chart], whatever the title holds. *)
Theorem component_name_is_an_identifier (config : ChartConfig) :
  Str.forallb isAlphanumeric (componentName config) = true
  /\ (exists c r, componentName config = String c r /\ isLetter c = true)
  /\ endsWith (componentName config) "Chart" = true
  /\ isIdentifier (componentName config) = true.
Proof.
  assert (Hshape : Str.forallb isAlphanumeric (componentName config) = true
                   /\ (exists c r, componentName config = String c r /\ isLetter c = true)).
  { unfold componentName. destruct (Str.isEmpty (title config)).
    - split; [reflexivity|]. exists "G"%char, "eneratedChart". split; reflexivity.
    - pose proof (forallb_keepChars isAlphanumeric (title config)) as Ha.
      apply (forallb_dropWhile isAlphanumeric Str.isDigit) in Ha.
      split; [rewrite forallb_app, Ha; reflexivity|].
      destruct (Str.dropWhile Str.isDigit (keepChars isAlphanumeric (title config)))
        as [|c r] eqn:E.
      + exists "C"%char, "hart". split; reflexivity.
      + exists c, (r ++ "Chart"). split; [reflexivity|].
        pose proof (dropWhile_head _ _ _ _ E) as Hd.
        simpl in Ha. apply andb_prop in Ha. destruct Ha as [Hc _].
        unfold isAlphanumeric in Hc. unfold isLetter. rewrite Hd in Hc. exact Hc. }
  destruct Hshape as [Ha [c [r [E Hl]]]].
  split; [exact Ha|]. split; [exists c, r; split; assumption|]. split.
  - unfold componentName. destruct (Str.isEmpty (title config)); [reflexivity|].
    apply endsWith_app.
  - rewrite E in Ha |- *. simpl in Ha |- *. apply andb_prop in Ha.
    destruct Ha as [Hc Hr].
    assert (Hstart : isIdentifierStart c = true).
    { unfold isIdentifierStart, Str.isWord. unfold isLetter in Hl.
      destruct (Str.isDigit c) eqn:Ed.
      - exfalso. revert Ed Hl. clear.
        destruct c as [[] [] [] [] [] [] [] []]; vm_compute; intros; discriminate.
      - simpl. apply orb_prop in Hl. destruct Hl as [-> | ->]; simpl;
          [reflexivity | rewrite orb_true_r; reflexivity]. }
    rewrite Hstart. simpl.
    clear - Hr. induction r as [|a r IH]; simpl; [reflexivity|].
    simpl in Hr. apply andb_prop in Hr. destruct Hr as [Ha Hr].
    rewrite (IH Hr), andb_true_r.
    unfold isIdentifierPart, Str.isWord. unfold isAlphanumeric in Ha.
    rewrite Ha. reflexivity.
Qed.

(** ** The uploader *)

Lemma definedByObjectPrototype_false (k : string) :
  definedByObjectPrototype k = false <-> inherited k = VUndefined.
Proof.
  unfold definedByObjectPrototype. destruct (inherited k); split; congruence.
Qed.

Lemma plainKeys_setProp (k : string) (info : FieldInfo) (fields : list (string * FieldInfo)) :
  plainKeys fields -> inherited k = VUndefined -> plainKeys (setProp k info fields).
Proof.
  intros Hp Hk k' Hin. apply In_keys_setProp in Hin.
  destruct Hin as [Hin | ->]; [apply Hp; exact Hin | exact Hk].
Qed.

(** The only error of [updateInfo] is that of [String]. *)
Lemma updateInfo_throws (v : JVal) (info : FieldInfo) (err : JsError) :
  updateInfo v info = Throw err -> err = cannotConvert /\ printable v = false.
Proof.
  intro E. split.
  - unfold updateInfo in E.
    destruct ((List.length (infoSamples info) <? 5)%nat
              && match v with JNull => false | _ => true end); [|discriminate].
    destruct (jsonToString v) as [text|e] eqn:Et; [discriminate|].
    injection E as <-. apply (jsonToString_throws v e Et).
  - destruct (printable v) eqn:Ep; [|reflexivity].
    destruct (updateInfo_returns v info Ep) as [info' E']. rewrite E' in E. discriminate.
Qed.

(** One entry is recorded unless its key is one that [Object.prototype]
    defines, and then the first read of [fields[key].types] raises, or its
    value is one that [String] raises on. *)
Lemma recordEntry_outcome (fields : list (string * FieldInfo)) (e : string * JVal) :
  plainKeys fields ->
  match recordEntry fields e with
  | Normal fields' => plainKeys fields' /\ definedByObjectPrototype (fst e) = false
  | Throw err =>
      definedByObjectPrototype (fst e) = true
      \/ (err = cannotConvert /\ printable (snd e) = false)
  end.
Proof.
  intro Hp. destruct e as [k v]. cbn [fst snd]. rewrite recordEntry_unfold.
  assert (Hrec : forall info,
             inherited k = VUndefined ->
             match (info' <- updateInfo v info;; Normal (setProp k info' fields)) with
             | Normal fields' => plainKeys fields' /\ definedByObjectPrototype k = false
             | Throw err =>
                 definedByObjectPrototype k = true
                 \/ (err = cannotConvert /\ printable v = false)
             end).
  { intros info Hi. destruct (updateInfo v info) as [info'|err] eqn:Eu; cbn [bind].
    - split; [apply plainKeys_setProp; assumption|].
      apply definedByObjectPrototype_false. exact Hi.
    - right. apply (updateInfo_throws v info err Eu). }
  destruct (definedByObjectPrototype k) eqn:Ed.
  - destruct (assoc k fields) as [info|] eqn:Ea.
    + exfalso. apply assoc_Some_In in Ea. apply (in_map fst) in Ea.
      apply Hp in Ea. apply definedByObjectPrototype_false in Ea. simpl in Ea.
      rewrite Ea in Ed. discriminate.
    + unfold definedByObjectPrototype in Ed.
      destruct (inherited k); try discriminate; left; reflexivity.
  - pose proof (proj1 (definedByObjectPrototype_false k) Ed) as Hi.
    destruct (assoc k fields) as [info|].
    + exact (Hrec info Hi).
    + rewrite Hi. exact (Hrec emptyInfo Hi).
Qed.

Lemma recordEntries_outcome (es : list (string * JVal)) (fields : list (string * FieldInfo)) :
  plainKeys fields ->
  match recordEntries fields es with
  | Normal fields' =>
      plainKeys fields' /\ existsb definedByObjectPrototype (keys es) = false
  | Throw err =>
      existsb definedByObjectPrototype (keys es) = true
      \/ (err = cannotConvert /\ forallb (fun e => printable (snd e)) es = false)
  end.
Proof.
  revert fields. induction es as [|e rest IH]; intros fields Hp.
  - simpl. split; [exact Hp | reflexivity].
  - cbn [keys map existsb forallb recordEntries].
    pose proof (recordEntry_outcome fields e Hp) as He.
    destruct (recordEntry fields e) as [f1|err].
    + destruct He as [Hp1 Ed]. rewrite Ed. cbn [orb].
      specialize (IH f1 Hp1). destruct (recordEntries f1 rest) as [f2|err]; [exact IH|].
      destruct IH as [Hi | [-> Hf]]; [left; exact Hi|].
      right. split; [reflexivity|]. rewrite Hf. apply andb_false_r.
    + destruct He as [Ed | [-> Hv]]; [left; rewrite Ed; reflexivity|].
      right. split; [reflexivity|]. rewrite Hv. reflexivity.
Qed.

Lemma recordItems_outcome (data : list JVal) (fields : list (string * FieldInfo)) :
  plainKeys fields ->
  match recordItems fields data with
  | Normal fields' => hasInheritedKey data = false
  | Throw err =>
      hasInheritedKey data = true
      \/ (err = cannotConvert /\ printableEntries data = false)
  end.
Proof.
  unfold hasInheritedKey, printableEntries.
  revert fields. induction data as [|item rest IH]; intros fields Hp.
  - reflexivity.
  - cbn [existsb forallb recordItems].
    destruct (itemEntries item) as [es|]; [|cbn [orb andb]; apply (IH fields Hp)].
    pose proof (recordEntries_outcome es fields Hp) as He.
    destruct (recordEntries fields es) as [f1|err].
    + destruct He as [Hp1 Ed]. rewrite Ed. cbn [orb].
      specialize (IH f1 Hp1). destruct (recordItems f1 rest) as [f2|err]; [exact IH|].
      destruct IH as [Hi | [-> Hf]]; [left; exact Hi|].
      right. split; [reflexivity|]. rewrite Hf. apply andb_false_r.
    + destruct He as [Ed | [-> Hv]]; [left; rewrite Ed; reflexivity|].
      right. split; [reflexivity|]. rewrite Hv. reflexivity.
Qed.

(** The outcomes of the inferencer. *)
Lemma analyzeSchema_outcome (data : list JVal) :
  match data with
  | [] => analyzeSchema data = Normal (AnalysisError "Data must be a non-empty array of objects")
  | _ :: _ =>
      if hasInheritedKey data
      then exists err, analyzeSchema data = Throw err
      else if printableEntries data
           then exists sch, analyzeSchema data = Normal (Analysis sch (List.length data))
           else (exists sch, analyzeSchema data = Normal (Analysis sch (List.length data)))
                \/ analyzeSchema data = Throw cannotConvert
  end.
Proof.
  destruct data as [|item rest]; [reflexivity|].
  assert (Hp : plainKeys []) by (intros k []).
  pose proof (recordItems_outcome (item :: rest) [] Hp) as Ho.
  unfold analyzeSchema.
  destruct (recordItems [] (item :: rest)) as [fields|err].
  - rewrite Ho. destruct (printableEntries (item :: rest));
      [|left]; eexists; reflexivity.
  - destruct (hasInheritedKey (item :: rest)); [exists err; reflexivity|].
    destruct Ho as [Hi | [-> Hf]]; [discriminate|]. rewrite Hf. right. reflexivity.
Qed.

(** ** X22 *)

(** X22. The outcomes of [processJson], for every parser.  (1) A text that
    does not parse is refused with "Invalid JSON: " and the parser's
    message.  (2) Otherwise the rows are the parsed array, or the parsed
    value alone when it is no array; with no row the upload is refused
    with "Data must be a non-empty array of objects".  (3) When some row
    that is an object has a key that [Object.prototype] defines
    (constructor, toString, __proto__, ...) the document, though it
    parsed, is refused as "Invalid JSON: " with the message of the
    error the inferencer raised.  (4) A document without such a key, all
    of whose values are ones that [String] turns into a string, is
    accepted, rows that are no objects included: the error is cleared, the
    schema is the inferred one, the row count is the number of rows, and
    rows and schema are handed to [onDataLoaded].  (5) A document without
    such a key, with a value that is an object with an own property named
    [toString] (or an array holding one), is accepted in the same way or,
    when the inferencer takes a sample of that value, refused with
    "Invalid JSON: Cannot convert object to primitive value".  A refusal
    sets the error and leaves the schema and the row count shown as they
    were, and does not call [onDataLoaded]. *)
Theorem processJson_outcomes (jsonParse : string -> Completion JVal)
  (text : string) (st : UploaderState) :
  match jsonParse text with
  | Throw e =>
      processJson jsonParse text st = (failed st ("Invalid JSON: " ++ errorMessage e), None)
  | Normal parsed =>
      let accepted :=
        exists sch,
          analyzeSchema (rowsOf parsed)
          = Normal (Analysis sch (List.length (rowsOf parsed)))
          /\ processJson jsonParse text st
             = ({| uploadError := None;
                   uploadSchema := Some sch;
                   uploadRowCount := List.length (rowsOf parsed) |},
                Some (rowsOf parsed, sch)) in
      match rowsOf parsed with
      | [] =>
          processJson jsonParse text st
          = (failed st "Data must be a non-empty array of objects", None)
      | _ :: _ =>
          if hasInheritedKey (rowsOf parsed)
          then exists e,
                 processJson jsonParse text st
                 = (failed st ("Invalid JSON: " ++ errorMessage e), None)
          else if printableEntries (rowsOf parsed)
               then accepted
               else accepted
                    \/ processJson jsonParse text st
                       = (failed st "Invalid JSON: Cannot convert object to primitive value",
                          None)
      end
  end.
Proof.
  unfold processJson. destruct (jsonParse text) as [parsed|e]; [|reflexivity].
  cbv zeta.
  pose proof (analyzeSchema_outcome (rowsOf parsed)) as Ho.
  destruct (rowsOf parsed) as [|item rest] eqn:Er.
  - rewrite Ho. reflexivity.
  - destruct (hasInheritedKey (item :: rest)).
    + destruct Ho as [err ->]. exists err. reflexivity.
    + destruct (printableEntries (item :: rest)).
      * destruct Ho as [sch ->]. exists sch. split; reflexivity.
      * destruct Ho as [[sch ->] | ->]; [left; exists sch; split; reflexivity|].
        right. reflexivity.
Qed.

(** X22 with a parser that knows three texts: the empty array is refused,
    the scalar 7 is accepted as one row with an empty schema, a text that
    does not parse is refused; and with a parser that yields
    [[{"a": {"toString": 1}}]], which is refused. *)
Lemma processJson_outcomes_witness :
  processJson sampleParse "[]" initialUploader
  = (failed initialUploader "Data must be a non-empty array of objects", None)
  /\ (exists sch,
        analyzeSchema [ JNum (Num.ofZ 7) ] = Normal (Analysis sch 1)
        /\ processJson sampleParse "7" initialUploader
           = ({| uploadError := None; uploadSchema := Some sch; uploadRowCount := 1 |},
              Some ([ JNum (Num.ofZ 7) ], sch)))
  /\ processJson sampleParse "{" initialUploader
     = (failed initialUploader "Invalid JSON: Unexpected token", None)
  /\ processJson (fun _ => Normal (JArr unprintableUpload)) "" initialUploader
     = (failed initialUploader "Invalid JSON: Cannot convert object to primitive value", None).
Proof.
  split; [|split; [|split]].
  - exact (processJson_outcomes sampleParse "[]" initialUploader).
  - exact (processJson_outcomes sampleParse "7" initialUploader).
  - exact (processJson_outcomes sampleParse "{" initialUploader).
  - destruct (processJson_outcomes (fun _ => Normal (JArr unprintableUpload)) ""
                initialUploader) as [[sch [E _]] | E]; [|exact E].
    vm_compute in E. discriminate E.
Defined.

(** ** X23 *)

Lemma analyzeSchema_rows (data : list JVal) (sch : list SchemaField) (n : nat) :
  analyzeSchema data = Normal (Analysis sch n) -> data <> [] /\ n = List.length data.
Proof.
  unfold analyzeSchema. destruct data as [|item rest]; [discriminate|].
  destruct (recordItems [] (item :: rest)); [|discriminate].
  intro E. injection E as _ <-. split; [discriminate | reflexivity].
Qed.

Section PageInvariant.

Variable jsonParse : string -> Completion JVal.

(** What an upload delivers is a non-empty row array with its schema, and
    the uploader then shows that schema and the number of those rows; what
    it does not deliver leaves the uploader's schema and count alone. *)
Lemma processJson_delivers (text : string) (st u : UploaderState)
  (loaded : option (list JVal * list SchemaField)) :
  processJson jsonParse text st = (u, loaded) ->
  match loaded with
  | Some (d, s) =>
      d <> [] /\ analyzeSchema d = Normal (Analysis s (List.length d))
      /\ uploadSchema u = Some s /\ uploadRowCount u = List.length d
  | None => uploadSchema u = uploadSchema st /\ uploadRowCount u = uploadRowCount st
  end.
Proof.
  unfold processJson. destruct (jsonParse text) as [parsed|e].
  - destruct (analyzeSchema (rowsOf parsed)) as [[err|sch n]|e] eqn:Ea;
      intro E; injection E as <- <-; try (split; reflexivity).
    destruct (analyzeSchema_rows _ _ _ Ea) as [Hne ->].
    repeat split; [exact Hne | exact Ea].
  - intro E. injection E as <- <-. split; reflexivity.
Qed.

Lemma handlePaste_delivers (text : string) (st u : UploaderState)
  (loaded : option (list JVal * list SchemaField)) :
  handlePaste jsonParse text st = (u, loaded) ->
  match loaded with
  | Some (d, s) =>
      d <> [] /\ analyzeSchema d = Normal (Analysis s (List.length d))
      /\ uploadSchema u = Some s /\ uploadRowCount u = List.length d
  | None => uploadSchema u = uploadSchema st /\ uploadRowCount u = uploadRowCount st
  end.
Proof.
  unfold handlePaste. destruct (Str.isEmpty (Str.trim text)).
  - intro E. injection E as <- <-. split; reflexivity.
  - apply processJson_delivers.
Qed.

Lemma greet_messages (sch : option (list SchemaField)) (c : ChatState) (m : Message) :
  In m (messages (greet sch c)) ->
  In m (messages c) \/ exists s, m = greeting s.
Proof.
  unfold greet. destruct sch as [[|f fields]|]; try (left; assumption).
  destruct (messages c) eqn:Em; [|rewrite Em; left; assumption].
  simpl. intros [<-|[]]. right. eexists. reflexivity.
Qed.

Lemma greet_keeps_plain (sch : option (list SchemaField)) (c : ChatState) :
  (forall m, In m (messages c) -> content m <> RephraseRequest) ->
  forall m, In m (messages (greet sch c)) -> content m <> RephraseRequest.
Proof.
  intros Hc m Hin. apply greet_messages in Hin.
  destruct Hin as [Hin|[s ->]]; [apply Hc; exact Hin | discriminate].
Qed.

(** An upload, delivered or not, keeps the page consistent. *)
Lemma upload_consistent (p : Page) (u : UploaderState)
  (loaded : option (list JVal * list SchemaField)) :
  consistent p ->
  match loaded with
  | Some (d, s) =>
      d <> [] /\ analyzeSchema d = Normal (Analysis s (List.length d))
      /\ uploadSchema u = Some s /\ uploadRowCount u = List.length d
  | None =>
      uploadSchema u = uploadSchema (uploader p)
      /\ uploadRowCount u = uploadRowCount (uploader p)
  end ->
  consistent {| app := deliver loaded (app p); uploader := u;
                chat := greet (appSchema (deliver loaded (app p))) (chat p) |}.
Proof.
  intros [Ha Hc] Hl. split; [|apply greet_keeps_plain; exact Hc].
  cbn [app uploader]. destruct loaded as [[d s]|].
  - destruct Hl as [Hne [Ea [Es En]]]. cbn [deliver handleDataLoaded appData appSchema].
    split; [exact Hne|]. split; [exact Ea|].
    intros s' E'. rewrite Es in E'. injection E' as <-. split; [reflexivity | exact En].
  - destruct Hl as [Es En]. cbn [deliver]. rewrite Es, En. exact Ha.
Qed.

Lemma step_consistent (p : Page) (e : Event) : consistent p -> consistent (step jsonParse p e).
Proof.
  intro Hp. destruct e as [text|text| |text|]; unfold step.
  - destruct (processJson jsonParse text (uploader p)) as [u loaded] eqn:E.
    cbn [app uploader chat].
    apply (upload_consistent p u loaded Hp (processJson_delivers _ _ _ _ E)).
  - destruct (handlePaste jsonParse text (uploader p)) as [u loaded] eqn:E.
    cbn [app uploader chat].
    apply (upload_consistent p u loaded Hp (handlePaste_delivers _ _ _ _ E)).
  - destruct Hp as [Ha Hc]. cbn [app uploader chat].
    split; [|apply greet_keeps_plain; exact Hc].
    cbn [app uploader]. unfold handleReset.
    destruct (appData (app p)) as [d|]; destruct (appSchema (app p)) as [s|];
      try contradiction.
    + destruct Ha as [Hne [Ea _]]. split; [exact Hne|]. split; [exact Ea|].
      intros s' E'. discriminate.
    + reflexivity.
  - destruct Hp as [Ha Hc]. cbn [app uploader chat].
    split; [exact Ha|]. apply greet_keeps_plain. exact Hc.
  - destruct Hp as [Ha Hc].
    assert (Hs : let '(c, out) := handleSubmit (chatProps (app p)) (chat p) in
                 (forall m, In m (messages c) -> content m <> RephraseRequest)).
    { unfold handleSubmit.
      destruct (Str.isEmpty (Str.trim (input (chat p))) || isLoading (chat p)
                || disabled (chatProps (app p))) eqn:Eg; [exact Hc|].
      apply orb_false_elim in Eg. destruct Eg as [_ Ed].
      unfold chatProps in Ed |- *. cbn [disabled schema] in Ed |- *.
      destruct (appData (app p)) as [d|]; [|discriminate].
      destruct (appSchema (app p)) as [s|]; [|contradiction].
      destruct (resolved_xField s (Str.trim (input (chat p)))) as [config [E _]].
      rewrite E. cbn [messages]. intros m Hin.
      apply in_app_or in Hin. destruct Hin as [Hin|[<-|[]]]; [|discriminate].
      apply in_app_or in Hin. destruct Hin as [Hin|[<-|[]]]; [|discriminate].
      apply Hc. exact Hin. }
    destruct (handleSubmit (chatProps (app p)) (chat p)) as [c out].
    cbn [app uploader chat].
    split; [|apply greet_keeps_plain; exact Hs].
    cbn [app uploader]. destruct out as [config|]; [|exact Ha].
    cbn [handleChartGenerated appData appSchema]. exact Ha.
Qed.

Lemma run_consistent_from (events : list Event) (p : Page) :
  consistent p -> consistent (fold_left (step jsonParse) events p).
Proof.
  revert p. induction events as [|e rest IH]; intros p Hp; [exact Hp|].
  simpl. apply IH. apply step_consistent. exact Hp.
Qed.

End PageInvariant.

(** X23. What holds of the page after any sequence of uploads, pastes,
    resets, input edits and submissions, for every parser.  The
    application holds rows exactly when it holds a schema; the rows are
    then not empty and the schema is the one inferred from them.  A schema
    shown by the uploader is the application's, and its row count is the
    number of the application's rows (after "Change data" the uploader
    shows none while the application keeps rows, schema and chart).  And
    the chat never answers with the request to rephrase: it is enabled
    only when rows are present, a schema is then present, and resolution
    cannot fail, so the [catch] branch of [handleSubmit] is never taken. *)
Theorem page_stays_consistent (jsonParse : string -> Completion JVal)
  (events : list Event) :
  let p := run jsonParse events in
  (appData (app p) = None <-> appSchema (app p) = None)
  /\ (forall d s, appData (app p) = Some d -> appSchema (app p) = Some s ->
                  d <> [] /\ analyzeSchema d = Normal (Analysis s (List.length d)))
  /\ (forall s, uploadSchema (uploader p) = Some s ->
                appSchema (app p) = Some s
                /\ exists d, appData (app p) = Some d
                             /\ uploadRowCount (uploader p) = List.length d)
  /\ (forall m, In m (messages (chat p)) -> content m <> RephraseRequest).
Proof.
  intro p.
  assert (Hp : consistent p).
  { apply run_consistent_from. split; [reflexivity | intros m []]. }
  destruct Hp as [Ha Hc].
  destruct (appData (app p)) as [d|]; destruct (appSchema (app p)) as [s|];
    try contradiction.
  - destruct Ha as [Hne [Ea Hu]].
    split; [split; discriminate|]. split; [|split; [|exact Hc]].
    + intros d' s' Ed Es. injection Ed as <-. injection Es as <-. split; assumption.
    + intros s' Es'. destruct (Hu s' Es') as [-> En].
      split; [reflexivity|]. exists d. split; [reflexivity | exact En].
  - split; [split; reflexivity|]. split; [|split; [|exact Hc]].
    + intros d' s' Ed. discriminate.
    + intros s' Es'. rewrite Ha in Es'. discriminate.
Qed.

(** ** Maximum and minimum of a bucket *)

Lemma orZero_not_nan (x : float) : Num.isNaN (Num.orZero x) = false.
Proof.
  unfold Num.orZero. destruct (Num.isNaN x) eqn:E; simpl; [reflexivity|].
  destruct (is_zero x); [reflexivity | exact E].
Qed.

Lemma max2_choice (a b : float) :
  Num.isNaN a = false -> Num.isNaN b = false -> Num.max2 a b = a \/ Num.max2 a b = b.
Proof.
  intros Ha Hb. unfold Num.max2. rewrite Ha, Hb. simpl.
  destruct (PrimFloat.compare a b); try destruct (get_sign a); auto.
Qed.

Lemma min2_choice (a b : float) :
  Num.isNaN a = false -> Num.isNaN b = false -> Num.min2 a b = a \/ Num.min2 a b = b.
Proof.
  intros Ha Hb. unfold Num.min2. rewrite Ha, Hb. simpl.
  destruct (PrimFloat.compare a b); try destruct (get_sign a); auto.
Qed.

Lemma not_nan_spec (b : float) : Num.isNaN b = false -> Prim2SF b <> S754_nan.
Proof.
  unfold Num.isNaN, is_nan. rewrite FloatAxioms.eqb_spec. intros Hb E.
  rewrite E in Hb. discriminate.
Qed.

(** Minus infinity is below every number. *)
Lemma max2_neg_infinity (b : float) : Num.isNaN b = false -> Num.max2 neg_infinity b = b.
Proof.
  intro Hb. unfold Num.max2. rewrite Hb.
  change (Num.isNaN neg_infinity) with false. simpl orb. cbv iota.
  rewrite FloatAxioms.compare_spec.
  change (Prim2SF neg_infinity) with (S754_infinity true).
  pose proof (not_nan_spec b Hb) as Hn.
  destruct (Prim2SF b) as [s|[]| |s m e]; try contradiction; reflexivity.
Qed.

Lemma min2_infinity (b : float) : Num.isNaN b = false -> Num.min2 infinity b = b.
Proof.
  intro Hb. unfold Num.min2. rewrite Hb.
  change (Num.isNaN infinity) with false. simpl orb. cbv iota.
  rewrite FloatAxioms.compare_spec.
  change (Prim2SF infinity) with (S754_infinity false).
  pose proof (not_nan_spec b Hb) as Hn.
  destruct (Prim2SF b) as [s|[]| |s m e]; try contradiction; reflexivity.
Qed.

Section Attained.

Variable op : float -> float -> float.
Hypothesis op_choice :
  forall a b, Num.isNaN a = false -> Num.isNaN b = false -> op a b = a \/ op a b = b.

Lemma fold_choice (values : list float) (a : float) :
  Num.isNaN a = false -> Forall (fun v => Num.isNaN v = false) values ->
  fold_left op values a = a \/ In (fold_left op values a) values.
Proof.
  revert a. induction values as [|v vs IH]; intros a Ha Hv; simpl.
  - left. reflexivity.
  - inversion Hv as [|? ? Hv1 Hvs]; subst.
    assert (Hop : Num.isNaN (op a v) = false).
    { destruct (op_choice a v Ha Hv1) as [-> | ->]; assumption. }
    destruct (IH (op a v) Hop Hvs) as [E|Hin].
    + rewrite E. destruct (op_choice a v Ha Hv1) as [-> | ->];
        [left; reflexivity | right; left; reflexivity].
    + right. right. exact Hin.
Qed.

End Attained.

(** The maximum of numbers, at least one, is one of them. *)
Lemma mathMax_attained (values : list float) :
  values <> [] -> Forall (fun v => Num.isNaN v = false) values ->
  In (Num.mathMax values) values.
Proof.
  intros Hne Hv. destruct values as [|v vs]; [contradiction|].
  inversion Hv as [|? ? Hv1 Hvs]; subst.
  unfold Num.mathMax. simpl. rewrite (max2_neg_infinity v Hv1).
  destruct (fold_choice Num.max2 max2_choice vs v Hv1 Hvs) as [E|Hin].
  - left. symmetry. exact E.
  - right. exact Hin.
Qed.

Lemma mathMin_attained (values : list float) :
  values <> [] -> Forall (fun v => Num.isNaN v = false) values ->
  In (Num.mathMin values) values.
Proof.
  intros Hne Hv. destruct values as [|v vs]; [contradiction|].
  inversion Hv as [|? ? Hv1 Hvs]; subst.
  unfold Num.mathMin. simpl. rewrite (min2_infinity v Hv1).
  destruct (fold_choice Num.min2 min2_choice vs v Hv1 Hvs) as [E|Hin].
  - left. symmetry. exact E.
  - right. exact Hin.
Qed.

Lemma toNumberOrZero_not_nan `{Host} (v : Value) (x : float) :
  toNumberOrZero v = Normal x -> Num.isNaN x = false.
Proof.
  unfold toNumberOrZero. intro E. apply bind_Normal in E. destruct E as [text [_ E]].
  injection E as <-. apply orZero_not_nan.
Qed.

Lemma yValues_not_nan `{Host} (y : string) (items : list DataRow) (values : list float) :
  yValues y items = Normal values ->
  Forall (fun v => Num.isNaN v = false) values.
Proof.
  unfold yValues. intro E. apply Forall_forall. intros x Hx.
  apply (mapM_In _ _ _ x E) in Hx. destruct Hx as [item [_ Ex]].
  apply (toNumberOrZero_not_nan _ _ Ex).
Qed.

Lemma In_combine_map {A B C : Type} (f : A -> B) (g : A -> C) (a : A) (l : list A) :
  In a l -> In (f a, g a) (combine (map f l) (map g l)).
Proof.
  induction l as [|a' l IH]; simpl; [intros []|].
  intros [->|Hin]; [left; reflexivity | right; apply IH; exact Hin].
Qed.

(** ** X24 *)

(** X24. No bucket of a grouped result is empty: behind every label there
    is at least one retained row with that key.  So a count is never 0, an
    average never divides by 0, and with the maximum or the minimum as
    aggregate the value beside a label is the y-number of one of the rows
    of its bucket ([parseFloat(String(row[yField])) || 0], which is never
    NaN): it is never the minus or plus infinity that [Math.max] and
    [Math.min] return for no argument. *)
Theorem no_bucket_is_empty `{Host}
  (data : list DataRow) (config : ChartConfig) (out : TransformedData) (l : string) :
  grouping config = true ->
  transformData (Some data) (Some config) = Normal (Some out) ->
  In l (labels out) ->
  exists processed v,
    applyFilter config data = Normal processed
    /\ In (l, v) (combine (labels out) (values out))
    /\ aggregateBucket config (l, bucketRows config processed l)
       = Normal {| label := l; pointValue := v |}
    /\ bucketRows config processed l <> []
    /\ (aggregate config = Max \/ aggregate config = Min ->
        Num.isNaN v = false
        /\ exists item, In item (bucketRows config processed l)
                        /\ toNumberOrZero (getProp item (yField config)) = Normal v).
Proof.
  intros Hg Hout Hl.
  destruct (transformData_points data config out Hg Hout)
    as [processed [groups [points [Ep [Eg [Ea [El Ev]]]]]]].
  destruct (groupRows_keys _ _ _ _ Eg (NoDup_nil _)) as [ks [Eks [Hnd Hk]]].
  rewrite El in Hl. apply in_map_iff in Hl. destruct Hl as [p [Elab Hp]].
  assert (Hpair : In (l, pointValue p) (combine (labels out) (values out))).
  { rewrite El, Ev, <- Elab. apply In_combine_map. exact Hp. }
  apply (Permutation_in _ (Permutation_sortWith _ _)) in Hp.
  apply (mapM_In _ _ _ p Ea) in Hp. destruct Hp as [[k items] [Hin Eagg]].
  pose proof (aggregateBucket_label _ _ _ Eagg) as Ek. cbn [fst] in Ek.
  rewrite Elab in Ek. subst k.
  apply In_entries in Hin.
  pose proof (In_assoc l items groups Hnd Hin) as Ha.
  pose proof (groupRows_bucket _ _ _ _ Eg l) as Hb.
  unfold bucketOf in Hb. rewrite Ha in Hb. simpl in Hb.
  assert (Hitems : items = bucketRows config processed l) by exact Hb.
  assert (Hkey : In l (keys groups)) by (apply (in_map fst) in Hin; exact Hin).
  apply Hk in Hkey. destruct Hkey as [[]|Hkey].
  apply (mapM_In _ _ _ l Eks) in Hkey. destruct Hkey as [item [Hi Ekey]].
  assert (Hmem : In item (bucketRows config processed l)).
  { unfold bucketRows. apply filter_In. split; [exact Hi|].
    unfold hasKey. rewrite Ekey. apply String.eqb_refl. }
  assert (Hne : bucketRows config processed l <> []).
  { intro En. rewrite En in Hmem. exact Hmem. }
  exists processed, (pointValue p). split; [exact Ep|]. split; [exact Hpair|].
  rewrite <- Hitems. split.
  { rewrite Eagg. destruct p as [pl pv]. cbn [label pointValue] in *.
    rewrite Elab. reflexivity. }
  split; [rewrite Hitems; exact Hne|].
  intro Hagg. unfold aggregateBucket in Eagg.
  apply bind_Normal in Eagg. destruct Eagg as [vs [Evs Eagg]].
  injection Eagg as <-. cbn [pointValue].
  assert (Hv : vs <> []).
  { intro En. unfold yValues in Evs. apply mapM_length in Evs. rewrite En in Evs.
    rewrite Hitems in Evs. destruct (bucketRows config processed l);
      [apply Hne; reflexivity | discriminate]. }
  pose proof (yValues_not_nan (yField config) items vs Evs) as Hn.
  assert (Hin' : In (match aggregate config with
                     | Average => PrimFloat.div (Num.sum vs) (Num.ofNat (List.length vs))
                     | Count => Num.ofNat (List.length items)
                     | Max => Num.mathMax vs
                     | Min => Num.mathMin vs
                     | _ => Num.sum vs
                     end) vs).
  { destruct Hagg as [-> | ->]; [apply mathMax_attained | apply mathMin_attained];
      assumption. }
  split.
  - rewrite Forall_forall in Hn. apply Hn. exact Hin'.
  - unfold yValues in Evs. apply (mapM_In _ _ _ _ Evs) in Hin'.
    destruct Hin' as [row [Hr Er]]. exists row. split; [exact Hr | exact Er].
Qed.

(** X24 at the rows numbered by day, with the maximum: the bucket of day 9
    holds the first and the third row, and its value is the 4 of the
    third. *)
Lemma no_bucket_is_empty_witness :
  grouping numberedDayMax = true
  /\ @transformData utcHost (Some numberedDayRows) (Some numberedDayMax)
     = Normal (Some {| labels := [ "10"; "9" ]; values := [ Num.ofZ 2; Num.ofZ 4 ] |})
  /\ In "9" [ "10"; "9" ]
  /\ exists processed v,
       @applyFilter utcHost numberedDayMax numberedDayRows = Normal processed
       /\ In ("9", v) (combine [ "10"; "9" ] [ Num.ofZ 2; Num.ofZ 4 ])
       /\ @aggregateBucket utcHost numberedDayMax
            ("9", @bucketRows utcHost numberedDayMax processed "9")
          = Normal {| label := "9"; pointValue := v |}
       /\ @bucketRows utcHost numberedDayMax processed "9" <> []
       /\ (aggregate numberedDayMax = Max \/ aggregate numberedDayMax = Min ->
           Num.isNaN v = false
           /\ exists item,
                In item (@bucketRows utcHost numberedDayMax processed "9")
                /\ @toNumberOrZero utcHost (getProp item (yField numberedDayMax))
                   = Normal v).
Proof.
  assert (E : @transformData utcHost (Some numberedDayRows) (Some numberedDayMax)
              = Normal (Some {| labels := [ "10"; "9" ];
                                values := [ Num.ofZ 2; Num.ofZ 4 ] |})).
  { vm_compute. reflexivity. }
  assert (Hl : In "9" [ "10"; "9" ]) by (right; left; reflexivity).
  split; [reflexivity|]. split; [exact E|]. split; [exact Hl|].
  exact (@no_bucket_is_empty utcHost numberedDayRows numberedDayMax
           {| labels := [ "10"; "9" ]; values := [ Num.ofZ 2; Num.ofZ 4 ] |} "9"
           eq_refl E Hl).
Defined.

(** ** Rendering a message *)

Lemma startsWith_stars_head (c : ascii) (s : string) :
  isStar c = false -> Str.startsWith (String c s) "**" = false.
Proof.
  unfold isStar. intro Hc. cbn [Str.startsWith].
  destruct (Ascii.eqb_spec "*"%char c) as [E|_]; [|reflexivity].
  rewrite <- E in Hc. discriminate Hc.
Qed.

Lemma boldFrom_ordinary (p r : string) :
  Str.forallb isOrdinary p = true -> boldFrom 0 (p ++ r) = p ++ boldFrom 0 r.
Proof.
  induction p as [|c p IH]; intro Hp; [reflexivity|].
  simpl in Hp. apply andb_prop in Hp. destruct Hp as [Hc Hp].
  unfold isOrdinary in Hc. apply andb_prop in Hc. destruct Hc as [Hc _].
  apply negb_true_iff in Hc.
  change (String c p ++ r) with (String c (p ++ r)).
  cbn [boldFrom]. rewrite (startsWith_stars_head c (p ++ r) Hc), (IH Hp). reflexivity.
Qed.

Lemma lazyUntilStars_span (w q : string) :
  Str.isEmpty w = false -> Str.forallb isSpanChar w = true ->
  lazyUntilStars (w ++ "**" ++ q) = Some (w, q).
Proof.
  induction w as [|c w IH]; intros Hne Hw; [discriminate|].
  simpl in Hw. apply andb_prop in Hw. destruct Hw as [Hc Hw].
  unfold isSpanChar in Hc. apply andb_prop in Hc. destruct Hc as [_ Hl].
  apply negb_true_iff in Hl.
  change (String c w ++ "**" ++ q) with (String c (w ++ "**" ++ q)).
  cbn [lazyUntilStars]. rewrite Hl.
  destruct w as [|c2 w'].
  { change ("" ++ "**" ++ q) with ("**" ++ q).
    rewrite (startsWith_app "**" q). reflexivity. }
  assert (Hc2 : isStar c2 = false).
  { simpl in Hw. apply andb_prop in Hw. destruct Hw as [Hc2 _].
    unfold isSpanChar in Hc2. apply andb_prop in Hc2. destruct Hc2 as [Hc2 _].
    apply negb_true_iff in Hc2. exact Hc2. }
  change (String c2 w' ++ "**" ++ q) with (String c2 (w' ++ "**" ++ q)).
  rewrite (startsWith_stars_head c2 _ Hc2).
  change (String c2 (w' ++ "**" ++ q)) with (String c2 w' ++ "**" ++ q).
  rewrite (IH eq_refl Hw). reflexivity.
Qed.

(** At two asterisks a span is looked for. *)
Lemma boldFrom_open (r : string) :
  boldFrom 0 ("**" ++ r)
  = match lazyUntilStars r with
    | Some (captured, _) =>
        "<strong>" ++ captured ++ "</strong>"
        ++ boldFrom (String.length captured + 3) (String "*" r)
    | None => String "*" (boldFrom 0 (String "*" r))
    end.
Proof.
  change (boldFrom 0 ("**" ++ r))
    with (if Str.startsWith ("**" ++ r) "**"
          then match lazyUntilStars r with
               | Some (captured, _) =>
                   "<strong>" ++ captured ++ "</strong>"
                   ++ boldFrom (String.length captured + 3) (String "*" r)
               | None => String "*" (boldFrom 0 (String "*" r))
               end
          else String "*" (boldFrom 0 (String "*" r))).
  rewrite (startsWith_app "**" r). reflexivity.
Qed.

Lemma boldFrom_skip (a q : string) : boldFrom (String.length a) (a ++ q) = boldFrom 0 q.
Proof.
  induction a as [|c a IH]; [destruct q; reflexivity|]. simpl. exact IH.
Qed.

Lemma length_app (s t : string) :
  String.length (s ++ t) = (String.length s + String.length t)%nat.
Proof. induction s as [|c s IH]; simpl; [reflexivity|]. rewrite IH. reflexivity. Qed.

Lemma breakLines_app (s t : string) : breakLines (s ++ t) = breakLines s ++ breakLines t.
Proof.
  induction s as [|c s IH]; [reflexivity|]. simpl.
  destruct (Ascii.eqb c (ascii_of_nat 10)); rewrite IH; reflexivity.
Qed.

Lemma breakLines_plain (s : string) :
  Str.forallb (fun c => negb (Ascii.eqb c (ascii_of_nat 10))) s = true -> breakLines s = s.
Proof.
  induction s as [|c s IH]; [reflexivity|]. intro Hs. simpl in Hs.
  apply andb_prop in Hs. destruct Hs as [Hc Hs]. apply negb_true_iff in Hc.
  cbn [breakLines]. rewrite Hc, (IH Hs). reflexivity.
Qed.

Lemma forallb_weaken (p q : ascii -> bool) (s : string) :
  (forall c, p c = true -> q c = true) ->
  Str.forallb p s = true -> Str.forallb q s = true.
Proof.
  intro Hpq. induction s as [|c s IH]; [reflexivity|]. simpl. intro Hs.
  apply andb_prop in Hs. destruct Hs as [Hc Hs]. rewrite (Hpq c Hc), (IH Hs). reflexivity.
Qed.

(** ** X25 *)

(** X25. [formatMessage] escapes nothing.  A text without an asterisk and
    without a line feed is returned as it is, markup included; and after
    such a text, a span between two pairs of asterisks (not empty, without
    asterisk or line break) is wrapped in [<strong>] tags with its
    characters unchanged.  The result is what the page inserts as HTML, and
    the greeting puts the field names of the uploaded document in such a
    span: a field name that is markup reaches the page as markup. *)
Theorem formatMessage_escapes_nothing (p : string) :
  Str.forallb isOrdinary p = true ->
  formatMessage p = p
  /\ forall w q,
       Str.isEmpty w = false -> Str.forallb isSpanChar w = true ->
       formatMessage (p ++ "**" ++ w ++ "**" ++ q)
       = p ++ "<strong>" ++ w ++ "</strong>" ++ formatMessage q.
Proof.
  intro Hp.
  assert (Hpl : breakLines p = p).
  { apply breakLines_plain. revert Hp. apply forallb_weaken.
    intros c Hc. unfold isOrdinary in Hc. apply andb_prop in Hc. tauto. }
  split.
  - unfold formatMessage.
    pose proof (boldFrom_ordinary p "" Hp) as E.
    assert (Ep : p ++ "" = p).
    { clear. induction p as [|c p IH]; simpl; [reflexivity|]. rewrite IH. reflexivity. }
    simpl in E. rewrite Ep in E. rewrite E. exact Hpl.
  - intros w q Hne Hw. unfold formatMessage.
    rewrite (boldFrom_ordinary p _ Hp).
    assert (Eb : boldFrom 0 ("**" ++ w ++ "**" ++ q)
                 = "<strong>" ++ w ++ "</strong>" ++ boldFrom 0 q).
    { rewrite boldFrom_open, (lazyUntilStars_span w q Hne Hw).
      replace (String "*" (w ++ "**" ++ q)) with ((String "*" (w ++ "**")) ++ q)
        by (simpl; rewrite string_app_assoc; reflexivity).
      replace (String.length w + 3)%nat with (String.length (String "*" (w ++ "**")))
        by (simpl; rewrite length_app; simpl; lia).
      rewrite boldFrom_skip. reflexivity. }
    rewrite Eb, !breakLines_app, Hpl.
    assert (Hwl : breakLines w = w).
    { apply breakLines_plain. revert Hw. apply forallb_weaken.
      intros c Hc. unfold isSpanChar, isLineTerminator in Hc.
      apply andb_prop in Hc. destruct Hc as [_ Hc].
      apply negb_true_iff in Hc. apply orb_false_elim in Hc.
      destruct Hc as [Hc _]. rewrite Hc. reflexivity. }
    rewrite Hwl. reflexivity.
Qed.

(** X25 at the greeting for a document whose only key is an [img] tag. *)
Lemma formatMessage_escapes_nothing_witness :
  Str.forallb isOrdinary greetingHead = true
  /\ joinWith ", " (map name markupSchema) = "<img src=x onerror=alert(1)>"
  /\ formatMessage (greetingText markupSchema)
     = greetingHead ++ "<strong>" ++ "<img src=x onerror=alert(1)>" ++ "</strong>"
       ++ formatMessage greetingTail.
Proof.
  split; [reflexivity|]. split; [reflexivity|].
  exact (proj2 (formatMessage_escapes_nothing greetingHead eq_refl)
           "<img src=x onerror=alert(1)>" greetingTail eq_refl eq_refl).
Defined.

(** ** From the upload to the axes *)

(** The names of an inferred schema are the keys of the rows. *)
Lemma schema_names_are_keys (data : list JVal) (sch : list SchemaField) (n : nat) (k : string) :
  analyzeSchema data = Normal (Analysis sch n) ->
  In k (map name sch) <-> exists item, In item data /\ containsKey k item = true.
Proof.
  unfold analyzeSchema. destruct data as [|item rest]; [discriminate|].
  destruct (recordItems [] (item :: rest)) as [fields|] eqn:Er; [|discriminate].
  intro E. injection E as <- <-.
  destruct (recordItems_info _ _ _ Er) as [_ [Hk _]].
  rewrite map_map.
  rewrite (map_ext (fun x => name (toSchemaField (List.length (item :: rest)) x)) fst)
    by (intros [k' info]; reflexivity).
  rewrite <- In_allKeys. split.
  - intro Hin.
    apply (Permutation_in k (Permutation_map fst (Permutation_entries fields))) in Hin.
    apply Hk in Hin. destruct Hin as [[]|Hin]. exact Hin.
  - intro Hin.
    apply (Permutation_in k (Permutation_sym (Permutation_map fst (Permutation_entries fields)))).
    apply Hk. right. exact Hin.
Qed.

(** ** X26 *)

(** X26. From the upload to the axes.  When [processJson] accepts a
    document and the schema it infers has a field, then for every request
    the resolver returns a configuration whose x-field is a key of some
    uploaded row, and whose y-field is a key of some uploaded row or the
    empty string: the field names of the chart are never taken from the
    text of the request. *)
Theorem axes_are_keys_of_the_upload (jsonParse : string -> Completion JVal)
  (text : string) (st st' : UploaderState) (data : list JVal) (sch : list SchemaField)
  (request : string) :
  processJson jsonParse text st = (st', Some (data, sch)) ->
  sch <> [] ->
  exists config,
    generateChartConfig (Some sch) request = Normal config
    /\ (exists item, In item data /\ containsKey (xField config) item = true)
    /\ (yField config = ""
        \/ exists item, In item data /\ containsKey (yField config) item = true).
Proof.
  intros Hp Hne.
  destruct (processJson_delivers jsonParse text st st' (Some (data, sch)) Hp)
    as [_ [Ea _]].
  destruct (resolved_xField sch request) as [config [Hc Hx]].
  destruct (resolved_yField sch request) as [config' [Hc' Hy]].
  rewrite Hc in Hc'. injection Hc' as <-. cbv zeta in Hy.
  exists config. split; [exact Hc|]. split.
  - apply (schema_names_are_keys data sch _ (xField config) Ea).
    rewrite Hx. destruct (firstNamedX (Str.toLowerCase request) sch) as [f|] eqn:E.
    + apply in_map. apply (find_some _ _ E).
    + destruct (fallbackChain_member sch Hne) as [f [Hin <-]]. apply in_map. exact Hin.
  - assert (Hfb : orElse (findName (fun f => isYType (type f)) sch)
                    (orElse (nthName 1 sch) "") = ""
                  \/ In (orElse (findName (fun f => isYType (type f)) sch)
                           (orElse (nthName 1 sch) "")) (map name sch)).
    { destruct (findName_orElse (fun f => isYType (type f)) sch
                  (orElse (nthName 1 sch) "")) as [[f [Hin <-]]|H];
        [right; apply in_map; exact Hin|].
      rewrite H. destruct (nthName_member 1 sch "") as [[f [Hin <-]]|H'];
        [right; apply in_map; exact Hin | left; exact H']. }
    assert (Hym : yField config = "" \/ In (yField config) (map name sch)).
    { rewrite Hy. destruct (lastMentionedY (Str.toLowerCase request) sch) as [f|] eqn:El;
        [|exact Hfb].
      destruct (Str.isEmpty (name f)); [exact Hfb|].
      right. apply in_map. apply find_some in El. destruct El as [El _].
      apply in_rev. exact El. }
    destruct Hym as [Hy0|Hym]; [left; exact Hy0|].
    right. apply (schema_names_are_keys data sch _ (yField config) Ea). exact Hym.
Qed.

(** X26 with a parser that knows the text of two one-element rows: the
    schema has the field [0], and it becomes the x-field of any request. *)
Lemma axes_are_keys_of_the_upload_witness :
  processJson sampleParse "[[1],[2]]" initialUploader
  = ({| uploadError := None;
        uploadSchema := Some [ {| name := "0"; type := TNumber; types := [ TNumber ];
                                  coverage := Num.ofZ 100; samples := [ "1"; "2" ] |} ];
        uploadRowCount := 2 |},
     Some ([ JArr [ JNum (Num.ofZ 1) ]; JArr [ JNum (Num.ofZ 2) ] ],
           [ {| name := "0"; type := TNumber; types := [ TNumber ];
                coverage := Num.ofZ 100; samples := [ "1"; "2" ] |} ]))
  /\ exists config,
       generateChartConfig
         (Some [ {| name := "0"; type := TNumber; types := [ TNumber ];
                    coverage := Num.ofZ 100; samples := [ "1"; "2" ] |} ])
         "bar chart" = Normal config
       /\ (exists item,
             In item [ JArr [ JNum (Num.ofZ 1) ]; JArr [ JNum (Num.ofZ 2) ] ]
             /\ containsKey (xField config) item = true)
       /\ (yField config = ""
           \/ exists item,
                In item [ JArr [ JNum (Num.ofZ 1) ]; JArr [ JNum (Num.ofZ 2) ] ]
                /\ containsKey (yField config) item = true).
Proof.
  assert (E : processJson sampleParse "[[1],[2]]" initialUploader
    = ({| uploadError := None;
          uploadSchema := Some [ {| name := "0"; type := TNumber; types := [ TNumber ];
                                    coverage := Num.ofZ 100; samples := [ "1"; "2" ] |} ];
          uploadRowCount := 2 |},
       Some ([ JArr [ JNum (Num.ofZ 1) ]; JArr [ JNum (Num.ofZ 2) ] ],
             [ {| name := "0"; type := TNumber; types := [ TNumber ];
                  coverage := Num.ofZ 100; samples := [ "1"; "2" ] |} ]))).
  { vm_compute. reflexivity. }
  split; [exact E|].
  apply (axes_are_keys_of_the_upload sampleParse "[[1],[2]]" initialUploader _ _ _
           "bar chart" E).
  discriminate.
Defined.
